(** * Verification of poetry-core's wheel builder

    A shallow embedding of [poetry/core/masonry/builders/wheel.py]
    ([WheelBuilder]) and the properties of the archive it assembles:
    manifest (RECORD) completeness, ordering, permission normalisation,
    tag resolution, entry points and the handling of the output file.

    Conventions of the embedding
    - bytes objects are [list byte]; text ([str]) is [string], read as its
      UTF-8 encoding, so [encode_utf8] is the list of its bytes;
    - Python integers are [Z] (modes, attributes) or [N] (sizes);
    - a [pathlib] path is the list of its components ([Path]);
    - the builder is stateful and may raise: its methods live in a state
      and exception monad [M] over [State]; the state reached when an
      exception escapes is kept, as it is in Python;
    - everything the builder consumes from outside (project configuration,
      file system, build tool, host tags) is a field of [World]. *)

From Stdlib Require Import ZArith NArith List Bool Lia Arith.
From Stdlib Require Import Strings.String Strings.Ascii Strings.Byte.
From Stdlib Require Import Sorting.Sorted Sorting.Permutation.
From Stdlib Require Import DecimalString.
Import ListNotations.

Set Implicit Arguments.

Local Open Scope Z_scope.
Local Open Scope list_scope.

Definition bytes := list byte.

(* ================================================================== *)
(** * hashlib.sha256 (FIPS 180-4) on 32-bit words carried by [Z]      *)
(* ================================================================== *)

Module SHA256.

Definition mask32 : Z := 0xFFFFFFFF.

Definition add32 (a b : Z) : Z := Z.land (a + b) mask32.

Definition rotr (n x : Z) : Z :=
  Z.lor (Z.shiftr x n) (Z.land (Z.shiftl x (32 - n)) mask32).

Definition not32 (x : Z) : Z := Z.lxor x mask32.

Definition Ch (x y z : Z) : Z := Z.lxor (Z.land x y) (Z.land (not32 x) z).
Definition Maj (x y z : Z) : Z :=
  Z.lxor (Z.lxor (Z.land x y) (Z.land x z)) (Z.land y z).
Definition Sigma0 (x : Z) : Z := Z.lxor (Z.lxor (rotr 2 x) (rotr 13 x)) (rotr 22 x).
Definition Sigma1 (x : Z) : Z := Z.lxor (Z.lxor (rotr 6 x) (rotr 11 x)) (rotr 25 x).
Definition sigma0 (x : Z) : Z := Z.lxor (Z.lxor (rotr 7 x) (rotr 18 x)) (Z.shiftr x 3).
Definition sigma1 (x : Z) : Z := Z.lxor (Z.lxor (rotr 17 x) (rotr 19 x)) (Z.shiftr x 10).

(** The round constants are the first 32 bits of the fractional parts of
    the cube roots of the first 64 primes, the initial hash value those of
    the square roots of the first 8 primes; both are computed here from
    that definition. *)
Definition is_prime (p : Z) : bool :=
  (1 <? p) && forallb (fun d => negb (p mod d =? 0))
                      (map Z.of_nat (seq 2 (Z.to_nat p - 2))).

Definition first_primes (n : nat) : list Z :=
  firstn n (filter is_prime (map Z.of_nat (seq 2 310))).

(** The largest [r] below [2 ^ bits] with [r ^ 3 <= n]. *)
Fixpoint cube_root (bits : nat) (n r : Z) : Z :=
  match bits with
  | O => r
  | S b =>
      let r' := r + 2 ^ Z.of_nat b in
      cube_root b n (if r' * r' * r' <=? n then r' else r)
  end.

Definition frac_cbrt (p : Z) : Z := Z.land (cube_root 40 (p * 2 ^ 96) 0) mask32.

Definition frac_sqrt (p : Z) : Z := Z.land (Z.sqrt (p * 2 ^ 64)) mask32.

Definition K : list Z := Eval vm_compute in map frac_cbrt (first_primes 64).

(** The eight working variables / chaining values. *)
Record regs := mkRegs { ra : Z; rb : Z; rc : Z; rd : Z; re : Z; rf : Z; rg : Z; rh : Z }.

Definition H0 : regs :=
  Eval vm_compute in
    match map frac_sqrt (first_primes 8) with
    | [a; b; c; d; e; f; g; h] => mkRegs a b c d e f g h
    | _ => mkRegs 0 0 0 0 0 0 0 0
    end.

Definition byteZ (b : byte) : Z := Z.of_N (Byte.to_N b).

Definition Zbyte (z : Z) : byte :=
  match Byte.of_N (Z.to_N (Z.land z 0xFF)) with
  | Some b => b
  | None => x00
  end.

(** Big-endian encodings. *)
Definition word_bytes (w : Z) : bytes :=
  [ Zbyte (Z.shiftr w 24); Zbyte (Z.shiftr w 16); Zbyte (Z.shiftr w 8); Zbyte w ].

Definition len_bytes (bits : Z) : bytes :=
  word_bytes (Z.shiftr bits 32) ++ word_bytes bits.

Fixpoint words_of (bs : bytes) : list Z :=
  match bs with
  | b0 :: b1 :: b2 :: b3 :: rest =>
      Z.lor (Z.shiftl (byteZ b0) 24)
        (Z.lor (Z.shiftl (byteZ b1) 16)
           (Z.lor (Z.shiftl (byteZ b2) 8) (byteZ b3)))
      :: words_of rest
  | _ => []
  end.

(** Padding: one [0x80], zeros up to 56 mod 64, then the bit length. *)
Definition pad (msg : bytes) : bytes :=
  let n := Z.of_nat (List.length msg) in
  let zeros := Z.to_nat ((55 - n) mod 64) in
  msg ++ x80 :: repeat x00 zeros ++ len_bytes (8 * n).

(** Message schedule: [w] holds the words computed so far, newest first. *)
Fixpoint schedule (n : nat) (w : list Z) : list Z :=
  match n with
  | O => w
  | S n' =>
      let w2 := nth 1 w 0 in
      let w7 := nth 6 w 0 in
      let w15 := nth 14 w 0 in
      let w16 := nth 15 w 0 in
      schedule n' (add32 (add32 (sigma1 w2) w7) (add32 (sigma0 w15) w16) :: w)
  end.

Definition round (r : regs) (kw : Z * Z) : regs :=
  let (k, w) := kw in
  let t1 := add32 (add32 (add32 (rh r) (Sigma1 (re r))) (Ch (re r) (rf r) (rg r)))
                  (add32 k w) in
  let t2 := add32 (Sigma0 (ra r)) (Maj (ra r) (rb r) (rc r)) in
  mkRegs (add32 t1 t2) (ra r) (rb r) (rc r) (add32 (rd r) t1) (re r) (rf r) (rg r).

Definition compress (h : regs) (block : list Z) : regs :=
  let w := rev (schedule 48 (rev block)) in
  let r := fold_left round (combine K w) h in
  mkRegs (add32 (ra h) (ra r)) (add32 (rb h) (rb r)) (add32 (rc h) (rc r))
         (add32 (rd h) (rd r)) (add32 (re h) (re r)) (add32 (rf h) (rf r))
         (add32 (rg h) (rg r)) (add32 (rh h) (rh r)).

(** [blocks n ws] folds [compress] over [n] blocks of 16 words. *)
Fixpoint blocks (n : nat) (ws : list Z) (h : regs) : regs :=
  match n with
  | O => h
  | S n' => blocks n' (skipn 16 ws) (compress h (firstn 16 ws))
  end.

Definition digest_of (r : regs) : bytes :=
  word_bytes (ra r) ++ word_bytes (rb r) ++ word_bytes (rc r) ++ word_bytes (rd r) ++
  word_bytes (re r) ++ word_bytes (rf r) ++ word_bytes (rg r) ++ word_bytes (rh r).

Definition sha256 (msg : bytes) : bytes :=
  let ws := words_of (pad msg) in
  digest_of (blocks (List.length ws / 16) ws H0).

End SHA256.

Definition hex_digit (n : Z) : ascii :=
  nth (Z.to_nat n) (list_ascii_of_string "0123456789abcdef") "0"%char.

Definition hexdigest (bs : bytes) : string :=
  string_of_list_ascii
    (flat_map (fun b => let z := SHA256.byteZ b in
                        [hex_digit (Z.shiftr z 4); hex_digit (Z.land z 15)]) bs).

Definition encode_utf8 (s : string) : bytes := list_byte_of_string s.

(* ================================================================== *)
(** * base64.urlsafe_b64encode, str.rstrip, str.replace, str.format   *)
(* ================================================================== *)

Definition b64_std_alphabet : list ascii :=
  list_ascii_of_string
    "ABCDEFGHIJKLMNOPQRSTUVWXYZabcdefghijklmnopqrstuvwxyz0123456789+/".

Definition b64char (n : Z) : ascii :=
  nth (Z.to_nat (Z.land n 63)) b64_std_alphabet "A"%char.

(** [base64.b64encode]: three bytes give four characters, the last group
    is padded with ['=']. *)
Fixpoint b64encode (bs : bytes) : list ascii :=
  match bs with
  | [] => []
  | [a] =>
      let a := SHA256.byteZ a in
      [ b64char (Z.shiftr a 2); b64char (Z.shiftl (Z.land a 3) 4);
        "="%char; "="%char ]
  | [a; b] =>
      let a := SHA256.byteZ a in
      let b := SHA256.byteZ b in
      [ b64char (Z.shiftr a 2);
        b64char (Z.lor (Z.shiftl (Z.land a 3) 4) (Z.shiftr b 4));
        b64char (Z.shiftl (Z.land b 15) 2); "="%char ]
  | a :: b :: c :: rest =>
      let a := SHA256.byteZ a in
      let b := SHA256.byteZ b in
      let c := SHA256.byteZ c in
      b64char (Z.shiftr a 2)
      :: b64char (Z.lor (Z.shiftl (Z.land a 3) 4) (Z.shiftr b 4))
      :: b64char (Z.lor (Z.shiftl (Z.land b 15) 2) (Z.shiftr c 6))
      :: b64char (Z.land c 63)
      :: b64encode rest
  end.

(** The translation table of [urlsafe_b64encode]: ['+'] to ['-'] and
    ['/'] to ['_']. *)
Definition urlsafe_translate (c : ascii) : ascii :=
  if Ascii.eqb c "+" then "-"%char
  else if Ascii.eqb c "/" then "_"%char
  else c.

(** [urlsafe_b64encode(b).decode("ascii")] *)
Definition urlsafe_b64encode (bs : bytes) : string :=
  string_of_list_ascii (map urlsafe_translate (b64encode bs)).

(** [s.rstrip(c)] for a one-character argument. *)
Fixpoint rstrip (c : ascii) (s : string) : string :=
  match s with
  | EmptyString => EmptyString
  | String a s' =>
      match rstrip c s' with
      | EmptyString => if Ascii.eqb a c then EmptyString else String a EmptyString
      | r => String a r
      end
  end.

(** [s.replace(c, empty)] for a one-character [c]. *)
Fixpoint remove_char (c : ascii) (s : string) : string :=
  match s with
  | EmptyString => EmptyString
  | String a s' =>
      if Ascii.eqb a c then remove_char c s' else String a (remove_char c s')
  end.

(** [sub in s] *)
Fixpoint contains (sub s : string) : bool :=
  prefix sub s ||
  match s with
  | EmptyString => false
  | String _ s' => contains sub s'
  end.

(** ["{}".format(n)] for a non-negative integer. *)
Definition str_of_N (n : N) : string := NilZero.string_of_uint (N.to_uint n).

(** [x in l] for a list of strings. *)
Definition mem_string (x : string) (l : list string) : bool :=
  existsb (String.eqb x) l.

(** [sorted(l, key=key)]: a stable sort that only uses [<] on the keys.
    An element goes in front of the first element of the sorted tail that
    is not smaller than it, so equal keys keep their input order. *)
Section Sorted.
Variables (A K : Type) (key : A -> K) (ltb : K -> K -> bool).

Fixpoint insert_sorted (x : A) (l : list A) : list A :=
  match l with
  | [] => [x]
  | y :: l' =>
      if ltb (key y) (key x) then y :: insert_sorted x l' else x :: y :: l'
  end.

Fixpoint sorted (l : list A) : list A :=
  match l with
  | [] => []
  | x :: l' => insert_sorted x (sorted l')
  end.
End Sorted.

Definition str_ltb (a b : string) : bool :=
  match String.compare a b with Lt => true | _ => false end.

(* ================================================================== *)
(** * pathlib                                                          *)
(* ================================================================== *)

(** A pure POSIX path is the list of its components; the components of
    an absolute path start with ["/"]. *)
Definition Path := list string.

(** [str(p)] / [p.as_posix()] *)
Definition path_str (p : Path) : string :=
  match p with
  | "/"%string :: rest => String "/" (String.concat "/" rest)
  | _ => String.concat "/" p
  end.

(** [p / name] *)
Definition path_join (p : Path) (name : string) : Path := p ++ [name].

(** [p.name] *)
Definition path_name (p : Path) : string := last p EmptyString.

(** [p.parent] *)
Definition path_parent (p : Path) : Path := removelast p.

(** Paths compare as the lists of their components do: on the first
    component that differs, and a proper prefix is smaller. *)
Fixpoint path_compare (p q : Path) : comparison :=
  match p, q with
  | [], [] => Eq
  | [], _ :: _ => Lt
  | _ :: _, [] => Gt
  | a :: p', b :: q' =>
      match String.compare a b with
      | Eq => path_compare p' q'
      | c => c
      end
  end.

Definition path_ltb (p q : Path) : bool :=
  match path_compare p q with Lt => true | _ => false end.

Definition path_eqb (p q : Path) : bool :=
  match path_compare p q with Eq => true | _ => false end.

(** [p.relative_to(base)]: [None] stands for the [ValueError] raised when
    [base] is not a prefix of [p]. *)
Fixpoint relative_to (p base : Path) : option Path :=
  match base, p with
  | [], _ => Some p
  | b :: base', a :: p' => if String.eqb a b then relative_to p' base' else None
  | _ :: _, [] => None
  end.

(** [name.rfind('.')]: the index of the last dot, if any. *)
Fixpoint rfind_dot (s : string) : option nat :=
  match s with
  | EmptyString => None
  | String a s' =>
      match rfind_dot s' with
      | Some i => Some (S i)
      | None => if Ascii.eqb a "." then Some O else None
      end
  end.

(** [p.suffix]: the last dot-separated part of the name, with its dot,
    unless the name starts or ends with that dot. *)
Definition path_suffix (p : Path) : string :=
  let name := path_name p in
  match rfind_dot name with
  | Some i =>
      if (0 <? i)%nat && (i <? String.length name - 1)%nat
      then substring i (String.length name - i) name
      else EmptyString
  | None => EmptyString
  end.

(* ================================================================== *)
(** * The outside world                                                *)
(* ================================================================== *)

Definition nl : string := String (ascii_of_nat 10) EmptyString.

(** Octal literals, most significant digit first. *)
Definition oct (digits : list Z) : Z := fold_left (fun a d => 8 * a + d) digits 0.

Definition S_IFMT : Z := Eval cbv in oct [1; 7; 0; 0; 0; 0].
Definition S_IFDIR : Z := Eval cbv in oct [0; 4; 0; 0; 0; 0].
Definition S_IFREG : Z := Eval cbv in oct [1; 0; 0; 0; 0; 0].
Definition mode_644 : Z := Eval cbv in oct [6; 4; 4].
Definition mode_755 : Z := Eval cbv in oct [7; 5; 5].
Definition mode_111 : Z := Eval cbv in oct [1; 1; 1].
Definition mode_600 : Z := Eval cbv in oct [6; 0; 0].

(** [stat.S_ISDIR] *)
Definition S_ISDIR (mode : Z) : bool := Z.land mode S_IFMT =? S_IFDIR.

(** What [os.stat] and [open] see of one file. *)
Record File := mkFile {
  st_mode : Z;
  st_mtime : Z;
  content : bytes
}.

Definition st_size (f : File) : N := N.of_nat (List.length (content f)).

(** An element of [self._module.includes] ([Include] or [PackageInclude]),
    as it is after [include.refresh()]. *)
Record Include := mkInclude {
  formats : list string;
  is_package_include : bool;     (* isinstance(include, PackageInclude) *)
  source : option string;        (* None for a plain Include *)
  base : Path;
  elements : list Path
}.

(** Truth value of an optional string ([None] and the empty string are false). *)
Definition truthy (o : option string) : bool :=
  match o with
  | Some s => negb (String.eqb s EmptyString)
  | None => false
  end.

Record ZipInfo := mkZipInfo {
  filename : string;
  date_time : Z * Z * Z * Z * Z * Z;
  external_attr : Z;
  compress_type : Z
}.

Definition ZIP_DEFLATED : Z := 8.

(** [zipfile.ZipInfo(name)] without a date: the constructor's default. *)
Definition default_date_time : Z * Z * Z * Z * Z * Z := (1980, 1, 1, 0, 0, 0).

(** An archive member: its header and its (uncompressed) bytes.  An
    archive is the list of its members in the order they were written. *)
Definition ZipEntry := (ZipInfo * bytes)%type.
Definition Archive := list ZipEntry.

(** The files of the destination side (temporary file, dist directory):
    path, mode and archive held. *)
Definition Disk := list (string * (Z * Archive)).

Record World := mkWorld {
  (* the project, as the Builder base class exposes it *)
  package_name : string;                    (* self._package.name *)
  pretty_name : string;                     (* self._package.pretty_name *)
  version : string;                         (* self._meta.version *)
  build_script : option string;             (* self._package.build_script *)
  python_allows_any : string -> bool;       (* python_constraint.allows_any(parse_constraint(c)) *)
  local_config : list string;               (* keys of self._poetry.local_config *)
  entry_points : list (string * list string); (* self.convert_entry_points(), a dict: group and entries *)
  metadata_content : string;                (* self.get_metadata_content() *)
  includes : list Include;                  (* self._module.includes *)
  is_excluded : string -> bool;             (* self.is_excluded *)
  _path : Path;                             (* project root *)
  _target_dir : Path;
  poetry_version : string;                  (* poetry.core.__version__ *)
  (* the host *)
  sys_tags : list (string * string * string); (* packaging.tags.sys_tags() *)
  now : Z;                                  (* wall clock, never read *)
  fs : nat -> string -> option File;        (* source files, at each instant *)
  glob : Path -> string -> list Path;       (* directory.glob(pattern), in file-system order *)
  build_exit : Z;                           (* exit status of "setup.py build" *)
  gettempdir : Path;                        (* tempfile.gettempdir() *)
  mkstemp_name : string;                    (* the file name tempfile.mkstemp picks *)
  cwd0 : string;                            (* os.getcwd() when the build starts *)
  dirs0 : list string;                      (* directories present on the destination side *)
  disk0 : Disk                              (* files present on the destination side *)
}.

(* ================================================================== *)
(** * Builder state and the monad of its methods                       *)
(* ================================================================== *)

Inductive Error :=
| FileNotFoundError (p : string)
| IsADirectoryError (p : string)
| ValueError (p b : Path)            (* Path.relative_to *)
| CalledProcessError (code : Z)      (* subprocess.check_call *)
| StopIteration                      (* next() on an exhausted iterator *)
| HashLoopDiverged.                  (* the model's read loop ran out of steps *)

Definition RecordRow := (string * string * N)%type.

Record State := mkState {
  clock : nat;                (* file-system reads done so far *)
  cwd : string;
  wheel : Archive;            (* the open ZipFile *)
  _records : list RecordRow;    (* self._records *)
  dirs : list string;
  disk : Disk
}.

Inductive Result (A : Type) :=
| Ok (a : A) (s : State)
| Raise (e : Error) (s : State).

Arguments Ok {A} a s.
Arguments Raise {A} e s.

Definition M (A : Type) := State -> Result A.

Definition ret {A} (a : A) : M A := fun s => Ok a s.

Definition bind {A B} (m : M A) (k : A -> M B) : M B :=
  fun s => match m s with
           | Ok a s' => k a s'
           | Raise e s' => Raise e s'
           end.

Definition raise {A} (e : Error) : M A := fun s => Raise e s.

Declare Scope builder_scope.
Delimit Scope builder_scope with builder.
Notation "x <- m ;; k" := (bind m (fun x => k))
  (at level 100, m at next level, right associativity) : builder_scope.
Notation "m ;;; k" := (bind m (fun _ => k))
  (at level 100, right associativity) : builder_scope.
Local Open Scope builder_scope.

Definition get_state : M State := fun s => Ok s s.
Definition modify (f : State -> State) : M unit := fun s => Ok tt (f s).

(** [try: m finally: fin] *)
Definition try_finally {A} (m : M A) (fin : M unit) : M A :=
  fun s => match m s with
           | Ok a s' => match fin s' with
                        | Ok _ s'' => Ok a s''
                        | Raise e s'' => Raise e s''
                        end
           | Raise e s' => match fin s' with
                           | Ok _ s'' => Raise e s''
                           | Raise e' s'' => Raise e' s''
                           end
           end.

(** [for x in l: body(x)] *)
Fixpoint for_each {A} (l : list A) (body : A -> M unit) : M unit :=
  match l with
  | [] => ret tt
  | x :: l' => body x ;;; for_each l' body
  end.

(** A [for] loop that threads a local variable. *)
Fixpoint for_fold {A B} (l : list A) (body : B -> A -> M B) (b : B) : M B :=
  match l with
  | [] => ret b
  | x :: l' => b' <- body b x ;; for_fold l' body b'
  end.

Definition of_sum {A} (r : Error + A) : M A :=
  match r with
  | inl e => raise e
  | inr a => ret a
  end.

Definition tick (s : State) : State :=
  mkState (S (clock s)) (cwd s) (wheel s) (_records s) (dirs s) (disk s).

Definition set_cwd (d : string) (s : State) : State :=
  mkState (clock s) d (wheel s) (_records s) (dirs s) (disk s).

Definition set_wheel (a : Archive) (s : State) : State :=
  mkState (clock s) (cwd s) a (_records s) (dirs s) (disk s).

Definition set_records (r : list RecordRow) (s : State) : State :=
  mkState (clock s) (cwd s) (wheel s) r (dirs s) (disk s).

Definition set_dirs (d : list string) (s : State) : State :=
  mkState (clock s) (cwd s) (wheel s) (_records s) d (disk s).

Definition set_disk (d : Disk) (s : State) : State :=
  mkState (clock s) (cwd s) (wheel s) (_records s) (dirs s) d.

(** Destination-side files. *)
Fixpoint disk_get (p : string) (d : Disk) : option (Z * Archive) :=
  match d with
  | [] => None
  | (q, v) :: d' => if String.eqb p q then Some v else disk_get p d'
  end.

Fixpoint disk_del (p : string) (d : Disk) : Disk :=
  match d with
  | [] => []
  | (q, v) :: d' => if String.eqb p q then disk_del p d' else (q, v) :: disk_del p d'
  end.

Definition disk_put (p : string) (v : Z * Archive) (d : Disk) : Disk :=
  (p, v) :: disk_del p d.

(* ================================================================== *)
(** * Helpers of the repository that wheel.py imports                  *)
(* ================================================================== *)

(** Modelled from the spec: [normalize_file_permissions]
    ([poetry/core/masonry/utils/helpers.py]) is imported by wheel.py but its
    body is not among the sources.  The spec's data model says the mode is
    "normalized to exactly one of two values, executable (owner/group/other
    read+execute, owner write) or non-executable (owner/group/other read,
    owner write), derived from whether any execute bit was set on the
    source file", and wheel.py's own comment says "either 755 (executable)
    or 644". *)
Definition normalize_file_permissions (st_mode : Z) : Z :=
  if Z.land st_mode mode_111 =? 0 then mode_644 else mode_755.

Definition is_alnum_or_dot (c : ascii) : bool :=
  let n := nat_of_ascii c in
  ((48 <=? n) && (n <=? 57) || (65 <=? n) && (n <=? 90) ||
   (97 <=? n) && (n <=? 122) || (n =? 46))%nat.

(** Modelled from the spec: [escape_name] and [escape_version] (same
    helpers module) are not among the sources.  The spec's escaping rule:
    "any run of characters outside [A-Za-z0-9.] collapses to a single _". *)
Fixpoint escape_runs (in_run : bool) (s : string) : string :=
  match s with
  | EmptyString => EmptyString
  | String c s' =>
      if is_alnum_or_dot c then String c (escape_runs false s')
      else if in_run then escape_runs true s'
      else String "_" (escape_runs true s')
  end.

Definition escape_name (s : string) : string := escape_runs false s.
Definition escape_version (s : string) : string := escape_runs false s.

(* ================================================================== *)
(** * WheelBuilder                                                     *)
(* ================================================================== *)

(** [hashsum = hashlib.sha256()] is carried as the bytes fed so far;
    [update] appends and [digest] hashes them. *)
Definition chunk_size : nat := 1024 * 8.

(** The read loop of [_add_file]:
    [while True: buf = src.read(1024 * 8); if not buf: break; hashsum.update(buf)]
    over the bytes [src] still ahead of the file position. *)
Fixpoint hash_loop (steps : nat) (src hashsum : bytes) : option bytes :=
  match steps with
  | O => None
  | S steps' =>
      match firstn chunk_size src with
      | [] => Some hashsum
      | buf => hash_loop steps' (skipn chunk_size src) (hashsum ++ buf)
      end
  end.

Definition hash_digest_of (fed : bytes) : string :=
  rstrip "=" (urlsafe_b64encode (SHA256.sha256 fed)).

Section Builder.

Variable w : World.

(** ** File-system reads: each one happens at the current instant and
       advances the clock. *)

Definition os_stat (p : string) : M File :=
  fun s => match fs w (clock s) p with
           | Some f => Ok f (tick s)
           | None => Raise (FileNotFoundError p) (tick s)
           end.

(** [Path.is_dir()]: false for a missing path. *)
Definition is_dir (p : Path) : M bool :=
  fun s => match fs w (clock s) (path_str p) with
           | Some f => Ok (S_ISDIR (st_mode f)) (tick s)
           | None => Ok false (tick s)
           end.

(** [open(p, "rb")] followed by one pass over the file: the bytes the
    pass sees. *)
Definition open_rb (p : string) : M bytes :=
  fun s => match fs w (clock s) p with
           | Some f => if S_ISDIR (st_mode f)
                       then Raise (IsADirectoryError p) (tick s)
                       else Ok (content f) (tick s)
           | None => Raise (FileNotFoundError p) (tick s)
           end.

(** [src.seek(0); src.read()] on the handle opened by [open_rb]: a
    second pass over the open file, at a later instant.  [fs] tells what
    the name holds at each instant: while the name is there, the handle
    reads what the name holds then (a file is rewritten in place); when
    the name is gone (unlinked or renamed away) the handle still reads
    the file, with the bytes [opened] it had when it was opened. *)
Definition read_again (p : string) (opened : bytes) : M bytes :=
  fun s => match fs w (clock s) p with
           | Some f => Ok (content f) (tick s)
           | None => Ok opened (tick s)
           end.

(** ** Properties *)

(** [dist_info_name] *)
Definition dist_info_name (distribution version : string) : string :=
  (escape_name distribution ++ "-" ++ escape_version version ++ ".dist-info")%string.

Definition dist_info : string := dist_info_name (package_name w) (version w).

Definition supports_python2 : bool := python_allows_any w ">=2.0.0 <3.0.0".

Definition tag : Error + string :=
  if truthy (build_script w) then
    match sys_tags w with
    | [] => inl StopIteration
    | (interpreter, abi, platform) :: _ =>
        inr (String.concat "-" [interpreter; abi; platform])
    end
  else
    let platform := "any"%string in
    let impl := if supports_python2 then "py2.py3"%string else "py3"%string in
    inr (String.concat "-" [impl; "none"%string; platform]).

Definition wheel_filename : Error + string :=
  match tag with
  | inl e => inl e
  | inr t =>
      inr (escape_name (pretty_name w) ++ "-" ++ escape_version (version w)
           ++ "-" ++ t ++ ".whl")%string
  end.

(** ** Writing members *)

(** [wheel.writestr(zinfo, data, compress_type=...)] *)
Definition writestr (zinfo : ZipInfo) (data : bytes) (compress : Z) : M unit :=
  modify (fun s =>
    set_wheel (wheel s ++
               [(mkZipInfo (filename zinfo) (date_time zinfo)
                           (external_attr zinfo) compress, data)]) s).

(** [wheel.namelist()] *)
Definition namelist : M (list string) :=
  fun s => Ok (map (fun e => filename (fst e)) (wheel s)) s.

Definition records_append (r : RecordRow) : M unit :=
  modify (fun s => set_records (_records s ++ [r]) s).

(** [_add_file(wheel, full_path, rel_path)], on a host whose [os.sep]
    is ["/"]; both paths are already strings. *)
Definition _add_file (full_path rel_path : string) : M unit :=
  st <- os_stat full_path ;;
  let new_mode := normalize_file_permissions (st_mode st) in
  let attr := Z.shiftl (Z.land new_mode 0xFFFF) 16 in
  let attr := if S_ISDIR (st_mode st) then Z.lor attr 0x10 else attr in
  let zinfo := mkZipInfo rel_path default_date_time attr 0 in
  src <- open_rb full_path ;;
  match hash_loop (S (List.length src)) src [] with
  | None => raise HashLoopDiverged
  | Some hashsum =>
      data <- read_again full_path src ;;
      writestr zinfo data ZIP_DEFLATED ;;;
      st' <- os_stat full_path ;;
      let size := st_size st' in
      let hash_digest := hash_digest_of hashsum in
      records_append (rel_path, hash_digest, size)
  end.

(** [with self._write_to_zip(wheel, rel_path) as f: body(f)]; [body]
    returns the text it wrote to [f].  When [body] raises nothing is
    written. *)
Definition _write_to_zip (rel_path : string) (body : M string) : M unit :=
  sio <- body ;;
  let date_time := (2016, 1, 1, 0, 0, 0) in
  let zi := mkZipInfo rel_path date_time
                      (Z.shiftl (Z.land mode_644 0xFFFF) 16) 0 in
  let b := encode_utf8 sio in
  let hash_digest := hash_digest_of b in
  writestr zi b ZIP_DEFLATED ;;;
  records_append (rel_path, hash_digest, N.of_nat (List.length b)).

(** ** _copy_module *)

Definition pair_eqb (x y : Path * Path) : bool :=
  path_eqb (fst x) (fst y) && path_eqb (snd x) (snd y).

Definition relative_to_M (p b : Path) : M Path :=
  match relative_to p b with
  | Some r => ret r
  | None => raise (ValueError p b)
  end.

(** The body of the inner loop: one [file] of [include.elements]. *)
Definition collect_file (include : Include) (to_add : list (Path * Path))
           (file : Path) : M (list (Path * Path)) :=
  if contains "__pycache__" (path_str file) then ret to_add else
  d <- is_dir file ;;
  if d then ret to_add else
  rel_file <- (if is_package_include include && truthy (source include)
               then relative_to_M file (base include)
               else relative_to_M file (_path w)) ;;
  if is_excluded w (path_str rel_file) && is_package_include include
  then ret to_add else
  if String.eqb (path_suffix file) ".pyc" then ret to_add else
  if existsb (pair_eqb (file, rel_file)) to_add then ret to_add else
  ret (to_add ++ [(file, rel_file)]).

(** The body of the outer loop: one include rule. *)
Definition collect_include (to_add : list (Path * Path)) (include : Include)
  : M (list (Path * Path)) :=
  if negb (match formats include with [] => true | _ => false end)
     && negb (mem_string "wheel" (formats include))
  then ret to_add
  else for_fold (elements include) (collect_file include) to_add.

Definition _copy_module : M unit :=
  to_add <- for_fold (includes w) collect_include [] ;;
  for_each (sorted snd path_ltb to_add)
           (fun x => _add_file (path_str (fst x)) (path_str (snd x))).

(** ** _build *)

Definition _run_build_command (setup : Path) : M unit :=
  if build_exit w =? 0 then ret tt else raise (CalledProcessError (build_exit w)).

Definition chdir (d : string) : M unit := modify (set_cwd d).

(** The body of the loop over [lib.glob("**/*")]. *)
Definition build_file (lib pkg : Path) : M unit :=
  d <- is_dir pkg ;;
  if d || is_excluded w (path_str pkg) then ret tt else
  rel <- relative_to_M pkg lib ;;
  let rel_path := path_str rel in
  names <- namelist ;;
  if mem_string rel_path names then ret tt else
  _add_file (path_str pkg) rel_path.

(** [SdistBuilder(...).setup_py()] yields the path of a setup.py written
    into the project directory; the file itself is not followed here. *)
Definition _build : M unit :=
  if truthy (build_script w) then
    let setup := path_join (_path w) "setup.py" in
    s <- get_state ;;
    let current_path := cwd s in
    try_finally
      (chdir (path_str (_path w)) ;;; _run_build_command setup)
      (chdir current_path) ;;;
    let build_dir := path_join (_path w) "build" in
    match glob w build_dir "lib.*" with
    | [] => ret tt
    | lib :: _ => for_each (glob w lib "**/*") (build_file lib)
    end
  else ret tt.

(** ** _write_metadata *)

(** [entry_points[group_name]] *)
Fixpoint dict_get (k : string) (d : list (string * list string)) : list string :=
  match d with
  | [] => []
  | (k', v) :: d' => if String.eqb k k' then v else dict_get k d'
  end.

Definition render_entry (ep : string) : string :=
  (remove_char " " ep ++ nl)%string.

Definition render_group (eps : list (string * list string)) (group_name : string)
  : string :=
  ("[" ++ group_name ++ "]" ++ nl
   ++ String.concat EmptyString (map render_entry (sorted (fun x => x) str_ltb (dict_get group_name eps)))
   ++ nl)%string.

Definition _write_entry_points : M string :=
  let eps := entry_points w in
  ret (String.concat EmptyString
         (map (render_group eps) (sorted (fun x => x) str_ltb (map fst eps)))).

Definition _write_wheel_file : M string :=
  t <- of_sum tag ;;
  ret ("Wheel-Version: 1.0" ++ nl
       ++ "Generator: poetry " ++ poetry_version w ++ nl
       ++ "Root-Is-Purelib: "
       ++ (match build_script w with None => "true" | Some _ => "false" end) ++ nl
       ++ "Tag: " ++ t ++ nl)%string.

Definition _write_metadata_file : M string := ret (metadata_content w).

Definition declares_entry_points : bool :=
  mem_string "scripts" (local_config w) || mem_string "plugins" (local_config w).

Definition _write_metadata : M unit :=
  (if declares_entry_points
   then _write_to_zip (dist_info ++ "/entry_points.txt") _write_entry_points
   else ret tt) ;;;
  for_each ["COPYING"; "LICENSE"]%string (fun base =>
    for_each (sorted (fun x => x) path_ltb (glob w (_path w) (base ++ "*")))
      (fun path => _add_file (path_str path) (dist_info ++ "/" ++ path_name path))) ;;;
  _write_to_zip (dist_info ++ "/WHEEL") _write_wheel_file ;;;
  _write_to_zip (dist_info ++ "/METADATA") _write_metadata_file.

(** ** _write_record *)

Definition record_line (r : RecordRow) : string :=
  let '(path, hash, size) := r in
  (path ++ ",sha256=" ++ hash ++ "," ++ str_of_N size ++ nl)%string.

Definition record_body : M string :=
  s <- get_state ;;
  ret (String.concat EmptyString (map record_line (_records s))
       ++ dist_info ++ "/RECORD,," ++ nl)%string.

Definition _write_record : M unit :=
  _write_to_zip (dist_info ++ "/RECORD") record_body.

(** ** build *)

(** [with zipfile.ZipFile(os.fdopen(fd, "w+b"), mode="w", ...) as zip_file: body]:
    the archive starts empty and is closed, hence written out to the
    file behind [fd], on the way out, whether [body] raised or not. *)
Definition with_zipfile (temp_path : string) (mode : Z) (body : M unit) : M unit :=
  fun s =>
    let close s' := set_disk (disk_put temp_path (mode, wheel s') (disk s')) s' in
    match body (set_wheel [] s) with
    | Ok a s' => Ok a (close s')
    | Raise e s' => Raise e (close s')
    end.

(** [build].  [dirs] holds the target directory when it exists.  The
    parent of the target directory is taken to exist, so that
    [dist_dir.mkdir()], which is not recursive, makes the directory: a
    target directory whose parent is missing is outside the worlds
    described here. *)
Definition build : M unit :=
  let dist_dir := _target_dir w in
  s <- get_state ;;
  (* if not dist_dir.exists(): dist_dir.mkdir() *)
  (if negb (mem_string (path_str dist_dir) (dirs s))
   then modify (fun s => set_dirs (path_str dist_dir :: dirs s) s)
   else ret tt) ;;;
  (* tempfile.mkstemp(suffix=".whl"): an empty file with mode 0600, in
     the default temporary directory since no dir is given *)
  let temp_path := path_str (path_join (gettempdir w) (mkstemp_name w)) in
  modify (fun s => set_disk (disk_put temp_path (Z.lor S_IFREG mode_600, []) (disk s)) s) ;;;
  let st_mode := Z.lor S_IFREG mode_600 in
  let new_mode := normalize_file_permissions st_mode in
  modify (fun s => set_disk (disk_put temp_path (new_mode, []) (disk s)) s) ;;;
  with_zipfile temp_path new_mode
    (_copy_module ;;; _build ;;; _write_metadata ;;; _write_record) ;;;
  name <- of_sum wheel_filename ;;
  let wheel_path := path_str (path_join dist_dir name) in
  modify (fun s =>
    let d := disk s in
    (* if wheel_path.exists(): wheel_path.unlink() *)
    let d := match disk_get wheel_path d with
             | Some _ => disk_del wheel_path d
             | None => d
             end in
    (* shutil.move(temp_path, wheel_path) *)
    match disk_get temp_path d with
    | Some v => set_disk (disk_put wheel_path v (disk_del temp_path d)) s
    | None => s
    end).

(** [WheelBuilder(poetry, target_dir=directory, original=original)]: the
    builder starts with no records. *)
Definition new_builder : State :=
  mkState 0 (cwd0 w) [] [] (dirs0 w) (disk0 w).

(** [make_in]: [wb.build()] on a new builder, then [wb.wheel_filename]. *)
Definition make_in : Result string :=
  (build ;;; of_sum wheel_filename) new_builder.

(** [make]: [make_in] into the default directory, the name dropped. *)
Definition make : Result unit :=
  match make_in with
  | Ok _ s => Ok tt s
  | Raise e s => Raise e s
  end.

End Builder.

(* ================================================================== *)
(** * Specification vocabulary                                         *)
(* ================================================================== *)

Unset Implicit Arguments.

(** [p <= q] on paths: [q] is not smaller than [p]. *)
Definition path_le (p q : Path) : Prop := path_ltb q p = false.

Definition str_le (a b : string) : Prop := str_ltb b a = false.

(** [hoare P m Q E]: from a state satisfying [P], [m] either returns [a]
    in a state satisfying [Q a], or raises [e] in a state satisfying
    [E e].  [M] is a total function, so [m] always does one of the two. *)
Definition hoare {A} (P : State -> Prop) (m : M A)
           (Q : A -> State -> Prop) (E : Error -> State -> Prop) : Prop :=
  forall s, P s ->
    match m s with
    | Ok a s' => Q a s'
    | Raise e s' => E e s'
    end.

(** The three steps of [build] that come before the manifest is written. *)
Definition fill_archive (w : World) : M unit :=
  (_copy_module w ;;; _build w ;;; _write_metadata w)%builder.

(** The archive member [_add_file] writes for [rel_path], given the mode
    the first [os.stat] returned and the bytes read for the member. *)
Definition copied_entry (rel_path : string) (st_mode : Z) (data : bytes) : ZipEntry :=
  let attr := Z.shiftl (Z.land (normalize_file_permissions st_mode) 0xFFFF) 16 in
  (mkZipInfo rel_path default_date_time
             (if S_ISDIR st_mode then Z.lor attr 0x10 else attr)
             ZIP_DEFLATED,
   data).

(** The archive member [_write_to_zip] writes for [rel_path] and the
    encoded text [b]. *)
Definition generated_entry (rel_path : string) (b : bytes) : ZipEntry :=
  (mkZipInfo rel_path (2016, 1, 1, 0, 0, 0)
             (Z.shiftl (Z.land mode_644 0xFFFF) 16) ZIP_DEFLATED,
   b).

(** [build()] on a new builder, as [make_in] and [make] run it. *)
Definition run_build (w : World) : Result unit := build w (new_builder w).

(** The four steps [build] runs inside the [with zipfile.ZipFile] block. *)
Definition assemble (w : World) : M unit :=
  (_copy_module w ;;; _build w ;;; _write_metadata w ;;; _write_record w)%builder.

Definition state_of {A} (r : Result A) : State :=
  match r with
  | Ok _ s => s
  | Raise _ s => s
  end.

Definition is_ok {A} (r : Result A) : bool :=
  match r with
  | Ok _ _ => true
  | Raise _ _ => false
  end.

(** The temporary file of [build], and the states [build] goes through:
    after the destination directory and the temporary file exist, after
    the archive is closed, after the move to the final name. *)
Definition temp_path (w : World) : string :=
  path_str (path_join (gettempdir w) (mkstemp_name w)).

Definition temp_mode : Z := normalize_file_permissions (Z.lor S_IFREG mode_600).

Definition final_path (w : World) (name : string) : string :=
  path_str (path_join (_target_dir w) name).

Definition prepared (w : World) (s : State) : State :=
  let dist := path_str (_target_dir w) in
  mkState (clock s) (cwd s) [] (_records s)
          (if negb (mem_string dist (dirs s)) then dist :: dirs s else dirs s)
          (disk_put (temp_path w) (temp_mode, [])
             (disk_put (temp_path w) (Z.lor S_IFREG mode_600, []) (disk s))).

Definition closed (w : World) (s : State) : State :=
  set_disk (disk_put (temp_path w) (temp_mode, wheel s) (disk s)) s.

Definition moved (w : World) (name : string) (s : State) : State :=
  let d := disk s in
  let d := match disk_get (final_path w name) d with
           | Some _ => disk_del (final_path w name) d
           | None => d
           end in
  match disk_get (temp_path w) d with
  | Some v => set_disk (disk_put (final_path w name) v (disk_del (temp_path w) d)) s
  | None => s
  end.

(** The Unix mode stored in a member (the high 16 bits of its external
    attributes) and the MS-DOS attribute bits (the low 16). *)
Definition perm_bits (e : ZipEntry) : Z := Z.shiftr (external_attr (fst e)) 16.
Definition dos_bits (e : ZipEntry) : Z := Z.land (external_attr (fst e)) 0xFFFF.

(** Some execute bit (owner, group or other) is set. *)
Definition any_exec (st_mode : Z) : bool := negb (Z.land st_mode mode_111 =? 0).

(** A member written by [_write_to_zip] carries its fixed date. *)
Definition generated_date : Z * Z * Z * Z * Z * Z := (2016, 1, 1, 0, 0, 0).

Definition canonical_mode (e : ZipEntry) : Prop :=
  (perm_bits e = mode_644 \/ perm_bits e = mode_755) /\
  (dos_bits e = 0 \/ dos_bits e = 0x10) /\
  (date_time (fst e) = generated_date -> perm_bits e = mode_644 /\ dos_bits e = 0).

(** The three fields of a row of the record list. *)
Definition row_path (r : RecordRow) : string := fst (fst r).
Definition row_hash (r : RecordRow) : string := snd (fst r).
Definition row_size (r : RecordRow) : N := snd r.

(** [h] is the URL-safe base64 form of the SHA-256 digest of [fed] with
    its padding stripped: the full encoding is [h] and one ['=']. *)
Definition stripped_digest (h : string) (fed : bytes) : Prop :=
  h = rstrip "=" (urlsafe_b64encode (SHA256.sha256 fed)) /\
  urlsafe_b64encode (SHA256.sha256 fed) = (h ++ "=")%string /\
  String.length h = 43%nat.

(** Row [r] gives the hash and the length of the bytes [data]. *)
Definition records_bytes (r : RecordRow) (data : bytes) : Prop :=
  stripped_digest (row_hash r) data /\
  row_size r = N.of_nat (List.length data).

(** The source file [p] is the same at every instant. *)
Definition unchanged (w : World) (p : string) : Prop :=
  forall t, fs w t p = fs w 0 p.

(** No source file changes while the build runs. *)
Definition static (w : World) : Prop := forall p, unchanged w p.

Definition names (a : Archive) : list string := map (fun e => filename (fst e)) a.

(** Row [r] is the row of member [e]: same path and, when the sources do
    not change during the build, the hash and the size of the member's
    bytes. *)
Definition linked (w : World) (e : ZipEntry) (r : RecordRow) : Prop :=
  row_path r = filename (fst e) /\
  (static w ->
   row_hash r = hash_digest_of (snd e) /\
   row_size r = N.of_nat (List.length (snd e))).

Definition record_path (w : World) : string := (dist_info w ++ "/RECORD")%string.

(** The text of RECORD for the rows [rows]: one line each, then the line
    of RECORD itself with empty hash and size. *)
Definition manifest_text (w : World) (rows : list RecordRow) : string :=
  (String.concat EmptyString (map record_line rows) ++ dist_info w ++ "/RECORD,," ++ nl)%string.

(** The number of rows whose path is [p]. *)
Definition rows_at (p : string) (rows : list RecordRow) : nat :=
  List.length (filter (fun r => String.eqb (row_path r) p) rows).

(** The number of members whose name is [p]. *)
Definition members_at (p : string) (a : Archive) : nat :=
  List.length (filter (fun e => String.eqb (filename (fst e)) p) a).

(** The reading of "ascending lexicographic order of the archive path" on
    the path as a string. *)
Definition ascending_strings (l : list string) : Prop := StronglySorted str_le l.

(** The number of rows that carry the path of member [e], the hash of its
    bytes and their length. *)
Definition rows_of_member (e : ZipEntry) (rows : list RecordRow) : nat :=
  List.length
    (filter (fun r => String.eqb (row_path r) (filename (fst e))
                      && String.eqb (row_hash r) (hash_digest_of (snd e))
                      && N.eqb (row_size r) (N.of_nat (List.length (snd e))))
            rows).

(** C1 as first stated, of the state [s] a build of [w] ends in: every
    member but RECORD has exactly one row, in the rows RECORD was written
    from, with its path, the hash of its bytes and their length. *)
Definition one_row_per_member (w : World) (s : State) : Prop :=
  forall e,
    In e (wheel s) -> filename (fst e) <> record_path w ->
    rows_of_member e (removelast (_records s)) = 1%nat.

(** The relative path [_copy_module] computes for [file] of [include]:
    relative to the rule's own base when it is a package rule with a
    source directory, to the project root otherwise. *)
Definition rel_file_of (w : World) (include : Include) (file : Path) : option Path :=
  if is_package_include include && truthy (source include)
  then relative_to file (base include)
  else relative_to file (_path w).

(** [file] of [include] gets through every filter of the collecting loop
    at state [s], with relative path [rel]: no cache directory in its
    path, not a directory, not excluded, not compiled bytecode. *)
Definition collectable (w : World) (include : Include) (file rel : Path) (s : State)
  : Prop :=
  contains "__pycache__" (path_str file) = false /\
  match fs w (clock s) (path_str file) with
  | Some f => S_ISDIR (st_mode f)
  | None => false
  end = false /\
  rel_file_of w include file = Some rel /\
  is_excluded w (path_str rel) && is_package_include include = false /\
  String.eqb (path_suffix file) ".pyc" = false.

(** [c in s] for a character. *)
Fixpoint has_char (c : ascii) (s : string) : bool :=
  match s with
  | EmptyString => false
  | String a s' => Ascii.eqb a c || has_char c s'
  end.

Definition entry_points_path (w : World) : string :=
  (dist_info w ++ "/entry_points.txt")%string.

(** Among the members [added], one was generated under the name of the
    entry-points file. *)
Definition entry_points_written (w : World) (added : Archive) : Prop :=
  exists e,
    In e added /\
    filename (fst e) = entry_points_path w /\
    date_time (fst e) = generated_date.

(** One section of entry_points.txt: the group in brackets, its entries
    without their spaces, one per line, and an empty line. *)
Definition section (group_name : string) (entries : list string) : string :=
  ("[" ++ group_name ++ "]" ++ nl
   ++ String.concat EmptyString (map (fun ep => remove_char " " ep ++ nl) entries)
   ++ nl)%string.

(** C7's rendering as first stated: of the entry [name = target] only
    the spaces around ['='] go. *)
Definition renders_around_eq (name target : string) : Prop :=
  render_entry (name ++ " = " ++ target) = (name ++ "=" ++ target ++ nl)%string.

(** C8 as first stated, for the temporary file: when the build fails the
    temporary file is gone. *)
Definition temp_removed_on_failure (w : World) : Prop :=
  forall e s, run_build w = Raise e s -> disk_get (temp_path w) (disk s) = None.

(** What the builder can tell apart in two files: their modes and their
    bytes, not their modification times. *)
Definition same_file (a b : option File) : Prop :=
  match a, b with
  | Some f, Some g => st_mode f = st_mode g /\ content f = content g
  | None, None => True
  | _, _ => False
  end.

(** The world [w] at another time of day, with the source tree [fs2]. *)
Definition at_another_time (now2 : Z) (fs2 : nat -> string -> option File)
           (w : World) : World :=
  mkWorld (package_name w) (pretty_name w) (version w) (build_script w)
          (python_allows_any w) (local_config w) (entry_points w)
          (metadata_content w) (includes w) (is_excluded w) (_path w)
          (_target_dir w) (poetry_version w) (sys_tags w) now2 fs2
          (glob w) (build_exit w) (gettempdir w) (mkstemp_name w) (cwd0 w)
          (dirs0 w) (disk0 w).

(** The world [w] seen from another run of the builder: another
    temporary file, working directory and content of the destination
    side. *)
Definition on_another_run (tmpdir : Path) (tmpname : string) (cwd1 : string)
           (dirs1 : list string) (disk1 : Disk) (w : World) : World :=
  mkWorld (package_name w) (pretty_name w) (version w) (build_script w)
          (python_allows_any w) (local_config w) (entry_points w)
          (metadata_content w) (includes w) (is_excluded w) (_path w)
          (_target_dir w) (poetry_version w) (sys_tags w) (now w) (fs w)
          (glob w) (build_exit w) tmpdir tmpname cwd1 dirs1 disk1.

(** Two states with the same clock, archive and rows. *)
Definition same_core (s s' : State) : Prop :=
  clock s = clock s' /\ wheel s = wheel s' /\ _records s = _records s'.

(** Two results of the same kind, with related values and states with the
    same core. *)
Definition same_outcome {A} (R : A -> A -> Prop) (r r' : Result A) : Prop :=
  match r, r' with
  | Ok a s, Ok a' s' => R a a' /\ same_core s s'
  | Raise e s, Raise e' s' => e = e' /\ same_core s s'
  | _, _ => False
  end.

(** [m] and [m'] do the same from states with the same core. *)
Definition respects {A} (R : A -> A -> Prop) (m m' : M A) : Prop :=
  forall s s', same_core s s' -> same_outcome R (m s) (m' s').

(* ================================================================== *)
(** * Further vocabulary                                               *)
(* ================================================================== *)

(** The rule is not scoped to other formats than the wheel. *)
Definition wheel_rule (include : Include) : bool :=
  match formats include with
  | [] => true
  | _ => mem_string "wheel" (formats include)
  end.

(** The directory the relative path of a file of [include] is taken from. *)
Definition rule_root (w : World) (include : Include) : Path :=
  if is_package_include include && truthy (source include)
  then base include
  else _path w.

(** The text [_write_wheel_file] writes for the tag [t]. *)
Definition wheel_text (w : World) (t : string) : string :=
  ("Wheel-Version: 1.0" ++ nl
   ++ "Generator: poetry " ++ poetry_version w ++ nl
   ++ "Root-Is-Purelib: "
   ++ (match build_script w with None => "true" | Some _ => "false" end) ++ nl
   ++ "Tag: " ++ t ++ nl)%string.

(** The text of entry_points.txt. *)
Definition entry_points_text (w : World) : string :=
  String.concat EmptyString
    (map (render_group (entry_points w))
         (sorted (fun x => x) str_ltb (map fst (entry_points w)))).

(** The license files [_write_metadata] copies, in the order it does. *)
Definition license_files (w : World) : list Path :=
  sorted (fun x => x) path_ltb (glob w (_path w) "COPYING*")
  ++ sorted (fun x => x) path_ltb (glob w (_path w) "LICENSE*").

(** A member copied from a file carries the default date of [ZipInfo]. *)
Definition is_copied (e : ZipEntry) : Prop := date_time (fst e) = default_date_time.

(** The rows name the members in order, but for at most one last member
    that has no row yet. *)
Definition rows_behind (s : State) : Prop :=
  exists extra,
    names (wheel s) = map row_path (_records s) ++ extra /\
    (List.length extra <= 1)%nat.

(** [file] of [include] gets through the filters of the collecting loop
    of a project whose files do not change, with relative path [rel]. *)
Definition passes_filters (w : World) (include : Include) (file rel : Path) : Prop :=
  wheel_rule include = true /\
  contains "__pycache__" (path_str file) = false /\
  match fs w 0 (path_str file) with
  | Some f => S_ISDIR (st_mode f)
  | None => false
  end = false /\
  relative_to file (rule_root w include) = Some rel /\
  is_excluded w (path_str rel) && is_package_include include = false /\
  path_suffix file <> ".pyc"%string.

(** [e] is what [_add_file] writes for the file named [p] under the
    archive path [rel] when it starts at instant [t]: the mode is the one
    the first [os.stat] returns, at [t]; the file is opened at [t + 1],
    where it is not a directory; the bytes are those of the second pass
    over the open file, at [t + 2], which are the bytes the name holds
    then, or those of the file as opened when the name is gone. *)
Definition copy_at (w : World) (t : nat) (p rel : string) (e : ZipEntry) : Prop :=
  exists st opened,
    fs w t p = Some st /\ fs w (S t) p = Some opened /\
    S_ISDIR (st_mode opened) = false /\
    e = copied_entry rel (st_mode st)
          (match fs w (S (S t)) p with
           | Some f => content f
           | None => content opened
           end).

(** What [_build] may add on top of the archive [before]: the copy of a
    file that the first [lib.*] directory of the build lists, under its
    path relative to that directory, when the file is not excluded and no
    member of [before] has that name. *)
Definition native_member (w : World) (before : Archive) (e : ZipEntry) : Prop :=
  exists lib rest pkg rel t,
    glob w (path_join (_path w) "build") "lib.*" = lib :: rest /\
    In pkg (glob w lib "**/*") /\
    relative_to pkg lib = Some rel /\
    is_excluded w (path_str pkg) = false /\
    ~ In (path_str rel) (names before) /\
    copy_at w t (path_str pkg) (path_str rel) e.

(** The same when the files do not change: the member has the mode and
    the bytes of the file. *)
Definition native_copy (w : World) (before : Archive) (e : ZipEntry) : Prop :=
  exists lib rest pkg rel f,
    glob w (path_join (_path w) "build") "lib.*" = lib :: rest /\
    In pkg (glob w lib "**/*") /\
    relative_to pkg lib = Some rel /\
    is_excluded w (path_str pkg) = false /\
    ~ In (path_str rel) (names before) /\
    fs w 0 (path_str pkg) = Some f /\ S_ISDIR (st_mode f) = false /\
    e = copied_entry (path_str rel) (st_mode f) (content f).

(** The archive of [s1] is the archive of [s] followed by such members. *)
Definition native_so_far (w : World) (s s1 : State) : Prop :=
  exists ms, wheel s1 = wheel s ++ ms /\ Forall (native_member w (wheel s)) ms.






(* ================================================================== *)
(** * Sample projects                                                  *)
(* ================================================================== *)

Module Samples.
Local Open Scope string_scope.

Definition proj : Path := ["/"; "proj"].

Definition under (rest : list string) : Path := (proj ++ rest)%list.

Definition regular (perm : Z) (mtime : Z) (text : string) : File :=
  mkFile (Z.lor S_IFREG perm) mtime (encode_utf8 text).

Definition directory : File := mkFile (Z.lor S_IFDIR mode_755) 0 [].

(** A file tree that does not change: [files] lists path and file. *)
Fixpoint lookup (files : list (string * File)) (p : string) : option File :=
  match files with
  | [] => None
  | (q, f) :: rest => if String.eqb p q then Some f else lookup rest p
  end.

Definition demo_files : list (string * File) :=
  [ ("/proj/pkg", directory);
    ("/proj/pkg/__init__.py", regular mode_644 1000 EmptyString);
    ("/proj/pkg/main.py", regular (oct [7; 7; 5]) 2000 "print(1)");
    ("/proj/pkg/run.sh", regular (oct [4; 7; 7; 7]) 3000 "#!/bin/sh");
    ("/proj/pkg/data.bin", regular (oct [6; 6; 6]) 3000 "data");
    ("/proj/pkg/__pycache__/main.cpython-38.pyc", regular mode_644 4000 "x");
    ("/proj/LICENSE", regular mode_644 5 "MIT") ].

Definition demo_include : Include :=
  mkInclude [] true None proj
    [ under ["pkg"];
      under ["pkg"; "run.sh"];
      under ["pkg"; "main.py"];
      under ["pkg"; "__init__.py"];
      under ["pkg"; "data.bin"];
      under ["pkg"; "__pycache__"; "main.cpython-38.pyc"] ].

(** A pure-Python project with a console script. *)
Definition demo : World :=
  {| package_name := "my-pkg";
     pretty_name := "My-Pkg";
     version := "1.0";
     build_script := None;
     python_allows_any := fun _ => false;
     local_config := ["name"; "version"; "scripts"];
     entry_points := [ ("console_scripts", ["foo = pkg:main"]);
                       ("b_group", ["x = y:z"]) ];
     metadata_content := "Metadata-Version: 2.1" ++ nl ++ "Name: my-pkg" ++ nl;
     includes := [demo_include];
     is_excluded := fun _ => false;
     _path := proj;
     _target_dir := under ["dist"];
     poetry_version := "1.0.0";
     sys_tags := [("cp38", "cp38", "manylinux1_x86_64"); ("py3", "none", "any")];
     now := 1600000000;
     fs := fun _ => lookup demo_files;
     glob := fun d pat =>
               if String.eqb pat "LICENSE*" then [under ["LICENSE"]] else [];
     build_exit := 0;
     gettempdir := ["/"; "tmp"];
     mkstemp_name := "tmpk3x9.whl";
     cwd0 := "/home/dev";
     dirs0 := [];
     disk0 := [] |}.

Definition with_includes (incs : list Include) (w : World) : World :=
  mkWorld (package_name w) (pretty_name w) (version w) (build_script w)
          (python_allows_any w) (local_config w) (entry_points w)
          (metadata_content w) incs (is_excluded w) (_path w)
          (_target_dir w) (poetry_version w) (sys_tags w) (now w) (fs w)
          (glob w) (build_exit w) (gettempdir w) (mkstemp_name w) (cwd0 w)
          (dirs0 w) (disk0 w).

Definition with_fs (f : nat -> string -> option File) (w : World) : World :=
  mkWorld (package_name w) (pretty_name w) (version w) (build_script w)
          (python_allows_any w) (local_config w) (entry_points w)
          (metadata_content w) (includes w) (is_excluded w) (_path w)
          (_target_dir w) (poetry_version w) (sys_tags w) (now w) f
          (glob w) (build_exit w) (gettempdir w) (mkstemp_name w) (cwd0 w)
          (dirs0 w) (disk0 w).

(** The state [_add_file] leaves after copying [pkg/run.sh] first. *)
Definition after_run_sh : State :=
  Eval vm_compute in
    state_of (_add_file demo "/proj/pkg/run.sh" "pkg/run.sh" (new_builder demo)).

(** The state [_write_to_zip] leaves after writing a METADATA member. *)
Definition after_metadata : State :=
  Eval vm_compute in
    state_of (_write_to_zip "my_pkg-1.0.dist-info/METADATA"
                (_write_metadata_file demo) (new_builder demo)).

(** The demo project, built. *)
Definition demo_built : State := Eval vm_compute in state_of (run_build demo).

(** Two include rules that put two different files, [src/a.py] and
    [a.py], at the archive path [a.py]. *)
Definition dup_files : list (string * File) :=
  [ ("/proj/src/a.py", regular mode_644 10 "x = 1");
    ("/proj/a.py", regular mode_644 20 "x = 1");
    ("/proj/LICENSE", regular mode_644 5 "MIT") ].

Definition dup_src_include : Include :=
  mkInclude [] true (Some "src") (under ["src"]) [under ["src"; "a.py"]].

Definition dup_root_include : Include :=
  mkInclude [] false None proj [under ["a.py"]].

Definition dup : World :=
  with_fs (fun _ => lookup dup_files)
    (with_includes [dup_src_include; dup_root_include] demo).

Definition src_a : Path := under ["src"; "a.py"].
Definition root_a : Path := under ["a.py"].
Definition rel_a : Path := ["a.py"].

Definition dup_built : State := Eval vm_compute in state_of (run_build dup).

(** The same project with the rule for [src] given a second time, after
    the rule for the root, and listing its file twice. *)
Definition twice : World :=
  with_includes
    [ dup_src_include; dup_root_include;
      mkInclude [] true (Some "src") (under ["src"])
                [under ["src"; "a.py"]; under ["src"; "a.py"]] ]
    dup.

(** The demo project, with [pkg/__init__.py] rewritten while
    [_add_file] is between its two passes over the file. *)
Definition changing : World :=
  with_fs (fun t p =>
             if (7 <=? t)%nat && String.eqb p "/proj/pkg/__init__.py"
             then Some (regular mode_644 6000 "bb")
             else lookup (("/proj/pkg/__init__.py", regular mode_644 1000 "a")
                          :: demo_files) p)
          demo.

Definition changing_built : State := Eval vm_compute in state_of (run_build changing).

(** A package [foo] next to its stub package [foo-stubs]. *)
Definition order_files : list (string * File) :=
  [ ("/proj/foo/__init__.py", regular mode_644 10 EmptyString);
    ("/proj/foo-stubs/__init__.pyi", regular mode_644 20 EmptyString);
    ("/proj/LICENSE", regular mode_644 5 "MIT") ].

Definition order : World :=
  with_fs (fun _ => lookup order_files)
    (with_includes
       [ mkInclude [] true None proj [under ["foo"; "__init__.py"]];
         mkInclude [] true None proj [under ["foo-stubs"; "__init__.pyi"]] ]
       demo).

Definition order_copied : State :=
  Eval vm_compute in state_of (_copy_module order (new_builder order)).

Definition demo_copied : State :=
  Eval vm_compute in state_of (_copy_module demo (new_builder demo)).

(** The demo project with a build script: [setup.py build] leaves
    [build/lib.linux-x86_64-3.8] with a copy of the package and one
    compiled extension. *)
Definition with_native (script : option string) (exit : Z)
           (g : Path -> string -> list Path) (w : World) : World :=
  mkWorld (package_name w) (pretty_name w) (version w) script
          (python_allows_any w) (local_config w) (entry_points w)
          (metadata_content w) (includes w) (is_excluded w) (_path w)
          (_target_dir w) (poetry_version w) (sys_tags w) (now w) (fs w)
          g exit (gettempdir w) (mkstemp_name w) (cwd0 w)
          (dirs0 w) (disk0 w).

Definition lib_dir : Path := under ["build"; "lib.linux-x86_64-3.8"].

Definition native_glob (d : Path) (pat : string) : list Path :=
  if String.eqb pat "LICENSE*" then [under ["LICENSE"]]
  else if String.eqb pat "lib.*" then [lib_dir]
  else if String.eqb pat "**/*"
       then [ (lib_dir ++ ["pkg"])%list;
              (lib_dir ++ ["pkg"; "main.py"])%list;
              (lib_dir ++ ["pkg"; "_speedups.so"])%list ]
       else [].

Definition native_files : list (string * File) :=
  (demo_files ++
   [ ("/proj/build/lib.linux-x86_64-3.8/pkg", directory);
     ("/proj/build/lib.linux-x86_64-3.8/pkg/main.py",
      regular mode_644 7000 "print(1)");
     ("/proj/build/lib.linux-x86_64-3.8/pkg/_speedups.so",
      regular mode_755 7000 "ELF") ])%list.

Definition native : World :=
  with_fs (fun _ => lookup native_files)
          (with_native (Some "build.py") 0 native_glob demo).

(** The same project when the build tool exits with status 1. *)
Definition native_failing : World :=
  with_fs (fun _ => lookup native_files)
          (with_native (Some "build.py") 1 native_glob demo).

(** The same project when the build leaves no [lib.*] directory. *)
Definition native_empty : World :=
  with_native (Some "build.py") 0 (glob demo) demo.

Definition native_copied : State :=
  Eval vm_compute in state_of (_copy_module native (new_builder native)).

Definition native_extended : State :=
  Eval vm_compute in state_of (_build native native_copied).

Definition with_disk0 (d : Disk) (w : World) : World :=
  mkWorld (package_name w) (pretty_name w) (version w) (build_script w)
          (python_allows_any w) (local_config w) (entry_points w)
          (metadata_content w) (includes w) (is_excluded w) (_path w)
          (_target_dir w) (poetry_version w) (sys_tags w) (now w) (fs w)
          (glob w) (build_exit w) (gettempdir w) (mkstemp_name w) (cwd0 w)
          (path_str (_target_dir w) :: dirs0 w) d.

(** An archive of an earlier build, at the name the next build will use,
    next to a file of another project. *)
Definition old_archive : Z * Archive :=
  (mode_644, [generated_entry "my_pkg-1.0.dist-info/RECORD" (encode_utf8 "old")]).

Definition old_disk : Disk :=
  [ ("/proj/dist/My_Pkg-1.0-py3-none-any.whl", old_archive);
    ("/proj/dist/other-0.1-py3-none-any.whl", (mode_644, [])) ].

Definition rebuild : World := with_disk0 old_disk demo.

Definition rebuild_failing : World :=
  with_disk0 [ ("/proj/dist/My_Pkg-1.0-cp38-cp38-manylinux1_x86_64.whl", old_archive) ]
             native_failing.

Definition rebuild_built : State := Eval vm_compute in state_of (run_build rebuild).

Definition rebuild_failed : State :=
  Eval vm_compute in state_of (run_build rebuild_failing).

(** The demo project when its Python constraint also allows Python 2. *)
Definition legacy : World :=
  mkWorld (package_name demo) (pretty_name demo) (version demo) (build_script demo)
          (fun c => String.eqb c ">=2.0.0 <3.0.0") (local_config demo)
          (entry_points demo) (metadata_content demo) (includes demo)
          (is_excluded demo) (_path demo) (_target_dir demo)
          (poetry_version demo) (sys_tags demo) (now demo) (fs demo)
          (glob demo) (build_exit demo) (gettempdir demo) (mkstemp_name demo)
          (cwd0 demo) (dirs0 demo) (disk0 demo).

(** The demo source tree a day later: every file touched, none changed. *)
Definition touched (t : nat) (p : string) : option File :=
  match fs demo t p with
  | Some f => Some (mkFile (st_mode f) (st_mtime f + 86400) (content f))
  | None => None
  end.

(** A second build of the demo project, a day later, from the project
    directory, with the archive of the first build in place. *)
Definition second_build : World :=
  on_another_run ["/"; "var"; "tmp"] "tmp0q7d.whl" "/proj"
                 (dirs demo_built) (disk demo_built)
                 (at_another_time 1700000000 touched demo).

End Samples.

(* ================================================================== *)
(** * More sample projects                                             *)
(* ================================================================== *)

Module MoreSamples.
Local Open Scope string_scope.
Import Samples.

(** The demo project, with [pkg/__init__.py] removed right after
    [_add_file] has written its member. *)
Definition vanishing : World :=
  with_fs (fun t p =>
             if (8 <=? t)%nat && String.eqb p "/proj/pkg/__init__.py"
             then None
             else lookup demo_files p)
          demo.

Definition vanishing_failed : State :=
  Eval vm_compute in state_of (run_build vanishing).

(** The demo project with one more rule that lists a file outside the
    project directory. *)
Definition stray : World :=
  with_includes [demo_include; mkInclude [] false None proj [["/"; "etc"; "motd"]]] demo.

Definition stray_failed : State :=
  Eval vm_compute in
    state_of (for_fold (includes stray) (collect_include stray) [] (new_builder stray)).

(** The native project on a host for which [sys_tags()] yields nothing. *)
Definition untagged : World :=
  mkWorld (package_name native) (pretty_name native) (version native)
          (build_script native) (python_allows_any native) (local_config native)
          (entry_points native) (metadata_content native) (includes native)
          (is_excluded native) (_path native) (_target_dir native)
          (poetry_version native) [] (now native) (fs native)
          (glob native) (build_exit native) (gettempdir native)
          (mkstemp_name native) (cwd0 native) (dirs0 native) (disk0 native).

(** The demo project with a directory [LICENSES] at its root. *)
Definition license_dir : World :=
  with_fs (fun _ => lookup (("/proj/LICENSES", directory) :: demo_files))
    (with_native None 0
       (fun d pat => if String.eqb pat "LICENSE*"
                     then [under ["LICENSE"]; under ["LICENSES"]] else [])
       demo).



(** A file one byte longer than what one read of [_add_file] takes. *)
Definition long_file : bytes := repeat x00 (S chunk_size).

End MoreSamples.

(* ================================================================== *)
(** * Checks of the library models on known values                    *)
(* ================================================================== *)

Example sha256_empty :
  hexdigest (SHA256.sha256 []) =
  "e3b0c44298fc1c149afbf4c8996fb92427ae41e4649b934ca495991b7852b855"%string.
Proof. vm_compute. reflexivity. Qed.

Example sha256_abc :
  hexdigest (SHA256.sha256 (encode_utf8 "abc")) =
  "ba7816bf8f01cfea414140de5dae2223b00361a396177a9cb410ff61f20015ad"%string.
Proof. vm_compute. reflexivity. Qed.

Example sha256_two_blocks :
  hexdigest (SHA256.sha256
    (encode_utf8 "abcdbcdecdefdefgefghfghighijhijkijkljklmklmnlmnomnopnopq")) =
  "248d6a61d20638b8e5c026930c3e6039a33ce45964ff2167f6ecedd419db06c1"%string.
Proof. vm_compute. reflexivity. Qed.

Example b64_sha256_empty :
  rstrip "=" (urlsafe_b64encode (SHA256.sha256 [])) =
  "47DEQpj8HBSa-_TImW-5JCeuQeRkm5NMpJWZG3hSuFU"%string.
Proof. vm_compute. reflexivity. Qed.

Example suffix_pyc : path_suffix ["pkg"; "a.pyc"]%string = ".pyc"%string.
Proof. reflexivity. Qed.

Example suffix_dotfile : path_suffix [".pyc"]%string = EmptyString.
Proof. reflexivity. Qed.

Example suffix_trailing_dot : path_suffix ["a."]%string = EmptyString.
Proof. reflexivity. Qed.

Example str_of_N_ex : str_of_N 1204 = "1204"%string /\ str_of_N 0 = "0"%string.
Proof. split; reflexivity. Qed.

Example path_order_ex :
  path_ltb ["a"; "b"]%string ["a-b"]%string = true /\
  str_ltb "a-b" "a/b" = true.
Proof. split; reflexivity. Qed.

Example sorted_stable_ex :
  sorted fst Nat.ltb [(2, "x"); (1, "y"); (2, "z"); (1, "w")]%string%nat =
  [(1, "y"); (1, "w"); (2, "x"); (2, "z")]%string%nat.
Proof. reflexivity. Qed.

Example contains_ex :
  contains "__pycache__" "/proj/pkg/__pycache__/main.cpython-38.pyc" = true /\
  contains "__pycache__" "/proj/pkg/main.py" = false.
Proof. split; reflexivity. Qed.

Example escape_name_ex :
  escape_name "my-pkg" = "my_pkg"%string /\
  escape_version "1.0-beta" = "1.0_beta"%string.
Proof. split; reflexivity. Qed.

(** The demo project builds; its archive and the text of its RECORD. *)
Example demo_archive :
  run_build Samples.demo = Ok tt Samples.demo_built /\
  names (wheel Samples.demo_built) =
    [ "pkg/__init__.py"; "pkg/data.bin"; "pkg/main.py"; "pkg/run.sh";
      "my_pkg-1.0.dist-info/entry_points.txt"; "my_pkg-1.0.dist-info/LICENSE";
      "my_pkg-1.0.dist-info/WHEEL"; "my_pkg-1.0.dist-info/METADATA";
      "my_pkg-1.0.dist-info/RECORD" ]%string /\
  map perm_bits (wheel Samples.demo_built) =
    [ mode_644; mode_644; mode_755; mode_755; mode_644; mode_644; mode_644;
      mode_644; mode_644 ] /\
  make_in Samples.demo = Ok "My_Pkg-1.0-py3-none-any.whl"%string Samples.demo_built.
Proof. repeat split; vm_compute; reflexivity. Qed.

Example demo_record_text :
  option_map (fun e => string_of_list_byte (snd e))
             (nth_error (wheel Samples.demo_built) 8) =
  Some ("pkg/__init__.py,sha256=47DEQpj8HBSa-_TImW-5JCeuQeRkm5NMpJWZG3hSuFU,0" ++ nl ++
        "pkg/data.bin,sha256=Om6weQ85rIfJTzhWst0sXREOaBFgImGpqSPTuyOtyLc,4" ++ nl ++
        "pkg/main.py,sha256=0oe7f50Vq9xbbphTYmOBV0S27yHI88g5_ENMpw2O_pk,8" ++ nl ++
        "pkg/run.sh,sha256=Ovca2yeK1K8zwUS3j6GucI2gO3c9mDJK6ZGn2u21PKI,9" ++ nl ++
        "my_pkg-1.0.dist-info/entry_points.txt,sha256=KdXif6CeAPNmdibVQx6rDNGXpwl5WB9C1MCPb9fA2Jw,49" ++ nl ++
        "my_pkg-1.0.dist-info/LICENSE,sha256=5dz_6Da27IpY5JJBm1UOZfuMvcMIUDl55drLM6x-o7c,3" ++ nl ++
        "my_pkg-1.0.dist-info/WHEEL,sha256=SrtnPGVTMeYWttls9xnWA01eUhCZ3ufFdJUYb1J3r-U,83" ++ nl ++
        "my_pkg-1.0.dist-info/METADATA,sha256=o062t324JhnqW47HXxyNKfOBPYVGQluwyMWarVl_C6U,35" ++ nl ++
        "my_pkg-1.0.dist-info/RECORD,," ++ nl)%string.
Proof. vm_compute. reflexivity. Qed.

(* ================================================================== *)
(** * Facts about the library models                                   *)
(* ================================================================== *)

(** ** The read loop feeds the whole file to the hash, whatever the
       chunk size. *)

Lemma chunk_size_pos : (0 < chunk_size)%nat.
Proof. apply Nat.ltb_lt. vm_compute. reflexivity. Qed.

Lemma hash_loop_gen (c : nat) (steps : nat) :
  (0 < c)%nat ->
  forall src hashsum,
    (List.length src < steps)%nat ->
    (fix loop (steps : nat) (src hashsum : bytes) : option bytes :=
       match steps with
       | O => None
       | S steps' =>
           match firstn c src with
           | [] => Some hashsum
           | buf => loop steps' (skipn c src) (hashsum ++ buf)
           end
       end) steps src hashsum = Some (hashsum ++ src).
Proof.
  intros Hc. induction steps as [|n IH]; intros src hashsum Hlen.
  - lia.
  - destruct (firstn c src) as [|b bs] eqn:Hf.
    + destruct src as [|x src'].
      * now rewrite app_nil_r.
      * destruct c; [lia | discriminate].
    + rewrite IH.
      * rewrite <- app_assoc, <- Hf, firstn_skipn. reflexivity.
      * rewrite length_skipn. destruct src; [destruct c; discriminate|].
        cbn [List.length] in *. lia.
Qed.

Lemma hash_loop_total (src : bytes) :
  hash_loop (S (List.length src)) src [] = Some src.
Proof.
  unfold hash_loop.
  rewrite (hash_loop_gen chunk_size (S (List.length src)) chunk_size_pos src []).
  - reflexivity.
  - lia.
Qed.

(** ** Orders: strings by code point, paths by components *)

Lemma ascii_compare_refl (a : ascii) : Ascii.compare a a = Eq.
Proof. unfold Ascii.compare. apply N.compare_refl. Qed.

Lemma ascii_compare_trans (a b c : ascii) :
  Ascii.compare a b = Lt -> Ascii.compare b c = Lt -> Ascii.compare a c = Lt.
Proof.
  unfold Ascii.compare. rewrite !N.compare_lt_iff. apply N.lt_trans.
Qed.

Lemma str_compare_refl (s : string) : String.compare s s = Eq.
Proof.
  induction s as [|a s IH]; simpl; [reflexivity|].
  now rewrite ascii_compare_refl.
Qed.

Lemma str_compare_trans (s1 : string) :
  forall s2 s3,
    String.compare s1 s2 = Lt -> String.compare s2 s3 = Lt ->
    String.compare s1 s3 = Lt.
Proof.
  induction s1 as [|a s1 IH]; intros [|b s2] [|c s3]; simpl; try discriminate;
    try reflexivity.
  destruct (Ascii.compare a b) eqn:Hab; try discriminate;
    destruct (Ascii.compare b c) eqn:Hbc; try discriminate; intros H1 H2.
  - apply Ascii.compare_eq_iff in Hab, Hbc. subst.
    rewrite ascii_compare_refl. eauto.
  - apply Ascii.compare_eq_iff in Hab. subst. now rewrite Hbc.
  - apply Ascii.compare_eq_iff in Hbc. subst. now rewrite Hab.
  - now rewrite (ascii_compare_trans _ _ _ Hab Hbc).
Qed.

Lemma path_compare_refl (p : Path) : path_compare p p = Eq.
Proof.
  induction p as [|a p IH]; simpl; [reflexivity|].
  now rewrite str_compare_refl.
Qed.

Lemma path_compare_eq (p : Path) : forall q, path_compare p q = Eq -> p = q.
Proof.
  induction p as [|a p IH]; intros [|b q]; simpl; try discriminate; auto.
  destruct (String.compare a b) eqn:Hab; try discriminate.
  intros H. apply String.compare_eq_iff in Hab. subst. f_equal. auto.
Qed.

Lemma path_compare_antisym (p : Path) :
  forall q, path_compare p q = CompOpp (path_compare q p).
Proof.
  induction p as [|a p IH]; intros [|b q]; simpl; try reflexivity.
  rewrite (String.compare_antisym a b).
  destruct (String.compare b a); simpl; auto.
Qed.

Lemma path_compare_trans (p : Path) :
  forall q r,
    path_compare p q = Lt -> path_compare q r = Lt -> path_compare p r = Lt.
Proof.
  induction p as [|a p IH]; intros [|b q] [|c r]; simpl; try discriminate;
    try reflexivity.
  destruct (String.compare a b) eqn:Hab; try discriminate;
    destruct (String.compare b c) eqn:Hbc; try discriminate; intros H1 H2.
  - apply String.compare_eq_iff in Hab, Hbc. subst.
    rewrite str_compare_refl. eauto.
  - apply String.compare_eq_iff in Hab. subst. now rewrite Hbc.
  - apply String.compare_eq_iff in Hbc. subst. now rewrite Hab.
  - now rewrite (str_compare_trans _ _ _ Hab Hbc).
Qed.

Lemma path_eqb_eq (p q : Path) : path_eqb p q = true <-> p = q.
Proof.
  unfold path_eqb. split.
  - destruct (path_compare p q) eqn:H; try discriminate.
    intros _. now apply path_compare_eq.
  - intros ->. now rewrite path_compare_refl.
Qed.

Lemma pair_eqb_eq (x y : Path * Path) : pair_eqb x y = true <-> x = y.
Proof.
  unfold pair_eqb. rewrite andb_true_iff, !path_eqb_eq.
  destruct x, y; simpl. split; [intros [-> ->] | intros [= -> ->]]; auto.
Qed.

Lemma path_ltb_asym (p q : Path) : path_ltb p q = true -> path_ltb q p = false.
Proof.
  unfold path_ltb. rewrite (path_compare_antisym q p).
  destruct (path_compare p q); simpl; intros; congruence.
Qed.

Lemma path_le_trans (p q r : Path) : path_le p q -> path_le q r -> path_le p r.
Proof.
  unfold path_le, path_ltb. intros H1 H2.
  destruct (path_compare r p) eqn:Hrp; auto.
  (* r < p: then q <= r < p contradicts p <= q *)
  rewrite (path_compare_antisym q p) in H1.
  rewrite (path_compare_antisym r q) in H2.
  destruct (path_compare p q) eqn:Hpq; simpl in H1; try discriminate;
    destruct (path_compare q r) eqn:Hqr; simpl in H2; try discriminate.
  - apply path_compare_eq in Hpq, Hqr. subst.
    rewrite path_compare_refl in Hrp. discriminate.
  - apply path_compare_eq in Hpq. subst.
    rewrite (path_compare_antisym r q), Hqr in Hrp. discriminate.
  - apply path_compare_eq in Hqr. subst.
    rewrite (path_compare_antisym r p), Hpq in Hrp. discriminate.
  - pose proof (path_compare_trans _ _ _ Hpq Hqr) as Hpr.
    rewrite (path_compare_antisym r p), Hpr in Hrp. discriminate.
Qed.

Lemma str_ltb_as_path (a b : string) : str_ltb a b = path_ltb [a] [b].
Proof.
  unfold str_ltb, path_ltb. simpl. now destruct (String.compare a b).
Qed.

Lemma str_ltb_asym (a b : string) : str_ltb a b = true -> str_ltb b a = false.
Proof. rewrite !str_ltb_as_path. apply path_ltb_asym. Qed.

Lemma str_le_trans (a b c : string) : str_le a b -> str_le b c -> str_le a c.
Proof. unfold str_le. rewrite !str_ltb_as_path. apply path_le_trans. Qed.

(** ** [sorted]: a sorted, stable permutation of its argument *)

Section SortedFacts.
Variables (A K : Type) (key : A -> K) (ltb : K -> K -> bool).

Let le (x y : A) : Prop := ltb (key y) (key x) = false.

Hypothesis ltb_asym : forall a b, ltb a b = true -> ltb b a = false.
Hypothesis le_trans :
  forall a b c, ltb b a = false -> ltb c b = false -> ltb c a = false.

Lemma insert_sorted_perm (x : A) (l : list A) :
  Permutation (x :: l) (insert_sorted key ltb x l).
Proof.
  induction l as [|y l IH]; simpl; [reflexivity|].
  destruct (ltb (key y) (key x)); [|reflexivity].
  rewrite perm_swap. now constructor.
Qed.

Lemma sorted_perm (l : list A) : Permutation l (sorted key ltb l).
Proof.
  induction l as [|x l IH]; simpl; [reflexivity|].
  rewrite <- insert_sorted_perm. now constructor.
Qed.

Lemma insert_sorted_sorted (x : A) (l : list A) :
  StronglySorted le l -> StronglySorted le (insert_sorted key ltb x l).
Proof.
  induction l as [|y l IH]; intros Hs; simpl.
  - repeat constructor.
  - inversion Hs as [|? ? Hs' Hall]; subst.
    destruct (ltb (key y) (key x)) eqn:Hyx.
    + constructor; [auto|].
      rewrite <- (insert_sorted_perm x l).
      constructor; [|assumption].
      unfold le. now apply ltb_asym.
    + constructor; [assumption|].
      constructor; [exact Hyx|].
      rewrite Forall_forall in *. intros z Hz.
      unfold le. eapply le_trans; [exact Hyx|]. now apply Hall.
Qed.

Lemma sorted_sorted (l : list A) : StronglySorted le (sorted key ltb l).
Proof.
  induction l as [|x l IH]; simpl; [constructor|].
  now apply insert_sorted_sorted.
Qed.
End SortedFacts.

(** ** The digest has 32 bytes; its base64 form has 44 characters, the
       last of which is the only padding *)

Lemma sha256_length (msg : bytes) : List.length (SHA256.sha256 msg) = 32%nat.
Proof. reflexivity. Qed.

Lemma b64_alphabet_no_pad (k : nat) :
  (k < 64)%nat ->
  Ascii.eqb (urlsafe_translate (nth k b64_std_alphabet "A"%char)) "=" = false.
Proof.
  intros Hk.
  do 64 (destruct k as [|k]; [reflexivity|]).
  lia.
Qed.

Lemma b64char_no_pad (n : Z) :
  Ascii.eqb (urlsafe_translate (b64char n)) "=" = false.
Proof.
  unfold b64char. apply b64_alphabet_no_pad.
  assert (0 <= Z.land n 63 < 64).
  { change 63 with (Z.ones 6). rewrite Z.land_ones by lia.
    apply Z.mod_pos_bound. reflexivity. }
  lia.
Qed.

Lemma list32 {A} (l : list A) :
  List.length l = 32%nat ->
  exists a0 a1 a2 a3 a4 a5 a6 a7 a8 a9 a10 a11 a12 a13 a14 a15
         a16 a17 a18 a19 a20 a21 a22 a23 a24 a25 a26 a27 a28 a29 a30 a31,
    l = [a0; a1; a2; a3; a4; a5; a6; a7; a8; a9; a10; a11; a12; a13; a14; a15;
         a16; a17; a18; a19; a20; a21; a22; a23; a24; a25; a26; a27; a28; a29;
         a30; a31].
Proof.
  intros H.
  do 32 (destruct l as [|? l]; [discriminate H|]).
  destruct l; [|discriminate H].
  repeat eexists.
Qed.

Lemma urlsafe_b64_digest (d : bytes) :
  List.length d = 32%nat ->
  exists h : string,
    urlsafe_b64encode d = (h ++ "=")%string /\
    String.length h = 43%nat /\
    rstrip "=" (urlsafe_b64encode d) = h.
Proof.
  intros H. apply list32 in H.
  destruct H as (a0 & a1 & a2 & a3 & a4 & a5 & a6 & a7 & a8 & a9 & a10 & a11 &
                 a12 & a13 & a14 & a15 & a16 & a17 & a18 & a19 & a20 & a21 &
                 a22 & a23 & a24 & a25 & a26 & a27 & a28 & a29 & a30 & a31 & ->).
  unfold urlsafe_b64encode.
  cbn [b64encode map string_of_list_ascii].
  eexists (String _ (String _ (String _ (String _ (String _ (String _ (String _
          (String _ (String _ (String _ (String _ (String _ (String _ (String _
          (String _ (String _ (String _ (String _ (String _ (String _ (String _
          (String _ (String _ (String _ (String _ (String _ (String _ (String _
          (String _ (String _ (String _ (String _ (String _ (String _ (String _
          (String _ (String _ (String _ (String _ (String _ (String _ (String _
          (String _ EmptyString))))))))))))))))))))))))))))))))))))))))))).
  split; [reflexivity|]. split; [reflexivity|].
  cbn [rstrip]. change (urlsafe_translate "=") with "="%char.
  cbn [Ascii.eqb Bool.eqb]. cbn [rstrip].
  rewrite b64char_no_pad. reflexivity.
Qed.

Lemma hash_digest_shape (fed : bytes) :
  exists h : string,
    hash_digest_of fed = h /\
    urlsafe_b64encode (SHA256.sha256 fed) = (h ++ "=")%string /\
    String.length h = 43%nat.
Proof.
  destruct (urlsafe_b64_digest (SHA256.sha256 fed) (sha256_length fed))
    as (h & H1 & H2 & H3).
  exists h. unfold hash_digest_of. auto.
Qed.

(* ================================================================== *)
(** * A program logic for the builder's monad                          *)
(* ================================================================== *)

Lemma hoare_ret {A} (P : State -> Prop) (a : A) Q E :
  (forall s, P s -> Q a s) -> hoare P (ret a) Q E.
Proof. intros H s Hs. simpl. auto. Qed.

Lemma hoare_raise {A} (P : State -> Prop) e (Q : A -> State -> Prop) E :
  (forall s, P s -> E e s) -> hoare P (raise e) Q E.
Proof. intros H s Hs. simpl. auto. Qed.

Lemma hoare_bind {A B} P (m : M A) (k : A -> M B) R Q E :
  hoare P m R E -> (forall a, hoare (R a) (k a) Q E) -> hoare P (bind m k) Q E.
Proof.
  intros Hm Hk s Hs. unfold bind. specialize (Hm s Hs).
  destruct (m s) as [a s'|e s']; [now apply Hk | assumption].
Qed.

Lemma hoare_conseq {A} (P P' : State -> Prop) (m : M A) (Q Q' : A -> State -> Prop)
      (E E' : Error -> State -> Prop) :
  hoare P' m Q' E' ->
  (forall s, P s -> P' s) -> (forall a s, Q' a s -> Q a s) ->
  (forall e s, E' e s -> E e s) ->
  hoare P m Q E.
Proof.
  intros H HP HQ HE s Hs. specialize (H s (HP s Hs)).
  destruct (m s); auto.
Qed.

Lemma hoare_for_each {A} (I : State -> Prop) (l : list A) (body : A -> M unit) E :
  (forall x, In x l -> hoare I (body x) (fun _ => I) E) ->
  hoare I (for_each l body) (fun _ => I) E.
Proof.
  induction l as [|x l IH]; intros H; simpl.
  - now apply hoare_ret.
  - eapply hoare_bind; [apply H; now left|].
    intros ?. apply IH. intros y Hy. apply H. now right.
Qed.

Lemma hoare_for_fold {A B} (I : State -> Prop) (l : list A) (body : B -> A -> M B)
      (b : B) E :
  (forall b x, In x l -> hoare I (body b x) (fun _ => I) E) ->
  hoare I (for_fold l body b) (fun _ => I) E.
Proof.
  revert b. induction l as [|x l IH]; intros b H; simpl.
  - now apply hoare_ret.
  - eapply hoare_bind; [apply H; now left|].
    intros b'. apply IH. intros b0 y Hy. apply H. now right.
Qed.

Lemma hoare_try_finally {A} (I : State -> Prop) (m : M A) (fin : M unit) E :
  hoare I m (fun _ => I) E ->
  hoare I fin (fun _ => I) E ->
  (forall e, hoare (E e) fin (fun _ => E e) E) ->
  hoare I (try_finally m fin) (fun _ => I) E.
Proof.
  intros Hm Hf He s Hs. unfold try_finally. specialize (Hm s Hs).
  destruct (m s) as [a s'|e s'].
  - specialize (Hf s' Hm). destruct (fin s'); auto.
  - specialize (He e s' Hm). destruct (fin s'); auto.
Qed.

(** Two equal results have equal values and equal states. *)
Lemma ok_inv {A} (a b : A) (s s' : State) : Ok a s = Ok b s' -> a = b /\ s = s'.
Proof. intros [= -> ->]. auto. Qed.

(** Inversion of a successful [bind]. *)
Lemma bind_ok {A B} (m : M A) (k : A -> M B) s b s' :
  bind m k s = Ok b s' -> exists a s1, m s = Ok a s1 /\ k a s1 = Ok b s'.
Proof.
  unfold bind. destruct (m s) as [a s1|]; [|discriminate]. eauto.
Qed.

(** ** Invariants of the archive under assembly

    [_add_file] and [_write_to_zip] are the only methods that touch the
    archive and the record list.  An assertion that both keep, and that
    does not look at the clock or the working directory, is kept by every
    step of the assembly. *)
Section Preservation.
Variable w : World.
Variable I : State -> Prop.
Variable E : Error -> State -> Prop.

Hypothesis I_tick : forall s, I s -> I (tick s).
Hypothesis I_cwd : forall d s, I s -> I (set_cwd d s).
Hypothesis I_E : forall e s, I s -> E e s.
Hypothesis E_cwd : forall d e s, E e s -> E e (set_cwd d s).
Hypothesis add_file_keeps :
  forall full rel, hoare I (_add_file w full rel) (fun _ => I) E.
Hypothesis write_to_zip_keeps :
  forall rel body,
    hoare I body (fun _ => I) E ->
    hoare I (_write_to_zip rel body) (fun _ => I) E.

Lemma is_dir_keeps p : hoare I (is_dir w p) (fun _ => I) E.
Proof.
  intros s Hs. unfold is_dir. destruct (fs w (clock s) (path_str p)); auto.
Qed.

Lemma relative_to_M_keeps p b : hoare I (relative_to_M p b) (fun _ => I) E.
Proof.
  unfold relative_to_M. destruct (relative_to p b).
  - now apply hoare_ret.
  - apply hoare_raise. auto.
Qed.

Lemma collect_file_keeps include to_add file :
  hoare I (collect_file w include to_add file) (fun _ => I) E.
Proof.
  unfold collect_file.
  destruct (contains _ _); [now apply hoare_ret|].
  eapply hoare_bind; [apply is_dir_keeps|]. intros d.
  destruct d; [now apply hoare_ret|].
  eapply hoare_bind.
  { destruct (_ && _); apply relative_to_M_keeps. }
  intros rel. cbv beta.
  destruct (_ && _); [now apply hoare_ret|].
  destruct (String.eqb _ _); [now apply hoare_ret|].
  destruct (existsb _ _); now apply hoare_ret.
Qed.

Lemma collect_keeps :
  hoare I (for_fold (includes w) (collect_include w) []) (fun _ => I) E.
Proof.
  apply hoare_for_fold. intros b x _. unfold collect_include.
  destruct (_ && _); [now apply hoare_ret|].
  apply hoare_for_fold. intros. apply collect_file_keeps.
Qed.

Lemma _copy_module_keeps : hoare I (_copy_module w) (fun _ => I) E.
Proof.
  unfold _copy_module. eapply hoare_bind; [apply collect_keeps|].
  intros to_add. apply hoare_for_each. intros. apply add_file_keeps.
Qed.

Lemma build_file_keeps lib pkg : hoare I (build_file w lib pkg) (fun _ => I) E.
Proof.
  unfold build_file. eapply hoare_bind; [apply is_dir_keeps|]. intros d.
  destruct (_ || _); [now apply hoare_ret|].
  eapply hoare_bind; [apply relative_to_M_keeps|]. intros rel. cbv beta.
  eapply hoare_bind with (R := fun _ => I); [intros s Hs; exact Hs|].
  intros names. destruct (mem_string _ _); [now apply hoare_ret|].
  apply add_file_keeps.
Qed.

Lemma chdir_keeps d : hoare I (chdir d) (fun _ => I) E.
Proof. intros s Hs. simpl. auto. Qed.

Lemma _build_keeps : hoare I (_build w) (fun _ => I) E.
Proof.
  unfold _build. destruct (truthy _); [|now apply hoare_ret].
  eapply hoare_bind with (R := fun _ => I); [intros s Hs; exact Hs|].
  intros s0. eapply hoare_bind with (R := fun _ => I).
  - apply hoare_try_finally.
    + eapply hoare_bind; [apply chdir_keeps|]. intros ?.
      unfold _run_build_command.
      destruct (_ =? _); [now apply hoare_ret | apply hoare_raise; auto].
    + apply chdir_keeps.
    + intros e s Hs. simpl. auto.
  - intros ?. destruct (glob w _ _) as [|lib libs]; [now apply hoare_ret|].
    apply hoare_for_each. intros. apply build_file_keeps.
Qed.

Lemma of_sum_keeps {A} (r : Error + A) : hoare I (of_sum r) (fun _ => I) E.
Proof.
  destruct r; simpl; [apply hoare_raise; auto | now apply hoare_ret].
Qed.

Lemma _write_metadata_keeps : hoare I (_write_metadata w) (fun _ => I) E.
Proof.
  unfold _write_metadata.
  eapply hoare_bind with (R := fun _ => I).
  { destruct (declares_entry_points w); [|now apply hoare_ret].
    apply write_to_zip_keeps. now apply hoare_ret. }
  intros ?. eapply hoare_bind with (R := fun _ => I).
  { apply hoare_for_each. intros b _. apply hoare_for_each. intros.
    apply add_file_keeps. }
  intros ?. eapply hoare_bind with (R := fun _ => I).
  { apply write_to_zip_keeps. unfold _write_wheel_file.
    eapply hoare_bind; [apply of_sum_keeps|]. intros t. now apply hoare_ret. }
  intros ?. apply write_to_zip_keeps. now apply hoare_ret.
Qed.

Lemma _write_record_keeps : hoare I (_write_record w) (fun _ => I) E.
Proof.
  unfold _write_record. apply write_to_zip_keeps. unfold record_body.
  eapply hoare_bind with (R := fun _ => I); [intros s Hs; exact Hs|].
  intros s. now apply hoare_ret.
Qed.

Lemma fill_archive_keeps : hoare I (fill_archive w) (fun _ => I) E.
Proof.
  unfold fill_archive.
  eapply hoare_bind; [apply _copy_module_keeps|]. intros ?.
  eapply hoare_bind; [apply _build_keeps|]. intros ?.
  apply _write_metadata_keeps.
Qed.

Lemma assemble_keeps :
  hoare I (_copy_module w ;;; _build w ;;; _write_metadata w ;;; _write_record w)%builder
        (fun _ => I) E.
Proof.
  eapply hoare_bind; [apply _copy_module_keeps|]. intros ?.
  eapply hoare_bind; [apply _build_keeps|]. intros ?.
  eapply hoare_bind; [apply _write_metadata_keeps|]. intros ?.
  apply _write_record_keeps.
Qed.
End Preservation.

(* ================================================================== *)
(** * What the two writers do, step by step                            *)
(* ================================================================== *)

Arguments hash_digest_of : simpl never.
Arguments normalize_file_permissions : simpl never.

(** The member that [_add_file] writes for [rel_path] when the first
    [os.stat] returned mode [st_mode] and the second pass read [data]. *)
Lemma _add_file_unfold (w : World) (full_path rel_path : string) (s : State) :
  _add_file w full_path rel_path s =
  match fs w (clock s) full_path with
  | None => Raise (FileNotFoundError full_path) (tick s)
  | Some st =>
      match fs w (S (clock s)) full_path with
      | None => Raise (FileNotFoundError full_path) (tick (tick s))
      | Some f1 =>
          if S_ISDIR (st_mode f1)
          then Raise (IsADirectoryError full_path) (tick (tick s))
          else
            let data := match fs w (S (S (clock s))) full_path with
                        | Some f2 => content f2
                        | None => content f1
                        end in
            let e := copied_entry rel_path (st_mode st) data in
            match fs w (S (S (S (clock s)))) full_path with
            | None =>
                Raise (FileNotFoundError full_path)
                      (mkState (4 + clock s) (cwd s) (wheel s ++ [e])
                               (_records s) (dirs s) (disk s))
            | Some f3 =>
                Ok tt (mkState (4 + clock s) (cwd s) (wheel s ++ [e])
                         (_records s ++
                          [(rel_path, hash_digest_of (content f1), st_size f3)])
                         (dirs s) (disk s))
            end
      end
  end.
Proof.
  unfold _add_file, bind, os_stat at 1.
  destruct (fs w (clock s) full_path) as [st|]; [|reflexivity].
  unfold open_rb. cbn [clock tick].
  destruct (fs w (S (clock s)) full_path) as [f1|]; [|reflexivity].
  destruct (S_ISDIR (st_mode f1)); [reflexivity|].
  rewrite hash_loop_total.
  unfold read_again, bind. cbn [clock tick].
  destruct (fs w (S (S (clock s))) full_path) as [f2|];
    unfold writestr, modify, os_stat; cbn [set_wheel clock tick];
    destruct (fs w (S (S (S (clock s)))) full_path) as [f3|]; reflexivity.
Qed.

Lemma _write_to_zip_unfold (rel_path : string) (body : M string) (s : State) :
  _write_to_zip rel_path body s =
  match body s with
  | Raise e s' => Raise e s'
  | Ok sio s' =>
      let b := encode_utf8 sio in
      Ok tt (mkState (clock s') (cwd s') (wheel s' ++ [generated_entry rel_path b])
               (_records s' ++
                [(rel_path, hash_digest_of b, N.of_nat (List.length b))])
               (dirs s') (disk s'))
  end.
Proof.
  unfold _write_to_zip, bind. destruct (body s); reflexivity.
Qed.

(* ================================================================== *)
(** * The shape of [build] and invariants of the whole run             *)
(* ================================================================== *)

Lemma build_unfold (w : World) (s : State) :
  build w s =
  match assemble w (prepared w s) with
  | Raise e s2 => Raise e (closed w s2)
  | Ok _ s2 =>
      match wheel_filename w with
      | inl e => Raise e (closed w s2)
      | inr name => Ok tt (moved w name (closed w s2))
      end
  end.
Proof.
  unfold build.
  change (_copy_module w ;;; _build w ;;; _write_metadata w ;;; _write_record w)%builder
    with (assemble w).
  generalize (assemble w). intros body.
  unfold bind, get_state, with_zipfile, of_sum, modify, ret, raise.
  fold (temp_path w). fold temp_mode.
  unfold prepared.
  destruct (negb (mem_string (path_str (_target_dir w)) (dirs s)));
    (match goal with
     | |- ?L = match body ?x with _ => _ end =>
         match L with
         | context [body ?y] => change y with x; destruct (body x) as [[] s2|e s2]
         end
     end; [|reflexivity]);
    destruct (wheel_filename w) as [e|name]; reflexivity.
Qed.

Lemma build_archive (w : World) (s : State) :
  wheel (state_of (build w s)) = wheel (state_of (assemble w (prepared w s))) /\
  _records (state_of (build w s)) = _records (state_of (assemble w (prepared w s))) /\
  (is_ok (build w s) = true -> is_ok (assemble w (prepared w s)) = true).
Proof.
  rewrite build_unfold.
  destruct (assemble w (prepared w s)) as [[] s2|e s2]; simpl.
  - destruct (wheel_filename w) as [e|name]; simpl.
    + auto.
    + unfold moved. destruct (disk_get (temp_path w) _); auto.
  - repeat split; auto; discriminate.
Qed.

(** A property of members that holds of what the two writers produce
    holds of every member of the archive, however the build ends. *)
Lemma archive_forall (w : World) (P : ZipEntry -> Prop) :
  (forall rel st_mode data, P (copied_entry rel st_mode data)) ->
  (forall rel b, P (generated_entry rel b)) ->
  forall s, Forall P (wheel (state_of (build w s))).
Proof.
  intros Hc Hg s.
  destruct (build_archive w s) as (-> & _ & _).
  pose proof (assemble_keeps w (fun s => Forall P (wheel s))
                (fun _ s => Forall P (wheel s))) as H.
  unfold assemble.
  match type of H with
  | ?a -> ?b -> ?c -> ?d -> ?e -> ?f -> _ =>
      assert (H1 : a) by auto; assert (H2 : b) by auto;
      assert (H3 : c) by auto; assert (H4 : d) by auto;
      assert (H5 : e); [|assert (H6 : f)]
  end.
  - intros full rel s0 Hs0. rewrite _add_file_unfold.
    destruct (fs w (clock s0) full); [|exact Hs0].
    destruct (fs w (S (clock s0)) full) as [f1|]; [|exact Hs0].
    destruct (S_ISDIR (st_mode f1)); [exact Hs0|].
    cbv zeta.
    destruct (fs w (S (S (S (clock s0)))) full); cbn [wheel];
      apply Forall_app; split; auto.
  - intros rel body Hb s0 Hs0. rewrite _write_to_zip_unfold.
    specialize (Hb s0 Hs0). destruct (body s0) as [sio s'|e s']; [|exact Hb].
    cbn [wheel]. apply Forall_app; split; auto.
  - specialize (H H1 H2 H3 H4 H5 H6 (prepared w s) (Forall_nil _)).
    match type of H with match ?r with _ => _ end => destruct r end; exact H.
Qed.

(** The same for the rows of the record list. *)
Lemma records_forall (w : World) (P : RecordRow -> Prop) :
  (forall rel fed size, P (rel, hash_digest_of fed, size)) ->
  forall s, Forall P (_records s) -> Forall P (_records (state_of (build w s))).
Proof.
  intros HP s Hs.
  destruct (build_archive w s) as (_ & -> & _).
  pose proof (assemble_keeps w (fun s => Forall P (_records s))
                (fun _ s => Forall P (_records s))) as H.
  unfold assemble.
  match type of H with
  | ?a -> ?b -> ?c -> ?d -> ?e -> ?f -> _ =>
      assert (H1 : a) by auto; assert (H2 : b) by auto;
      assert (H3 : c) by auto; assert (H4 : d) by auto;
      assert (H5 : e); [|assert (H6 : f)]
  end.
  - intros full rel s0 Hs0. rewrite _add_file_unfold.
    destruct (fs w (clock s0) full); [|exact Hs0].
    destruct (fs w (S (clock s0)) full) as [f1|]; [|exact Hs0].
    destruct (S_ISDIR (st_mode f1)); [exact Hs0|].
    cbv zeta.
    destruct (fs w (S (S (S (clock s0)))) full); cbn [_records]; auto.
    apply Forall_app; split; auto.
  - intros rel body Hb s0 Hs0. rewrite _write_to_zip_unfold.
    specialize (Hb s0 Hs0). destruct (body s0) as [sio s'|e s']; [|exact Hb].
    cbn [_records]. apply Forall_app; split; auto.
  - specialize (H H1 H2 H3 H4 H5 H6 (prepared w s) Hs).
    match type of H with match ?r with _ => _ end => destruct r end; exact H.
Qed.

(* ================================================================== *)
(** * Permission bits of the members                                   *)
(* ================================================================== *)

Lemma copied_entry_bits (rel : string) (st_mode : Z) (data : bytes) :
  perm_bits (copied_entry rel st_mode data)
  = (if any_exec st_mode then mode_755 else mode_644) /\
  dos_bits (copied_entry rel st_mode data) = (if S_ISDIR st_mode then 0x10 else 0).
Proof.
  unfold perm_bits, dos_bits, copied_entry, any_exec, normalize_file_permissions.
  cbn [fst external_attr].
  destruct (Z.land st_mode mode_111 =? 0); destruct (S_ISDIR st_mode);
    split; reflexivity.
Qed.

Lemma generated_entry_bits (rel : string) (b : bytes) :
  perm_bits (generated_entry rel b) = mode_644 /\
  dos_bits (generated_entry rel b) = 0.
Proof. split; reflexivity. Qed.

Lemma copied_entry_canonical (rel : string) (st_mode : Z) (data : bytes) :
  canonical_mode (copied_entry rel st_mode data).
Proof.
  destruct (copied_entry_bits rel st_mode data) as [Hp Hd].
  unfold canonical_mode. rewrite Hp, Hd.
  repeat split.
  - destruct (any_exec st_mode); auto.
  - destruct (S_ISDIR st_mode); auto.
  - discriminate H.
  - discriminate H.
Qed.

Lemma generated_entry_canonical (rel : string) (b : bytes) :
  canonical_mode (generated_entry rel b).
Proof.
  unfold canonical_mode.
  destruct (generated_entry_bits rel b) as [-> ->]. auto.
Qed.

(** C9.  Every member [_add_file] copies carries mode 755 when some
    execute bit of the source is set and 644 otherwise, and nothing else
    of the source mode; every member [_write_to_zip] generates carries
    644; so every member of the archive, however the build ends, carries
    one of the two modes. *)
Theorem permissions_normalized (w : World) :
  (forall full_path rel_path s s',
      _add_file w full_path rel_path s = Ok tt s' ->
      exists st e,
        fs w (clock s) full_path = Some st /\
        wheel s' = wheel s ++ [e] /\
        filename (fst e) = rel_path /\
        perm_bits e = (if any_exec (st_mode st) then mode_755 else mode_644) /\
        (dos_bits e = 0 \/ dos_bits e = 0x10)) /\
  (forall rel_path body s s',
      _write_to_zip rel_path body s = Ok tt s' ->
      exists e,
        wheel s' = wheel (state_of (body s)) ++ [e] /\
        filename (fst e) = rel_path /\
        date_time (fst e) = generated_date /\
        perm_bits e = mode_644 /\ dos_bits e = 0) /\
  (forall s, Forall canonical_mode (wheel (state_of (build w s)))).
Proof.
  split; [|split].
  - intros full rel s s'. rewrite _add_file_unfold.
    destruct (fs w (clock s) full) as [st|]; [|discriminate].
    destruct (fs w (S (clock s)) full) as [f1|]; [|discriminate].
    destruct (S_ISDIR (st_mode f1)); [discriminate|].
    cbv zeta.
    destruct (fs w (S (S (S (clock s)))) full) as [f3|]; [|discriminate].
    intros [= <-]. cbn [wheel].
    eexists st, _. split; [reflexivity|]. split; [reflexivity|].
    split; [reflexivity|].
    destruct (copied_entry_bits rel (st_mode st)
                (match fs w (S (S (clock s))) full with
                 | Some f2 => content f2
                 | None => content f1
                 end)) as [Hp Hd].
    split; [exact Hp|]. rewrite Hd. destruct (S_ISDIR (st_mode st)); auto.
  - intros rel body s s'. rewrite _write_to_zip_unfold.
    destruct (body s) as [sio s1|]; [|discriminate].
    intros [= <-]. cbn [wheel state_of].
    eexists. split; [reflexivity|]. repeat split.
  - apply archive_forall.
    + apply copied_entry_canonical.
    + apply generated_entry_canonical.
Qed.

Lemma permissions_normalized_witness :
  (exists st e,
      fs Samples.demo 0 "/proj/pkg/run.sh" = Some st /\
      wheel Samples.after_run_sh = [] ++ [e] /\
      filename (fst e) = "pkg/run.sh"%string /\
      perm_bits e = (if any_exec (st_mode st) then mode_755 else mode_644) /\
      (dos_bits e = 0 \/ dos_bits e = 0x10)) /\
  (exists e,
      wheel Samples.after_metadata = [] ++ [e] /\
      filename (fst e) = "my_pkg-1.0.dist-info/METADATA"%string /\
      date_time (fst e) = generated_date /\
      perm_bits e = mode_644 /\ dos_bits e = 0).
Proof.
  destruct (permissions_normalized Samples.demo) as (Hcopy & Hgen & _).
  split.
  - apply (Hcopy "/proj/pkg/run.sh" "pkg/run.sh"
                 (new_builder Samples.demo) Samples.after_run_sh)%string.
    vm_compute. reflexivity.
  - apply (Hgen "my_pkg-1.0.dist-info/METADATA"
                (_write_metadata_file Samples.demo)
                (new_builder Samples.demo) Samples.after_metadata)%string.
    vm_compute. reflexivity.
Defined.

(* ================================================================== *)
(** * Members and rows                                                 *)
(* ================================================================== *)

Lemma assemble_split (w : World) (s : State) :
  assemble w s = bind (fill_archive w) (fun _ => _write_record w) s.
Proof.
  unfold assemble, fill_archive, bind.
  destruct (_copy_module w s) as [[] s1|]; [|reflexivity].
  destruct (_build w s1) as [[] s2|]; [|reflexivity].
  destruct (_write_metadata w s2) as [[] s3|]; reflexivity.
Qed.

Lemma _write_record_unfold (w : World) (s : State) :
  _write_record w s =
  let b := encode_utf8 (manifest_text w (_records s)) in
  Ok tt (mkState (clock s) (cwd s)
           (wheel s ++ [generated_entry (record_path w) b])
           (_records s ++
            [(record_path w, hash_digest_of b, N.of_nat (List.length b))])
           (dirs s) (disk s)).
Proof.
  unfold _write_record. rewrite _write_to_zip_unfold. reflexivity.
Qed.

Lemma linked_add_file (w : World) (full rel : string) :
  hoare (fun s => Forall2 (linked w) (wheel s) (_records s))
        (_add_file w full rel)
        (fun _ s => Forall2 (linked w) (wheel s) (_records s))
        (fun _ _ => True).
Proof.
  intros s Hs. rewrite _add_file_unfold.
  destruct (fs w (clock s) full) as [st|]; [|exact I].
  destruct (fs w (S (clock s)) full) as [f1|] eqn:E1; [|exact I].
  destruct (S_ISDIR (st_mode f1)); [exact I|].
  cbv zeta.
  destruct (fs w (S (S (S (clock s)))) full) as [f3|] eqn:E3; [|exact I].
  cbn [wheel _records]. apply Forall2_app; [exact Hs|].
  constructor; [|constructor].
  split; [reflexivity|].
  intros U. unfold row_hash, row_size, copied_entry. cbn [fst snd].
  rewrite (U full (S (S (clock s)))).
  split.
  - rewrite <- (U full (S (clock s))), E1. reflexivity.
  - rewrite <- (U full (S (S (S (clock s))))), E3. reflexivity.
Qed.

Lemma linked_write_to_zip (w : World) (rel : string) (body : M string) :
  hoare (fun s => Forall2 (linked w) (wheel s) (_records s)) body
        (fun _ s => Forall2 (linked w) (wheel s) (_records s))
        (fun _ _ => True) ->
  hoare (fun s => Forall2 (linked w) (wheel s) (_records s))
        (_write_to_zip rel body)
        (fun _ s => Forall2 (linked w) (wheel s) (_records s))
        (fun _ _ => True).
Proof.
  intros Hb s Hs. rewrite _write_to_zip_unfold.
  specialize (Hb s Hs). destruct (body s) as [sio s'|]; [|exact I].
  cbn [wheel _records]. apply Forall2_app; [exact Hb|].
  constructor; [|constructor]. split; [reflexivity|]. intros _. split; reflexivity.
Qed.

Lemma linked_fill_archive (w : World) :
  hoare (fun s => Forall2 (linked w) (wheel s) (_records s))
        (fill_archive w)
        (fun _ s => Forall2 (linked w) (wheel s) (_records s))
        (fun _ _ => True).
Proof.
  apply fill_archive_keeps; auto.
  - apply linked_add_file.
  - apply linked_write_to_zip.
Qed.

(** A successful [build] went through a successful [fill_archive] and
    wrote RECORD from the rows present at that point. *)
Lemma build_ok_inv (w : World) (s0 s : State) :
  build w s0 = Ok tt s ->
  exists s3,
    fill_archive w (prepared w s0) = Ok tt s3 /\
    wheel s = wheel s3 ++
              [generated_entry (record_path w)
                 (encode_utf8 (manifest_text w (_records s3)))] /\
    _records s = _records s3 ++
                 [(record_path w,
                   hash_digest_of (encode_utf8 (manifest_text w (_records s3))),
                   N.of_nat (List.length (encode_utf8 (manifest_text w (_records s3)))))].
Proof.
  rewrite build_unfold, assemble_split. unfold bind.
  destruct (fill_archive w (prepared w s0)) as [[] s3|]; [|discriminate].
  rewrite _write_record_unfold. cbv zeta.
  destruct (wheel_filename w) as [|name]; [discriminate|].
  intros [= <-]. exists s3. split; [reflexivity|].
  unfold moved.
  destruct (disk_get (temp_path w) _); split; reflexivity.
Qed.

Lemma linked_names (w : World) (a : Archive) (rows : list RecordRow) :
  Forall2 (linked w) a rows -> map row_path rows = names a.
Proof.
  induction 1 as [|e r a rows [Hp _] _ IH]; simpl; [reflexivity|].
  now rewrite Hp, IH.
Qed.

Lemma count_by_names (p : string) (a : Archive) (rows : list RecordRow) :
  map row_path rows = names a -> rows_at p rows = members_at p a.
Proof.
  unfold rows_at, members_at, names. revert rows.
  induction a as [|e a IH]; intros [|r rows]; simpl; try discriminate; auto.
  intros [= Hr Hrest]. rewrite Hr.
  destruct (String.eqb (filename (fst e)) p); simpl; auto.
Qed.

(** C1, amended.  After a successful build the archive is the members
    written before RECORD followed by RECORD; the text of RECORD is one
    line per row, in order, then the line of RECORD itself with empty
    hash and size, and no row for RECORD is among them; rows and members
    correspond one to one in order, a row carrying the path of its member
    and, when no source file changes during the build, the hash and the
    length of its bytes; a path has as many rows as it has members, hence
    exactly one when the member's path is not shared. *)
Theorem manifest_complete (w : World) (s : State) :
  run_build w = Ok tt s ->
  exists body rows own,
    wheel s = body ++ [generated_entry (record_path w)
                         (encode_utf8 (manifest_text w rows))] /\
    _records s = rows ++ [own] /\
    Forall2 (linked w) body rows /\
    (forall p, rows_at p rows = members_at p body).
Proof.
  unfold run_build. intros H.
  apply build_ok_inv in H. destruct H as (s3 & Hfill & Hw & Hr).
  pose proof (linked_fill_archive w (prepared w (new_builder w)) (Forall2_nil _)) as HL.
  rewrite Hfill in HL.
  exists (wheel s3), (_records s3). eexists.
  split; [exact Hw|]. split; [exact Hr|]. split; [exact HL|].
  intros p. apply count_by_names. eapply linked_names. exact HL.
Qed.

Lemma manifest_complete_witness :
  static Samples.demo /\
  exists body rows own,
    wheel Samples.demo_built =
      body ++ [generated_entry (record_path Samples.demo)
                 (encode_utf8 (manifest_text Samples.demo rows))] /\
    _records Samples.demo_built = rows ++ [own] /\
    Forall2 (linked Samples.demo) body rows /\
    (forall p, rows_at p rows = members_at p body).
Proof.
  split.
  - intros p t. reflexivity.
  - apply (manifest_complete Samples.demo Samples.demo_built).
    vm_compute. reflexivity.
Defined.

(** C1 as first stated fails: in [Samples.dup] two include rules put two
    files at the archive path [a.py]; the build succeeds, both are
    members, and each of them has two rows, not one. *)
Lemma manifest_not_one_row_per_member :
  run_build Samples.dup = Ok tt Samples.dup_built /\
  names (wheel Samples.dup_built)
  = [ "a.py"; "a.py"; "my_pkg-1.0.dist-info/entry_points.txt";
      "my_pkg-1.0.dist-info/LICENSE"; "my_pkg-1.0.dist-info/WHEEL";
      "my_pkg-1.0.dist-info/METADATA"; "my_pkg-1.0.dist-info/RECORD" ]%string /\
  ~ one_row_per_member Samples.dup Samples.dup_built.
Proof.
  split; [vm_compute; reflexivity|]. split; [vm_compute; reflexivity|].
  intros H.
  specialize (H (hd (generated_entry EmptyString []) (wheel Samples.dup_built))).
  assert (C : rows_of_member (hd (generated_entry EmptyString []) (wheel Samples.dup_built))
                (removelast (_records Samples.dup_built)) = 2%nat)
    by (vm_compute; reflexivity).
  rewrite H in C; [discriminate| vm_compute; auto | vm_compute; discriminate].
Qed.

(** Why the hash and the size are tied to the member only for sources
    that stay as they are: in [Samples.changing] a file is rewritten
    between the two passes of [_add_file], and its row carries the hash of
    the bytes read first, ["a"], next to the member ["bb"]. *)
Lemma row_of_a_rewritten_file :
  run_build Samples.changing = Ok tt Samples.changing_built /\
  hd_error (wheel Samples.changing_built)
  = Some (copied_entry "pkg/__init__.py" (Z.lor S_IFREG mode_644) (encode_utf8 "bb")) /\
  hd_error (_records Samples.changing_built)
  = Some ("pkg/__init__.py"%string, hash_digest_of (encode_utf8 "a"), 2%N) /\
  ~ one_row_per_member Samples.changing Samples.changing_built.
Proof.
  split; [vm_compute; reflexivity|]. split; [vm_compute; reflexivity|].
  split; [vm_compute; reflexivity|].
  intros H.
  specialize (H (hd (generated_entry EmptyString []) (wheel Samples.changing_built))).
  assert (C : rows_of_member (hd (generated_entry EmptyString []) (wheel Samples.changing_built))
                (removelast (_records Samples.changing_built)) = 0%nat)
    by (vm_compute; reflexivity).
  rewrite H in C; [discriminate| vm_compute; auto | vm_compute; discriminate].
Qed.

(* ================================================================== *)
(** * Hash and size of a row                                           *)
(* ================================================================== *)

Lemma hash_digest_stripped (fed : bytes) : stripped_digest (hash_digest_of fed) fed.
Proof.
  destruct (hash_digest_shape fed) as (h & H1 & H2 & H3).
  unfold stripped_digest. rewrite H1. repeat split; auto.
Qed.

Lemma linked_records_bytes (w : World) (e : ZipEntry) (r : RecordRow) :
  static w -> linked w e r ->
  row_path r = filename (fst e) /\ records_bytes r (snd e).
Proof.
  intros U [Hp Hs]. destruct (Hs U) as [Hh Hn].
  split; [exact Hp|]. split; [|exact Hn].
  rewrite Hh. apply hash_digest_stripped.
Qed.

(** C10.  The hash of every row is the URL-safe base64 form of a SHA-256
    digest without its ['='] padding, however the build ends.  The row
    [_add_file] appends carries the archive path, the digest of the bytes
    of the file as it is when it is opened (the second file-system
    access), which are the bytes the read loop feeds to the hash, and the
    size a fresh [os.stat] returns after the member was written (the
    fourth access); when the file is the same at every instant both are
    the hash and the length of the bytes of the member.  The row
    [_write_to_zip] appends always carries the hash and the length of the
    bytes of the member it writes.  So after a successful build of
    sources that do not change, members and rows go in pairs, each row
    with the path of its member, the digest of its bytes and their
    length. *)
Theorem record_hash_and_size (w : World) :
  Forall (fun r => exists fed, stripped_digest (row_hash r) fed)
         (_records (state_of (run_build w))) /\
  (forall full_path rel_path s s',
      _add_file w full_path rel_path s = Ok tt s' ->
      exists hashed stat e r,
        fs w (1 + clock s) full_path = Some hashed /\
        fs w (3 + clock s) full_path = Some stat /\
        wheel s' = wheel s ++ [e] /\
        _records s' = _records s ++ [r] /\
        row_path r = rel_path /\
        stripped_digest (row_hash r) (content hashed) /\
        row_size r = st_size stat /\
        (unchanged w full_path -> records_bytes r (snd e))) /\
  (forall rel_path body s s',
      _write_to_zip rel_path body s = Ok tt s' ->
      exists e r,
        wheel s' = wheel (state_of (body s)) ++ [e] /\
        _records s' = _records (state_of (body s)) ++ [r] /\
        row_path r = rel_path /\
        records_bytes r (snd e)) /\
  (static w ->
   forall s, run_build w = Ok tt s ->
     Forall2 (fun e r => row_path r = filename (fst e) /\ records_bytes r (snd e))
             (wheel s) (_records s)).
Proof.
  split; [|split; [|split]].
  - unfold run_build. apply records_forall.
    + intros rel fed size. exists fed. apply hash_digest_stripped.
    + constructor.
  - intros full rel s s'. rewrite _add_file_unfold.
    destruct (fs w (clock s) full) as [st|]; [|discriminate].
    cbn [Nat.add].
    destruct (fs w (S (clock s)) full) as [f1|] eqn:E1; [|discriminate].
    destruct (S_ISDIR (st_mode f1)); [discriminate|].
    cbv zeta.
    destruct (fs w (S (S (S (clock s)))) full) as [f3|] eqn:E3; [|discriminate].
    intros H. apply ok_inv in H. destruct H as [_ <-]. cbn [wheel _records].
    exists f1, f3. eexists _, _.
    split; [reflexivity|]. split; [reflexivity|]. split; [reflexivity|].
    split; [reflexivity|]. split; [reflexivity|].
    split; [apply hash_digest_stripped|]. split; [reflexivity|].
    intros U. unfold records_bytes, row_hash, row_size, copied_entry. cbn [fst snd].
    rewrite (U (S (S (clock s)))).
    assert (H1 : fs w 0 full = Some f1) by (now rewrite <- (U (S (clock s)))).
    assert (H3 : fs w 0 full = Some f3) by (now rewrite <- (U (S (S (S (clock s)))))).
    rewrite H1. split; [apply hash_digest_stripped|].
    rewrite H1 in H3. injection H3 as <-. reflexivity.
  - intros rel body s s'. rewrite _write_to_zip_unfold.
    destruct (body s) as [sio s1|]; [|discriminate].
    cbv zeta. intros H. apply ok_inv in H. destruct H as [_ <-].
    cbn [wheel _records state_of].
    eexists _, _. split; [reflexivity|]. split; [reflexivity|].
    split; [reflexivity|]. split; [apply hash_digest_stripped|reflexivity].
  - intros U s H. unfold run_build in H.
    apply build_ok_inv in H. destruct H as (s3 & Hfill & Hw & Hr).
    pose proof (linked_fill_archive w (prepared w (new_builder w)) (Forall2_nil _))
      as HL.
    rewrite Hfill in HL. rewrite Hw, Hr.
    apply Forall2_app.
    + eapply Forall2_impl; [|exact HL].
      intros e r. now apply linked_records_bytes.
    + constructor; [|constructor]. split; [reflexivity|].
      split; [apply hash_digest_stripped|reflexivity].
Qed.

Lemma record_hash_and_size_witness :
  (exists hashed stat e r,
      fs Samples.demo 1 "/proj/pkg/run.sh" = Some hashed /\
      fs Samples.demo 3 "/proj/pkg/run.sh" = Some stat /\
      wheel Samples.after_run_sh = [] ++ [e] /\
      _records Samples.after_run_sh = [] ++ [r] /\
      r = ("pkg/run.sh", "Ovca2yeK1K8zwUS3j6GucI2gO3c9mDJK6ZGn2u21PKI", 9%N)%string /\
      snd e = encode_utf8 "#!/bin/sh" /\
      stripped_digest (row_hash r) (content hashed) /\
      records_bytes r (snd e)) /\
  firstn 4 (_records Samples.demo_built)
  = [ ("pkg/__init__.py", "47DEQpj8HBSa-_TImW-5JCeuQeRkm5NMpJWZG3hSuFU", 0%N);
      ("pkg/data.bin", "Om6weQ85rIfJTzhWst0sXREOaBFgImGpqSPTuyOtyLc", 4%N);
      ("pkg/main.py", "0oe7f50Vq9xbbphTYmOBV0S27yHI88g5_ENMpw2O_pk", 8%N);
      ("pkg/run.sh", "Ovca2yeK1K8zwUS3j6GucI2gO3c9mDJK6ZGn2u21PKI", 9%N) ]%string /\
  Forall2 (fun e r => row_path r = filename (fst e) /\ records_bytes r (snd e))
          (wheel Samples.demo_built) (_records Samples.demo_built).
Proof.
  destruct (record_hash_and_size Samples.demo) as (_ & Hcopy & _ & Hall).
  split; [|split].
  - destruct (Hcopy "/proj/pkg/run.sh" "pkg/run.sh"
                    (new_builder Samples.demo) Samples.after_run_sh)%string
      as (hashed & stat & e & r & H1 & H2 & H3 & H4 & H5 & H6 & H7 & H8).
    + vm_compute. reflexivity.
    + exists hashed, stat, e, r.
      split; [exact H1|]. split; [exact H2|]. split; [exact H3|].
      split; [exact H4|].
      assert (He : [e] = wheel Samples.after_run_sh) by (now rewrite H3).
      assert (Hr : [r] = _records Samples.after_run_sh) by (now rewrite H4).
      vm_compute in He. vm_compute in Hr.
      injection He as ->. injection Hr as ->.
      split; [vm_compute; reflexivity|]. split; [vm_compute; reflexivity|].
      split; [exact H6|]. apply H8. intros t. reflexivity.
  - vm_compute. reflexivity.
  - apply Hall.
    + intros p t. reflexivity.
    + vm_compute. reflexivity.
Defined.

(* ================================================================== *)
(** * Order of the members and of the rows                             *)
(* ================================================================== *)

Lemma StronglySorted_map {A B} (f : A -> B) (R : B -> B -> Prop) (l : list A) :
  StronglySorted (fun x y => R (f x) (f y)) l -> StronglySorted R (map f l).
Proof.
  induction 1 as [|x l Hs IH Hall]; simpl; constructor; auto.
  rewrite Forall_map. exact Hall.
Qed.

Lemma add_files_names (w : World) (l : list (Path * Path)) :
  forall s s',
    for_each l (fun x => _add_file w (path_str (fst x)) (path_str (snd x))) s
    = Ok tt s' ->
    names (wheel s') = names (wheel s) ++ map path_str (map snd l) /\
    map row_path (_records s') =
      map row_path (_records s) ++ map path_str (map snd l).
Proof.
  induction l as [|x l IH]; intros s s' H; simpl in H.
  - injection H as <-. simpl. now rewrite !app_nil_r.
  - apply bind_ok in H. destruct H as ([] & s1 & H1 & H2).
    apply IH in H2. destruct H2 as [Hn Hr].
    rewrite _add_file_unfold in H1.
    destruct (fs w (clock s) (path_str (fst x))); [|discriminate].
    destruct (fs w (S (clock s)) (path_str (fst x))) as [f1|]; [|discriminate].
    destruct (S_ISDIR (st_mode f1)); [discriminate|].
    cbv zeta in H1.
    destruct (fs w (S (S (S (clock s)))) (path_str (fst x))); [|discriminate].
    injection H1 as <-. cbn [wheel _records] in Hn, Hr.
    rewrite Hn, Hr. unfold names. rewrite !map_app, <- !app_assoc. simpl.
    split; reflexivity.
Qed.

Lemma collect_leaves_archive (w : World) (s : State) :
  match for_fold (includes w) (collect_include w) [] s with
  | Ok _ s1 => wheel s1 = wheel s /\ _records s1 = _records s
  | Raise _ _ => True
  end.
Proof.
  apply (collect_keeps w (fun s1 => wheel s1 = wheel s /\ _records s1 = _records s)
           (fun _ _ => True)); auto.
Qed.

Lemma assemble_appends (w : World) (s : State) :
  exists members rows,
    wheel (state_of (assemble w s)) = wheel s ++ members /\
    _records (state_of (assemble w s)) = _records s ++ rows.
Proof.
  pose proof (assemble_keeps w
    (fun s1 => exists members rows,
         wheel s1 = wheel s ++ members /\ _records s1 = _records s ++ rows)
    (fun _ s1 => exists members rows,
         wheel s1 = wheel s ++ members /\ _records s1 = _records s ++ rows)) as H.
  match type of H with
  | ?a -> ?b -> ?c -> ?d -> ?e -> ?f -> _ =>
      assert (H1 : a) by auto; assert (H2 : b) by auto;
      assert (H3 : c) by auto; assert (H4 : d) by auto;
      assert (H5 : e); [|assert (H6 : f)]
  end.
  - intros full rel s0 (ms & rs & Hw & Hr). rewrite _add_file_unfold.
    destruct (fs w (clock s0) full); [|now exists ms, rs].
    destruct (fs w (S (clock s0)) full) as [f1|]; [|now exists ms, rs].
    destruct (S_ISDIR (st_mode f1)); [now exists ms, rs|].
    cbv zeta.
    destruct (fs w (S (S (S (clock s0)))) full); cbn [wheel _records];
      rewrite Hw, Hr, <- ?app_assoc; eauto.
  - intros rel body Hb s0 Hs0. rewrite _write_to_zip_unfold.
    specialize (Hb s0 Hs0). destruct (body s0) as [sio s'|e s']; [|exact Hb].
    destruct Hb as (ms & rs & Hw & Hr). cbn [wheel _records].
    rewrite Hw, Hr, <- !app_assoc. eauto.
  - specialize (H H1 H2 H3 H4 H5 H6 s).
    unfold assemble.
    match type of H with
    | _ -> match ?r with _ => _ end => destruct r
    end; apply H; exists [], []; now rewrite !app_nil_r.
Qed.

(** C3, amended.  [_copy_module] adds the collected files in ascending
    order of their relative path compared as a path, that is component by
    component; the rows are appended in the order the members are
    written, by every step of the build; on success the paths of the rows
    are the names of the members, in the same order. *)
Theorem write_order (w : World) :
  (forall s s',
      _copy_module w s = Ok tt s' ->
      exists to_add s1 rels,
        for_fold (includes w) (collect_include w) [] s = Ok to_add s1 /\
        Permutation (map snd to_add) rels /\
        StronglySorted path_le rels /\
        names (wheel s') = names (wheel s) ++ map path_str rels /\
        map row_path (_records s') = map row_path (_records s) ++ map path_str rels) /\
  (forall s, run_build w = Ok tt s -> map row_path (_records s) = names (wheel s)) /\
  (forall s, exists members rows,
      wheel (state_of (assemble w s)) = wheel s ++ members /\
      _records (state_of (assemble w s)) = _records s ++ rows).
Proof.
  split; [|split].
  - intros s s' H. unfold _copy_module in H.
    apply bind_ok in H. destruct H as (to_add & s1 & Hc & Hadd).
    pose proof (collect_leaves_archive w s) as Hleave. rewrite Hc in Hleave.
    destruct Hleave as [Hw Hr].
    apply add_files_names in Hadd. rewrite Hw, Hr in Hadd.
    exists to_add, s1, (map snd (sorted snd path_ltb to_add)).
    split; [exact Hc|]. split; [|split; [|exact Hadd]].
    + apply Permutation_map. apply sorted_perm.
    + apply StronglySorted_map.
      apply (sorted_sorted _ _ snd path_ltb path_ltb_asym).
      intros a b c. apply (path_le_trans a b c).
  - intros s H. unfold run_build in H. apply build_ok_inv in H.
    destruct H as (s3 & Hfill & Hw & Hr).
    pose proof (linked_fill_archive w (prepared w (new_builder w)) (Forall2_nil _)) as HL.
    rewrite Hfill in HL. apply linked_names in HL.
    rewrite Hw, Hr. unfold names in *. rewrite !map_app, HL. reflexivity.
  - apply assemble_appends.
Qed.

Lemma write_order_witness :
  (exists to_add s1 rels,
      for_fold (includes Samples.demo) (collect_include Samples.demo) []
               (new_builder Samples.demo) = Ok to_add s1 /\
      Permutation (map snd to_add) rels /\
      StronglySorted path_le rels /\
      names (wheel Samples.demo_copied) = [] ++ map path_str rels /\
      map row_path (_records Samples.demo_copied) = [] ++ map path_str rels) /\
  map row_path (_records Samples.demo_built) = names (wheel Samples.demo_built).
Proof.
  destruct (write_order Samples.demo) as (Hcopy & Hbuilt & _).
  split.
  - apply (Hcopy (new_builder Samples.demo) Samples.demo_copied).
    vm_compute. reflexivity.
  - apply (Hbuilt Samples.demo_built). vm_compute. reflexivity.
Defined.

(** C3 as first stated, with the archive path read as a string, fails:
    [foo/__init__.py] is written before [foo-stubs/__init__.pyi] because
    the component [foo] is smaller than [foo-stubs], while as strings the
    second is the smaller one (['-'] comes before ['/']). *)
Lemma write_order_not_by_string :
  _copy_module Samples.order (new_builder Samples.order) = Ok tt Samples.order_copied /\
  names (wheel Samples.order_copied)
  = ["foo/__init__.py"; "foo-stubs/__init__.pyi"]%string /\
  ~ ascending_strings (names (wheel Samples.order_copied)).
Proof.
  split; [vm_compute; reflexivity|]. split; [vm_compute; reflexivity|].
  intros H. vm_compute in H.
  inversion H as [|a l _ Hall]; subst.
  inversion Hall as [|b l' Hab _]; subst.
  discriminate Hab.
Qed.

(* ================================================================== *)
(** * Collecting: duplicates                                           *)
(* ================================================================== *)

Lemma existsb_pair_In (x : Path * Path) (l : list (Path * Path)) :
  existsb (pair_eqb x) l = true <-> In x l.
Proof.
  rewrite existsb_exists. split.
  - intros (y & Hy & Heq). apply pair_eqb_eq in Heq. now subst.
  - intros H. exists x. split; [exact H|]. now apply pair_eqb_eq.
Qed.

Lemma collect_file_collectable (w : World) (include : Include)
      (to_add : list (Path * Path)) (file rel : Path) (s : State) :
  collectable w include file rel s ->
  collect_file w include to_add file s =
  Ok (if existsb (pair_eqb (file, rel)) to_add then to_add
      else to_add ++ [(file, rel)]) (tick s).
Proof.
  intros (Hc & Hd & Hrel & Hex & Hsuf).
  unfold collect_file. rewrite Hc. unfold bind, is_dir.
  unfold rel_file_of in Hrel.
  destruct (fs w (clock s) (path_str file)) as [f|].
  - rewrite Hd.
    destruct (is_package_include include && truthy (source include));
      unfold relative_to_M; rewrite Hrel; cbn [ret]; rewrite Hex, Hsuf;
      destruct (existsb _ _); reflexivity.
  - destruct (is_package_include include && truthy (source include));
      unfold relative_to_M; rewrite Hrel; cbn [ret]; rewrite Hex, Hsuf;
      destruct (existsb _ _); reflexivity.
Qed.

(** Whatever [collect_file] returns is the list it was given, or that list
    with one new pair at its end. *)
Lemma collect_file_cases (w : World) (include : Include)
      (to_add : list (Path * Path)) (file : Path) (s : State) r s' :
  collect_file w include to_add file s = Ok r s' ->
  r = to_add \/
  exists rel, r = to_add ++ [(file, rel)] /\ ~ In (file, rel) to_add.
Proof.
  unfold collect_file.
  destruct (contains _ _); [intros [= <- _]; now left|].
  unfold bind. destruct (is_dir w file s) as [d s1|]; [|discriminate].
  destruct d; [intros [= <- _]; now left|].
  match goal with
  | |- context [match ?m s1 with _ => _ end] => destruct (m s1) as [rel s2|]
  end; [|discriminate].
  destruct (_ && _); [intros [= <- _]; now left|].
  destruct (String.eqb _ _); [intros [= <- _]; now left|].
  destruct (existsb _ _) eqn:Hex; intros [= <- _]; [now left|].
  right. exists rel. split; [reflexivity|].
  intros Hin. apply existsb_pair_In in Hin. congruence.
Qed.

Lemma for_fold_value {A B} (P : B -> Prop) (body : B -> A -> M B) (l : list A) :
  (forall b x s b' s', P b -> body b x s = Ok b' s' -> P b') ->
  forall b s b' s', P b -> for_fold l body b s = Ok b' s' -> P b'.
Proof.
  intros Hbody. induction l as [|x l IH]; intros b s b' s' Hb H; simpl in H.
  - now injection H as <- _.
  - apply bind_ok in H. destruct H as (b1 & s1 & H1 & H2).
    eapply IH; [|exact H2]. eapply Hbody; eauto.
Qed.

Lemma NoDup_snoc {A} (l : list A) (x : A) : NoDup l -> ~ In x l -> NoDup (l ++ [x]).
Proof.
  intros Hl Hx. apply NoDup_rev in Hl. rewrite <- (rev_involutive (l ++ [x])).
  apply NoDup_rev. rewrite rev_app_distr. simpl. constructor; [|exact Hl].
  now rewrite <- in_rev.
Qed.

(** A [for] loop that threads a local variable ends with [Q] of the
    variable when the round of [a] establishes [Q] and every round keeps
    it. *)
Lemma for_fold_reaches {A B} (Q : B -> Prop) (body : B -> A -> M B) (a : A)
      (l : list A) :
  In a l ->
  (forall b s b1 s1, body b a s = Ok b1 s1 -> Q b1) ->
  (forall b x s b1 s1, Q b -> body b x s = Ok b1 s1 -> Q b1) ->
  forall b s b' s', for_fold l body b s = Ok b' s' -> Q b'.
Proof.
  intros Hin Ha Hkeep. induction l as [|x l IH]; [contradiction|].
  intros b s b' s' H. simpl in H. apply bind_ok in H.
  destruct H as (b1 & s1 & H1 & H2). destruct Hin as [->|Hin].
  - eapply (for_fold_value Q body l); [exact Hkeep| |exact H2].
    eapply Ha; exact H1.
  - eapply IH; eauto.
Qed.

Lemma collect_file_keeps_in (w : World) (include : Include) (x : Path * Path)
      (to_add : list (Path * Path)) (file : Path) (s : State) r s' :
  In x to_add -> collect_file w include to_add file s = Ok r s' -> In x r.
Proof.
  intros Hx H. apply collect_file_cases in H.
  destruct H as [->|(rel & -> & _)]; [exact Hx|].
  apply in_or_app. now left.
Qed.

Lemma collect_include_keeps_in (w : World) (x : Path * Path)
      (to_add : list (Path * Path)) (include : Include) (s : State) r s' :
  In x to_add -> collect_include w to_add include s = Ok r s' -> In x r.
Proof.
  intros Hx. unfold collect_include. destruct (_ && _); [now intros [= <- _]|].
  apply (for_fold_value (fun l : list (Path * Path) => In x l)
           (collect_file w include) (elements include)); [|exact Hx].
  intros b f s0 b' s0' Hb Hf. eapply collect_file_keeps_in; eauto.
Qed.

(** The pair of a file that gets through the filters, whenever it is
    looked at, is in the collection the loops return. *)
Lemma passing_file_collected (w : World) (include : Include) (file rel : Path) :
  In include (includes w) -> wheel_rule include = true ->
  In file (elements include) ->
  (forall s, collectable w include file rel s) ->
  forall s to_add s1,
    for_fold (includes w) (collect_include w) [] s = Ok to_add s1 ->
    In (file, rel) to_add.
Proof.
  intros Hinc Hrule Hfile Hpass s to_add s1.
  apply (for_fold_reaches (fun l : list (Path * Path) => In (file, rel) l)
           (collect_include w) include (includes w) Hinc).
  - intros b s0 b1 s2. unfold collect_include.
    assert (Hg : negb (match formats include with [] => true | _ => false end)
                 && negb (mem_string "wheel" (formats include)) = false).
    { unfold wheel_rule in Hrule. destruct (formats include); [reflexivity|].
      rewrite Hrule. reflexivity. }
    rewrite Hg.
    apply (for_fold_reaches (fun l : list (Path * Path) => In (file, rel) l)
             (collect_file w include) file (elements include) Hfile).
    + intros c s3 c1 s4 Hc.
      rewrite (collect_file_collectable w include c file rel s3 (Hpass s3)) in Hc.
      injection Hc as <- _. destruct (existsb _ _) eqn:E.
      * now apply existsb_pair_In.
      * apply in_or_app. right. now left.
    + intros c x s3 c1 s4 Hc Hx. eapply collect_file_keeps_in; eauto.
  - intros b x s0 b1 s2 Hb Hx. eapply collect_include_keeps_in; eauto.
Qed.

Lemma collected_once (w : World) (s s1 : State) (to_add : list (Path * Path)) :
  for_fold (includes w) (collect_include w) [] s = Ok to_add s1 -> NoDup to_add.
Proof.
  intros H.
  apply (for_fold_value (fun l : list (Path * Path) => NoDup l)
           (collect_include w) (includes w)) with (b := []) (s := s) (s' := s1);
    [|constructor|exact H].
  intros b include s0 b' s0' Hb. unfold collect_include.
  destruct (_ && _); [now intros [= <- _]|].
  apply (for_fold_value (fun l : list (Path * Path) => NoDup l)
           (collect_file w include) (elements include)); [|exact Hb].
  intros c file s2 c' s2' Hc Hf.
  apply collect_file_cases in Hf. destruct Hf as [->|(rel & -> & Hnew)]; auto.
  now apply NoDup_snoc.
Qed.

(** C4.  A file that gets through the filters and whose (file, relative
    path) pair is already collected leaves the collection as it is, and
    raises nothing; when its pair is not there yet the pair is appended,
    also when another file is already collected under the same relative
    path, in which case both stay; so the collection never holds the same
    pair twice.  Over the whole of the two loops: the pair of a file that
    gets through the filters, listed by a rule that is not scoped to
    other formats, is in the collection that is returned, and it is
    there once, however many rules and listings produce it and whatever
    other files share its relative path. *)
Theorem collect_dedup (w : World) :
  (forall include to_add file rel s,
      collectable w include file rel s ->
      In (file, rel) to_add ->
      collect_file w include to_add file s = Ok to_add (tick s)) /\
  (forall include to_add file other rel s,
      collectable w include file rel s ->
      In (other, rel) to_add -> ~ In (file, rel) to_add ->
      exists to_add',
        collect_file w include to_add file s = Ok to_add' (tick s) /\
        to_add' = to_add ++ [(file, rel)] /\
        In (other, rel) to_add' /\ In (file, rel) to_add') /\
  (forall s to_add s1,
      for_fold (includes w) (collect_include w) [] s = Ok to_add s1 ->
      NoDup to_add) /\
  (forall include file rel,
      In include (includes w) -> wheel_rule include = true ->
      In file (elements include) ->
      (forall s, collectable w include file rel s) ->
      forall s to_add s1,
        for_fold (includes w) (collect_include w) [] s = Ok to_add s1 ->
        exists before after,
          to_add = before ++ (file, rel) :: after /\
          ~ In (file, rel) before /\ ~ In (file, rel) after).
Proof.
  split; [|split; [|split]].
  - intros include to_add file rel s Hc Hin.
    rewrite (collect_file_collectable w include to_add file rel s Hc).
    apply existsb_pair_In in Hin. now rewrite Hin.
  - intros include to_add file other rel s Hc Hother Hnew.
    exists (to_add ++ [(file, rel)]).
    rewrite (collect_file_collectable w include to_add file rel s Hc).
    destruct (existsb (pair_eqb (file, rel)) to_add) eqn:Hex.
    + apply existsb_pair_In in Hex. contradiction.
    + split; [reflexivity|]. split; [reflexivity|].
      rewrite !in_app_iff. simpl. auto.
  - intros s to_add s1 H. exact (@collected_once w s s1 to_add H).
  - intros include file rel Hinc Hrule Hfile Hpass s to_add s1 H.
    pose proof (@passing_file_collected w include file rel Hinc Hrule Hfile Hpass
                  s to_add s1 H) as Hin.
    pose proof (@collected_once w s s1 to_add H) as Hnd.
    apply in_split in Hin. destruct Hin as (before & after & ->).
    exists before, after. split; [reflexivity|].
    apply NoDup_remove_2 in Hnd. rewrite in_app_iff in Hnd. tauto.
Qed.

Lemma collect_dedup_witness :
  (collect_file Samples.dup Samples.dup_src_include
                [(Samples.src_a, Samples.rel_a)] Samples.src_a
                (new_builder Samples.dup)
   = Ok [(Samples.src_a, Samples.rel_a)] (tick (new_builder Samples.dup)) /\
   exists to_add',
     collect_file Samples.dup Samples.dup_root_include
                  [(Samples.src_a, Samples.rel_a)] Samples.root_a
                  (new_builder Samples.dup)
     = Ok to_add' (tick (new_builder Samples.dup)) /\
     to_add' = [(Samples.src_a, Samples.rel_a)] ++ [(Samples.root_a, Samples.rel_a)] /\
     In (Samples.src_a, Samples.rel_a) to_add' /\
     In (Samples.root_a, Samples.rel_a) to_add') /\
  exists s1,
    for_fold (includes Samples.twice) (collect_include Samples.twice) []
             (new_builder Samples.twice)
    = Ok [(Samples.src_a, Samples.rel_a); (Samples.root_a, Samples.rel_a)] s1 /\
    (exists before after,
        [(Samples.src_a, Samples.rel_a); (Samples.root_a, Samples.rel_a)]
        = before ++ (Samples.src_a, Samples.rel_a) :: after /\
        ~ In (Samples.src_a, Samples.rel_a) before /\
        ~ In (Samples.src_a, Samples.rel_a) after) /\
    (exists before after,
        [(Samples.src_a, Samples.rel_a); (Samples.root_a, Samples.rel_a)]
        = before ++ (Samples.root_a, Samples.rel_a) :: after /\
        ~ In (Samples.root_a, Samples.rel_a) before /\
        ~ In (Samples.root_a, Samples.rel_a) after).
Proof.
  destruct (collect_dedup Samples.dup) as (Hdrop & Hkeep & _).
  destruct (collect_dedup Samples.twice) as (_ & _ & _ & Hloop).
  split; [split|].
  - apply (Hdrop _ _ _ Samples.rel_a).
    + repeat split; vm_compute; reflexivity.
    + simpl. auto.
  - apply (Hkeep _ _ _ Samples.src_a Samples.rel_a).
    + repeat split; vm_compute; reflexivity.
    + simpl. auto.
    + simpl. intros [H|[]]. vm_compute in H. discriminate H.
  - eexists. split; [vm_compute; reflexivity|]. split.
    + apply (Hloop Samples.dup_src_include Samples.src_a Samples.rel_a)
        with (s := new_builder Samples.twice)
             (s1 := state_of (for_fold (includes Samples.twice)
                                (collect_include Samples.twice) []
                                (new_builder Samples.twice))).
      * simpl. auto.
      * reflexivity.
      * simpl. auto.
      * intros s. repeat split; vm_compute; reflexivity.
      * vm_compute. reflexivity.
    + apply (Hloop Samples.dup_root_include Samples.root_a Samples.rel_a)
        with (s := new_builder Samples.twice)
             (s1 := state_of (for_fold (includes Samples.twice)
                                (collect_include Samples.twice) []
                                (new_builder Samples.twice))).
      * simpl. auto.
      * reflexivity.
      * simpl. auto.
      * intros s. repeat split; vm_compute; reflexivity.
      * vm_compute. reflexivity.
Defined.

(* ================================================================== *)
(** * The tag                                                          *)
(* ================================================================== *)

(** C2.  Without a build script the tag is [py2.py3-none-any] when the
    Python constraint of the package allows some version of the range
    [>=2.0.0 <3.0.0] and [py3-none-any] otherwise; with a build script it
    is the first triple of [sys_tags()], joined with ['-'].  The tag
    depends on nothing but the build script, the answer of the constraint
    and the host's tags, and [tag] neither reads nor changes the state of
    the builder. *)
Theorem tag_resolution (w : World) :
  (truthy (build_script w) = false ->
   tag w = inr (if python_allows_any w ">=2.0.0 <3.0.0"
                then "py2.py3-none-any"%string else "py3-none-any"%string)) /\
  (truthy (build_script w) = true ->
   forall interpreter abi platform rest,
     sys_tags w = (interpreter, abi, platform) :: rest ->
     tag w = inr (interpreter ++ "-" ++ abi ++ "-" ++ platform)%string) /\
  (forall w',
      build_script w' = build_script w ->
      python_allows_any w' ">=2.0.0 <3.0.0" = python_allows_any w ">=2.0.0 <3.0.0" ->
      sys_tags w' = sys_tags w ->
      tag w' = tag w).
Proof.
  split; [|split].
  - intros H. unfold tag, supports_python2. rewrite H.
    destruct (python_allows_any w ">=2.0.0 <3.0.0"); reflexivity.
  - intros H interpreter abi platform rest Htags.
    unfold tag. rewrite H, Htags. reflexivity.
  - intros w' Hb Hp Ht. unfold tag, supports_python2. now rewrite Hb, Hp, Ht.
Qed.

Lemma tag_resolution_witness :
  tag Samples.demo = inr "py3-none-any"%string /\
  tag Samples.legacy = inr "py2.py3-none-any"%string /\
  tag Samples.native = inr "cp38-cp38-manylinux1_x86_64"%string /\
  tag Samples.changing = tag Samples.demo.
Proof.
  split; [|split; [|split]].
  - apply (proj1 (tag_resolution Samples.demo)). reflexivity.
  - apply (proj1 (tag_resolution Samples.legacy)). reflexivity.
  - apply (proj1 (proj2 (tag_resolution Samples.native)) eq_refl
             "cp38" "cp38" "manylinux1_x86_64" [("py3", "none", "any")])%string.
    reflexivity.
  - apply (proj2 (proj2 (tag_resolution Samples.demo))); reflexivity.
Defined.

(* ================================================================== *)
(** * Entry points                                                     *)
(* ================================================================== *)

Lemma append_inj_l (a b c : string) : (a ++ b = a ++ c)%string -> b = c.
Proof.
  induction a as [|x a IH]; simpl; [auto|]. intros [= H]. auto.
Qed.

Lemma remove_char_app (c : ascii) (a b : string) :
  remove_char c (a ++ b) = (remove_char c a ++ remove_char c b)%string.
Proof.
  induction a as [|x a IH]; simpl; [reflexivity|].
  destruct (Ascii.eqb x c); simpl; now rewrite IH.
Qed.

Lemma remove_char_absent (c : ascii) (s : string) :
  has_char c s = false -> remove_char c s = s.
Proof.
  induction s as [|x s IH]; simpl; [reflexivity|].
  destruct (Ascii.eqb x c); simpl; [discriminate|].
  intros H. now rewrite IH.
Qed.

Lemma mem_string_In (x : string) (l : list string) :
  mem_string x l = true <-> In x l.
Proof.
  unfold mem_string. rewrite existsb_exists. split.
  - intros (y & Hy & Heq). apply String.eqb_eq in Heq. now subst.
  - intros H. exists x. split; [exact H|]. apply String.eqb_refl.
Qed.

(** The license loop only adds copied members. *)
Lemma license_loop_copies (w : World) (s : State) :
  match
    for_each ["COPYING"; "LICENSE"]%string (fun base =>
      for_each (sorted (fun x => x) path_ltb (glob w (_path w) (base ++ "*")))
        (fun path => _add_file w (path_str path)
                               (dist_info w ++ "/" ++ path_name path))) s
  with
  | Ok _ s' =>
      exists ms, wheel s' = wheel s ++ ms /\
                 Forall (fun e => date_time (fst e) = default_date_time) ms
  | Raise _ _ => True
  end.
Proof.
  apply (hoare_for_each
           (fun s' => exists ms, wheel s' = wheel s ++ ms /\
                        Forall (fun e => date_time (fst e) = default_date_time) ms)
           _ _ (fun _ _ => True)).
  - intros base _. apply hoare_for_each. intros path _ s0 (ms & Hw & Hms).
    rewrite _add_file_unfold.
    destruct (fs w (clock s0) (path_str path)); [|exact I].
    destruct (fs w (S (clock s0)) (path_str path)) as [f1|]; [|exact I].
    destruct (S_ISDIR (st_mode f1)); [exact I|].
    cbv zeta.
    destruct (fs w (S (S (S (clock s0)))) (path_str path)); [|exact I].
    cbn [wheel]. eexists. rewrite Hw, <- app_assoc. split; [reflexivity|].
    apply Forall_app. split; [exact Hms|]. repeat constructor.
  - exists []. now rewrite app_nil_r.
Qed.

(** The members [_write_metadata] adds when it succeeds. *)
Lemma _write_metadata_ok (w : World) (s s' : State) :
  _write_metadata w s = Ok tt s' ->
  exists licenses wheel_text,
    wheel s' =
      wheel s
      ++ (if declares_entry_points w
          then [generated_entry (entry_points_path w)
                  (encode_utf8 (String.concat EmptyString
                     (map (render_group (entry_points w))
                          (sorted (fun x => x) str_ltb (map fst (entry_points w))))))]
          else [])
      ++ licenses
      ++ [generated_entry (dist_info w ++ "/WHEEL") wheel_text;
          generated_entry (dist_info w ++ "/METADATA")
                          (encode_utf8 (metadata_content w))] /\
    Forall (fun e => date_time (fst e) = default_date_time) licenses.
Proof.
  unfold _write_metadata. intros H.
  apply bind_ok in H. destruct H as ([] & s1 & H1 & H).
  apply bind_ok in H. destruct H as ([] & s2 & H2 & H).
  apply bind_ok in H. destruct H as ([] & s3 & H3 & H4).
  pose proof (license_loop_copies w s1) as HL. rewrite H2 in HL.
  destruct HL as (licenses & Hw2 & Hlic).
  rewrite _write_to_zip_unfold in H3, H4.
  destruct (_write_wheel_file w s2) as [text s2'|] eqn:Hwf; [|discriminate].
  assert (s2' = s2) as ->.
  { unfold _write_wheel_file, bind, of_sum in Hwf.
    destruct (tag w); simpl in Hwf; [discriminate|]. now injection Hwf as _ <-. }
  cbv zeta in H3. injection H3 as <-.
  unfold _write_metadata_file, ret in H4. cbv zeta in H4. injection H4 as <-.
  cbn [wheel]. exists licenses, (encode_utf8 text).
  split; [|exact Hlic].
  rewrite Hw2.
  destruct (declares_entry_points w).
  - rewrite _write_to_zip_unfold in H1. unfold _write_entry_points, ret in H1.
    cbv zeta in H1. injection H1 as <-. cbn [wheel].
    rewrite <- !app_assoc. reflexivity.
  - injection H1 as <-. rewrite <- !app_assoc. reflexivity.
Qed.

Lemma declares_iff (w : World) :
  declares_entry_points w = true <->
  In "scripts"%string (local_config w) \/ In "plugins"%string (local_config w).
Proof.
  unfold declares_entry_points. now rewrite orb_true_iff, !mem_string_In.
Qed.

Lemma remove_char_clean (c : ascii) (s : string) :
  has_char c (remove_char c s) = false.
Proof.
  induction s as [|x s IH]; simpl; [reflexivity|].
  destruct (Ascii.eqb x c) eqn:E; simpl; [exact IH|]. now rewrite E.
Qed.

Lemma append_assoc' (a b c : string) : ((a ++ b) ++ c = a ++ b ++ c)%string.
Proof. induction a as [|x a IH]; simpl; [reflexivity|]. now rewrite IH. Qed.

(** C7, amended.  [_write_metadata] generates the entry-points file
    exactly when ["scripts"] or ["plugins"] is a key of the project's
    configuration; its text is one section per group, the groups in
    ascending order, the entries of a group in ascending order, each entry
    on its own line with all of its spaces removed: [name = target] is
    written [name=target] when neither side holds a space, and a space
    inside the name or the target goes as well. *)
Theorem entry_points_file (w : World) :
  (forall s s',
      _write_metadata w s = Ok tt s' ->
      exists added,
        wheel s' = wheel s ++ added /\
        (entry_points_written w added <->
         In "scripts"%string (local_config w) \/ In "plugins"%string (local_config w)) /\
        (declares_entry_points w = true ->
         exists text,
           _write_entry_points w s = Ok text s /\
           hd_error added =
             Some (generated_entry (entry_points_path w) (encode_utf8 text)))) /\
  (exists groups entries,
      Permutation (map fst (entry_points w)) groups /\
      StronglySorted str_le groups /\
      (forall g, Permutation (dict_get g (entry_points w)) (entries g) /\
                 StronglySorted str_le (entries g)) /\
      forall s,
        _write_entry_points w s =
        Ok (String.concat EmptyString (map (fun g => section g (entries g)) groups)) s) /\
  (forall name target,
      render_entry (name ++ " = " ++ target)
      = (remove_char " " name ++ "=" ++ remove_char " " target ++ nl)%string /\
      has_char " " (remove_char " " name ++ "=" ++ remove_char " " target) = false /\
      (has_char " " name = false -> has_char " " target = false ->
       renders_around_eq name target)).
Proof.
  split; [|split].
  - intros s s' H. apply _write_metadata_ok in H.
    destruct H as (licenses & wheel_text & Hw & Hlic).
    eexists. split; [exact Hw|]. rewrite <- declares_iff. split; [split|].
    + intros (e & Hin & Hname & Hdate).
      destruct (declares_entry_points w); [reflexivity|]. exfalso.
      cbn [app] in Hin. rewrite in_app_iff in Hin.
      destruct Hin as [Hin|[<-|[<-|[]]]].
      * rewrite Forall_forall in Hlic. apply Hlic in Hin.
        rewrite Hin in Hdate. discriminate Hdate.
      * cbn [generated_entry fst filename] in Hname.
        apply append_inj_l in Hname. discriminate Hname.
      * cbn [generated_entry fst filename] in Hname.
        apply append_inj_l in Hname. discriminate Hname.
    + intros ->. eexists. split; [now left|]. split; reflexivity.
    + intros ->. eexists. split; reflexivity.
  - exists (sorted (fun x => x) str_ltb (map fst (entry_points w))),
           (fun g => sorted (fun x => x) str_ltb (dict_get g (entry_points w))).
    split; [apply sorted_perm|].
    split.
    { apply (sorted_sorted _ _ (fun x : string => x) str_ltb str_ltb_asym).
      intros a b c. apply (str_le_trans a b c). }
    split.
    { intros g. split; [apply sorted_perm|].
      apply (sorted_sorted _ _ (fun x : string => x) str_ltb str_ltb_asym).
      intros a b c. apply (str_le_trans a b c). }
    intros s. reflexivity.
  - intros name target.
    assert (Hr : render_entry (name ++ " = " ++ target)
                 = (remove_char " " name ++ "=" ++ remove_char " " target ++ nl)%string).
    { unfold render_entry. rewrite !remove_char_app.
      change (remove_char " " " = ") with "="%string.
      now rewrite !append_assoc'. }
    split; [exact Hr|]. split.
    + pose proof (remove_char_clean " " (name ++ " = " ++ target)) as Hc.
      rewrite !remove_char_app in Hc. exact Hc.
    + intros Hn Ht. unfold renders_around_eq. rewrite Hr.
      now rewrite (remove_char_absent _ _ Hn), (remove_char_absent _ _ Ht).
Qed.

Lemma entry_points_file_witness :
  (exists added,
      wheel (state_of (_write_metadata Samples.demo Samples.demo_copied))
      = wheel Samples.demo_copied ++ added /\
      (entry_points_written Samples.demo added <->
       In "scripts"%string (local_config Samples.demo) \/
       In "plugins"%string (local_config Samples.demo)) /\
      exists text,
        _write_entry_points Samples.demo Samples.demo_copied
        = Ok text Samples.demo_copied /\
        hd_error added =
          Some (generated_entry (entry_points_path Samples.demo) (encode_utf8 text))) /\
  renders_around_eq "foo" "pkg:main".
Proof.
  destruct (entry_points_file Samples.demo) as (Hmeta & _ & Hrender).
  split.
  - destruct (Hmeta Samples.demo_copied
                    (state_of (_write_metadata Samples.demo Samples.demo_copied)))
      as (added & Hw & Hiff & Htext).
    + vm_compute. reflexivity.
    + exists added. split; [exact Hw|]. split; [exact Hiff|].
      apply Htext. reflexivity.
  - apply (Hrender "foo" "pkg:main")%string; reflexivity.
Defined.

(** C7 as first stated fails for an entry that holds a space elsewhere,
    as the entry of a script with extras does: the space after the comma
    goes too. *)
Lemma entry_spaces_all_removed :
  render_entry "foo = pkg:main[a, b]" = ("foo=pkg:main[a,b]" ++ nl)%string /\
  ~ renders_around_eq "foo" "pkg:main[a, b]".
Proof.
  split; [reflexivity|]. unfold renders_around_eq. vm_compute. discriminate.
Qed.

(* ================================================================== *)
(** * The native build step                                            *)
(* ================================================================== *)

Lemma _build_failing (w : World) (s : State) :
  truthy (build_script w) = true -> build_exit w <> 0 ->
  _build w s =
  Raise (CalledProcessError (build_exit w))
        (mkState (clock s) (cwd s) (wheel s) (_records s) (dirs s) (disk s)).
Proof.
  intros Ht Hx. unfold _build. rewrite Ht.
  unfold bind, get_state, try_finally, chdir, modify, _run_build_command.
  apply Z.eqb_neq in Hx. rewrite Hx. reflexivity.
Qed.

Lemma _build_no_lib (w : World) (s : State) :
  truthy (build_script w) = true -> build_exit w = 0 ->
  glob w (path_join (_path w) "build") "lib.*" = [] ->
  _build w s =
  Ok tt (mkState (clock s) (cwd s) (wheel s) (_records s) (dirs s) (disk s)).
Proof.
  intros Ht Hx Hg. unfold _build. rewrite Ht, Hg.
  unfold bind, get_state, try_finally, chdir, modify, _run_build_command.
  rewrite Hx. reflexivity.
Qed.

Lemma build_file_skips_present (w : World) (lib pkg rel : Path) (s : State) :
  relative_to pkg lib = Some rel ->
  In (path_str rel) (names (wheel s)) ->
  build_file w lib pkg s = Ok tt (tick s).
Proof.
  intros Hrel Hin. unfold build_file, bind, is_dir.
  assert (Hmem : mem_string (path_str rel) (names (wheel (tick s))) = true)
    by (apply mem_string_In; exact Hin).
  destruct (fs w (clock s) (path_str pkg)) as [f|].
  - destruct (S_ISDIR (st_mode f) || is_excluded w (path_str pkg)); [reflexivity|].
    unfold relative_to_M. rewrite Hrel. cbn [ret namelist].
    unfold names in Hmem. now rewrite Hmem.
  - cbn [orb]. destruct (is_excluded w (path_str pkg)); [reflexivity|].
    unfold relative_to_M. rewrite Hrel. cbn [ret namelist].
    unfold names in Hmem. now rewrite Hmem.
Qed.

Lemma build_file_keeps_nodup (w : World) (lib pkg : Path) :
  hoare (fun s => NoDup (names (wheel s))) (build_file w lib pkg)
        (fun _ s => NoDup (names (wheel s)))
        (fun _ s => NoDup (names (wheel s))).
Proof.
  unfold build_file.
  eapply hoare_bind; [apply is_dir_keeps; auto|]. intros d.
  destruct (_ || _); [now apply hoare_ret|].
  eapply hoare_bind; [apply relative_to_M_keeps; auto|]. intros rel. cbv beta.
  intros s Hs. unfold bind, namelist.
  destruct (mem_string (path_str rel) _) eqn:Hmem; [exact Hs|].
  assert (Hnew : ~ In (path_str rel) (names (wheel s))).
  { intros Hin. apply mem_string_In in Hin. unfold names in Hin. congruence. }
  rewrite _add_file_unfold.
  destruct (fs w (clock s) (path_str pkg)); [|exact Hs].
  destruct (fs w (S (clock s)) (path_str pkg)) as [f1|]; [|exact Hs].
  destruct (S_ISDIR (st_mode f1)); [exact Hs|].
  cbv zeta.
  destruct (fs w (S (S (S (clock s)))) (path_str pkg)); cbn [wheel];
    unfold names; rewrite map_app; apply NoDup_snoc; assumption.
Qed.

Lemma _build_keeps_nodup (w : World) :
  hoare (fun s => NoDup (names (wheel s))) (_build w)
        (fun _ s => NoDup (names (wheel s)))
        (fun _ s => NoDup (names (wheel s))).
Proof.
  unfold _build. destruct (truthy _); [|now apply hoare_ret].
  eapply hoare_bind with (R := fun _ s => NoDup (names (wheel s)));
    [intros s Hs; exact Hs|].
  intros s0. eapply hoare_bind with (R := fun _ s => NoDup (names (wheel s))).
  - apply hoare_try_finally.
    + eapply hoare_bind; [apply chdir_keeps; auto|]. intros ?.
      unfold _run_build_command.
      destruct (_ =? _); [now apply hoare_ret | apply hoare_raise; auto].
    + apply chdir_keeps; auto.
    + intros e s Hs. simpl. auto.
  - intros ?. destruct (glob w _ _) as [|lib libs]; [now apply hoare_ret|].
    apply hoare_for_each. intros. apply build_file_keeps_nodup.
Qed.

(** C6.  With a build script: when the build tool exits with a status
    other than 0, [_build] raises [CalledProcessError] with that status
    without touching the archive, and the whole build fails, with that
    error when the files were collected without trouble; when the tool
    leaves no [lib.*] directory, [_build] returns and the archive is as it
    was; a file of the output directory whose relative path is already a
    name of the archive is passed over, so [_build] never makes a name
    occur twice. *)
Theorem native_build (w : World) :
  truthy (build_script w) = true ->
  (build_exit w <> 0 ->
   (forall s, exists s',
       _build w s = Raise (CalledProcessError (build_exit w)) s' /\
       wheel s' = wheel s /\ _records s' = _records s /\ cwd s' = cwd s) /\
   is_ok (run_build w) = false /\
   (forall s1, _copy_module w (prepared w (new_builder w)) = Ok tt s1 ->
               exists s', run_build w = Raise (CalledProcessError (build_exit w)) s')) /\
  (build_exit w = 0 ->
   glob w (path_join (_path w) "build") "lib.*" = [] ->
   forall s, exists s',
       _build w s = Ok tt s' /\
       wheel s' = wheel s /\ _records s' = _records s /\ cwd s' = cwd s) /\
  (forall lib pkg rel s,
      relative_to pkg lib = Some rel ->
      In (path_str rel) (names (wheel s)) ->
      exists s',
        build_file w lib pkg s = Ok tt s' /\
        wheel s' = wheel s /\ _records s' = _records s) /\
  (forall s,
      NoDup (names (wheel s)) -> NoDup (names (wheel (state_of (_build w s))))).
Proof.
  intros Ht. split; [|split; [|split]].
  - intros Hx. split; [|split].
    + intros s. eexists. split; [apply _build_failing; assumption|].
      repeat split.
    + unfold run_build. rewrite build_unfold. unfold assemble, bind.
      destruct (_copy_module w _) as [[] s1|]; [|reflexivity].
      rewrite _build_failing by assumption. reflexivity.
    + intros s1 Hc. unfold run_build. rewrite build_unfold.
      unfold assemble, bind. rewrite Hc.
      rewrite _build_failing by assumption. eexists. reflexivity.
  - intros Hx Hg s. eexists. split; [apply _build_no_lib; assumption|].
    repeat split.
  - intros lib pkg rel s Hrel Hin. exists (tick s).
    split; [now apply (build_file_skips_present w lib pkg rel)|]. split; reflexivity.
  - intros s Hs. pose proof (_build_keeps_nodup w s Hs) as H.
    destruct (_build w s); exact H.
Qed.

Lemma native_build_witness :
  (exists s', run_build Samples.native_failing = Raise (CalledProcessError 1) s') /\
  (exists s',
      _build Samples.native_empty Samples.demo_copied = Ok tt s' /\
      wheel s' = wheel Samples.demo_copied /\
      _records s' = _records Samples.demo_copied /\
      cwd s' = cwd Samples.demo_copied) /\
  (exists s',
      build_file Samples.native Samples.lib_dir
                 (Samples.lib_dir ++ ["pkg"; "main.py"]%string)
                 Samples.native_copied = Ok tt s' /\
      wheel s' = wheel Samples.native_copied /\
      _records s' = _records Samples.native_copied) /\
  names (wheel Samples.native_extended)
  = names (wheel Samples.native_copied) ++ ["pkg/_speedups.so"%string] /\
  NoDup (names (wheel Samples.native_extended)).
Proof.
  split; [|split; [|split; [|split]]].
  - destruct (native_build Samples.native_failing eq_refl) as (Hfail & _).
    destruct Hfail as (_ & _ & Hfatal); [discriminate|].
    apply (Hfatal (state_of (_copy_module Samples.native_failing
                               (prepared Samples.native_failing
                                         (new_builder Samples.native_failing))))).
    vm_compute. reflexivity.
  - destruct (native_build Samples.native_empty eq_refl) as (_ & Hnone & _).
    apply Hnone; reflexivity.
  - destruct (native_build Samples.native eq_refl) as (_ & _ & Hskip & _).
    apply (Hskip _ _ ["pkg"; "main.py"]%string).
    + reflexivity.
    + vm_compute. auto 10.
  - vm_compute. reflexivity.
  - destruct (native_build Samples.native eq_refl) as (_ & _ & _ & Hnodup).
    apply (Hnodup Samples.native_copied).
    vm_compute. repeat constructor; simpl; intuition discriminate.
Defined.

(* ================================================================== *)
(** * The output file                                                  *)
(* ================================================================== *)

Lemma disk_get_del_same (p : string) (d : Disk) : disk_get p (disk_del p d) = None.
Proof.
  induction d as [|[q v] d IH]; simpl; [reflexivity|].
  destruct (String.eqb p q) eqn:E; simpl; [exact IH|]. now rewrite E.
Qed.

Lemma disk_get_del_other (p q : string) (d : Disk) :
  p <> q -> disk_get p (disk_del q d) = disk_get p d.
Proof.
  intros Hpq. induction d as [|[r v] d IH]; simpl; [reflexivity|].
  destruct (String.eqb q r) eqn:E.
  - apply String.eqb_eq in E. subst r.
    apply String.eqb_neq in Hpq. now rewrite Hpq.
  - simpl. now rewrite IH.
Qed.

Lemma disk_get_put_same (p : string) (v : Z * Archive) (d : Disk) :
  disk_get p (disk_put p v d) = Some v.
Proof. unfold disk_put. simpl. now rewrite String.eqb_refl. Qed.

Lemma disk_get_put_other (p q : string) (v : Z * Archive) (d : Disk) :
  p <> q -> disk_get p (disk_put q v d) = disk_get p d.
Proof.
  intros Hpq. unfold disk_put. simpl.
  pose proof Hpq as Hpq'. apply String.eqb_neq in Hpq'. rewrite Hpq'.
  now apply disk_get_del_other.
Qed.

(** The assembly never touches the destination side. *)
Lemma assemble_leaves_disk (w : World) (s : State) :
  disk (state_of (assemble w s)) = disk s.
Proof.
  pose proof (assemble_keeps w (fun s1 => disk s1 = disk s)
                             (fun _ s1 => disk s1 = disk s)) as H.
  match type of H with
  | ?a -> ?b -> ?c -> ?d -> ?e -> ?f -> _ =>
      assert (H1 : a) by auto; assert (H2 : b) by auto;
      assert (H3 : c) by auto; assert (H4 : d) by auto;
      assert (H5 : e); [|assert (H6 : f)]
  end.
  - intros full rel s0 Hs0. rewrite _add_file_unfold.
    destruct (fs w (clock s0) full); [|exact Hs0].
    destruct (fs w (S (clock s0)) full) as [f1|]; [|exact Hs0].
    destruct (S_ISDIR (st_mode f1)); [exact Hs0|].
    cbv zeta. destruct (fs w (S (S (S (clock s0)))) full); exact Hs0.
  - intros rel body Hb s0 Hs0. rewrite _write_to_zip_unfold.
    specialize (Hb s0 Hs0). destruct (body s0) as [sio s'|e s']; exact Hb.
  - specialize (H H1 H2 H3 H4 H5 H6 s eq_refl). unfold assemble.
    match type of H with match ?r with _ => _ end => destruct r end; exact H.
Qed.

Lemma prepared_disk (w : World) (s : State) (p : string) :
  p <> temp_path w -> disk_get p (disk (prepared w s)) = disk_get p (disk s).
Proof.
  intros Hp. unfold prepared. cbn [disk].
  now rewrite !disk_get_put_other.
Qed.

(** C8, amended.  When the build fails, every file of the destination
    side other than the temporary file is as it was before the build, so
    an archive of an earlier build is intact and nothing new stands at the
    final path; the temporary file, which [mkstemp] made in the default
    temporary directory, is still there and holds what had been written.
    When the build succeeds, the final path holds the archive just
    written, the temporary file is gone and every other file is as it
    was. *)
Theorem output_file (w : World) :
  (forall e s,
      run_build w = Raise e s ->
      disk_get (path_str (path_join (gettempdir w) (mkstemp_name w))) (disk s)
      = Some (temp_mode, wheel s) /\
      forall p, p <> temp_path w -> disk_get p (disk s) = disk_get p (disk0 w)) /\
  (forall s,
      run_build w = Ok tt s ->
      exists name,
        wheel_filename w = inr name /\
        (final_path w name <> temp_path w ->
         disk_get (final_path w name) (disk s) = Some (temp_mode, wheel s) /\
         disk_get (temp_path w) (disk s) = None /\
         forall p, p <> temp_path w -> p <> final_path w name ->
                   disk_get p (disk s) = disk_get p (disk0 w))).
Proof.
  split.
  - intros e s H. unfold run_build in H. rewrite build_unfold in H.
    pose proof (assemble_leaves_disk w (prepared w (new_builder w))) as Hd.
    fold (temp_path w).
    assert (Hclosed : forall s2,
               disk s2 = disk (prepared w (new_builder w)) ->
               disk_get (temp_path w) (disk (closed w s2))
               = Some (temp_mode, wheel (closed w s2)) /\
               forall p, p <> temp_path w ->
                         disk_get p (disk (closed w s2)) = disk_get p (disk0 w)).
    { intros s2 Hs2. unfold closed. cbn [disk set_disk wheel]. split.
      - apply disk_get_put_same.
      - intros p Hp. rewrite disk_get_put_other by assumption.
        rewrite Hs2. now rewrite prepared_disk. }
    destruct (assemble w (prepared w (new_builder w))) as [[] s2|e2 s2];
      cbn [state_of] in Hd.
    + destruct (wheel_filename w); [|discriminate].
      injection H as _ <-. now apply Hclosed.
    + injection H as _ <-. now apply Hclosed.
  - intros s H. unfold run_build in H. rewrite build_unfold in H.
    pose proof (assemble_leaves_disk w (prepared w (new_builder w))) as Hd.
    destruct (assemble w (prepared w (new_builder w))) as [[] s2|e2 s2];
      [|discriminate].
    cbn [state_of] in Hd.
    destruct (wheel_filename w) as [|name]; [discriminate|].
    injection H as <-. exists name. split; [reflexivity|]. intros Hne.
    unfold moved, closed. cbn [disk set_disk].
    set (d := disk_put (temp_path w) (temp_mode, wheel s2) (disk s2)).
    set (d' := match disk_get (final_path w name) d with
               | Some _ => disk_del (final_path w name) d
               | None => d
               end).
    assert (Hd' : forall p, p <> final_path w name -> disk_get p d' = disk_get p d).
    { intros p Hp. unfold d'.
      destruct (disk_get (final_path w name) d); [|reflexivity].
      now apply disk_get_del_other. }
    assert (Htemp : disk_get (temp_path w) d' = Some (temp_mode, wheel s2)).
    { rewrite Hd' by congruence. apply disk_get_put_same. }
    rewrite Htemp. cbn [disk set_disk wheel].
    split; [apply disk_get_put_same|]. split.
    + rewrite disk_get_put_other by congruence. apply disk_get_del_same.
    + intros p Hp1 Hp2.
      rewrite disk_get_put_other by assumption.
      rewrite disk_get_del_other by assumption.
      rewrite Hd' by assumption. unfold d.
      rewrite disk_get_put_other by assumption.
      rewrite Hd. now apply prepared_disk.
Qed.

Lemma output_file_witness :
  (disk_get "/tmp/tmpk3x9.whl" (disk Samples.rebuild_failed)
   = Some (temp_mode, wheel Samples.rebuild_failed) /\
   disk_get "/proj/dist/My_Pkg-1.0-cp38-cp38-manylinux1_x86_64.whl"
            (disk Samples.rebuild_failed)
   = Some Samples.old_archive) /\
  (disk_get "/proj/dist/My_Pkg-1.0-py3-none-any.whl" (disk Samples.rebuild_built)
   = Some (temp_mode, wheel Samples.rebuild_built) /\
   disk_get "/tmp/tmpk3x9.whl" (disk Samples.rebuild_built) = None /\
   disk_get "/proj/dist/other-0.1-py3-none-any.whl" (disk Samples.rebuild_built)
   = Some (mode_644, [])).
Proof.
  split.
  - destruct (proj1 (output_file Samples.rebuild_failing)
                    (CalledProcessError 1) Samples.rebuild_failed) as [Ht Ho].
    + vm_compute. reflexivity.
    + split; [exact Ht|].
      rewrite (Ho "/proj/dist/My_Pkg-1.0-cp38-cp38-manylinux1_x86_64.whl"%string).
      * reflexivity.
      * vm_compute. discriminate.
  - destruct (proj2 (output_file Samples.rebuild) Samples.rebuild_built)
      as (name & Hname & H).
    + vm_compute. reflexivity.
    + injection Hname as <-.
      destruct H as (Hf & Ht & Ho); [vm_compute; discriminate|].
      split; [exact Hf|]. split; [exact Ht|].
      rewrite (Ho "/proj/dist/other-0.1-py3-none-any.whl"%string).
      * reflexivity.
      * vm_compute. discriminate.
      * vm_compute. discriminate.
Defined.

(** C8 as first stated fails: when the build tool exits with status 1 the
    build fails and the temporary file, in [/tmp] and not in the
    destination directory, is still there. *)
Lemma temp_file_left_behind :
  run_build Samples.rebuild_failing = Raise (CalledProcessError 1) Samples.rebuild_failed /\
  ~ temp_removed_on_failure Samples.rebuild_failing /\
  path_parent (path_join (gettempdir Samples.rebuild_failing)
                         (mkstemp_name Samples.rebuild_failing))
  <> _target_dir Samples.rebuild_failing.
Proof.
  split; [vm_compute; reflexivity|]. split.
  - intros H. specialize (H (CalledProcessError 1) Samples.rebuild_failed).
    assert (C : disk_get (temp_path Samples.rebuild_failing)
                         (disk Samples.rebuild_failed) <> None)
      by (vm_compute; discriminate).
    apply C. apply H. vm_compute. reflexivity.
  - vm_compute. discriminate.
Qed.

(* ================================================================== *)
(** * Reproducible output                                              *)
(* ================================================================== *)

Lemma bind_ext {A B} (m1 m2 : M A) (k1 k2 : A -> M B) (s : State) :
  m1 s = m2 s -> (forall a s', k1 a s' = k2 a s') -> bind m1 k1 s = bind m2 k2 s.
Proof.
  intros Hm Hk. unfold bind. rewrite Hm. destruct (m2 s); auto.
Qed.

Lemma for_each_ext {A} (l : list A) (f g : A -> M unit) :
  (forall x s, f x s = g x s) -> forall s, for_each l f s = for_each l g s.
Proof.
  intros H. induction l as [|x l IH]; intros s; simpl; [reflexivity|].
  apply bind_ext; auto.
Qed.

Lemma for_fold_ext {A B} (l : list A) (f g : B -> A -> M B) :
  (forall b x s, f b x s = g b x s) ->
  forall b s, for_fold l f b s = for_fold l g b s.
Proof.
  intros H. induction l as [|x l IH]; intros b s; simpl; [reflexivity|].
  apply bind_ext; auto.
Qed.

Section SameInput.
Variables (w : World) (now2 : Z) (fs2 : nat -> string -> option File).
Hypothesis same : forall t p, same_file (fs w t p) (fs2 t p).

Let w2 : World := at_another_time now2 fs2 w.

Lemma is_dir_same (p : Path) (s : State) : is_dir w2 p s = is_dir w p s.
Proof.
  unfold is_dir. cbn [fs w2 at_another_time].
  pose proof (same (clock s) (path_str p)) as H. unfold same_file in H.
  destruct (fs w (clock s) (path_str p)), (fs2 (clock s) (path_str p));
    try contradiction; [|reflexivity].
  destruct H as [-> _]. reflexivity.
Qed.

Lemma _add_file_same (full rel : string) (s : State) :
  _add_file w2 full rel s = _add_file w full rel s.
Proof.
  rewrite !_add_file_unfold. cbn [fs w2 at_another_time].
  pose proof (same (clock s) full) as H0.
  pose proof (same (S (clock s)) full) as H1.
  pose proof (same (S (S (clock s))) full) as H2.
  pose proof (same (S (S (S (clock s)))) full) as H3.
  unfold same_file in *.
  destruct (fs w (clock s) full) as [a0|], (fs2 (clock s) full) as [b0|];
    try contradiction; [|reflexivity].
  destruct (fs w (S (clock s)) full) as [a1|], (fs2 (S (clock s)) full) as [b1|];
    try contradiction; [|reflexivity].
  destruct H0 as [M0 _], H1 as [M1 C1]. rewrite <- M1.
  destruct (S_ISDIR (st_mode a1)); [reflexivity|].
  cbv zeta. rewrite <- M0, <- C1.
  assert (D : match fs2 (S (S (clock s))) full with
              | Some f2 => content f2
              | None => content a1
              end
              = match fs w (S (S (clock s))) full with
                | Some f2 => content f2
                | None => content a1
                end).
  { destruct (fs w (S (S (clock s))) full), (fs2 (S (S (clock s))) full);
      try contradiction; [|reflexivity].
    now destruct H2 as [_ <-]. }
  rewrite D.
  destruct (fs w (S (S (S (clock s)))) full) as [a3|],
           (fs2 (S (S (S (clock s)))) full) as [b3|];
    try contradiction; [|reflexivity].
  destruct H3 as [_ C3]. unfold st_size. rewrite C3. reflexivity.
Qed.

Lemma collect_file_same include to_add file (s : State) :
  collect_file w2 include to_add file s = collect_file w include to_add file s.
Proof.
  unfold collect_file.
  destruct (contains _ _); [reflexivity|].
  apply bind_ext; [apply is_dir_same|]. reflexivity.
Qed.

Lemma _copy_module_same (s : State) : _copy_module w2 s = _copy_module w s.
Proof.
  unfold _copy_module. apply bind_ext.
  - apply (for_fold_ext (includes w)). intros b include s0.
    unfold collect_include. destruct (_ && _); [reflexivity|].
    apply for_fold_ext. intros. apply collect_file_same.
  - intros to_add s'. apply for_each_ext. intros. apply _add_file_same.
Qed.

Lemma build_file_same lib pkg (s : State) :
  build_file w2 lib pkg s = build_file w lib pkg s.
Proof.
  unfold build_file. apply bind_ext; [apply is_dir_same|].
  intros d s1. change (is_excluded w2) with (is_excluded w).
  destruct (_ || _); [reflexivity|].
  apply bind_ext; [reflexivity|]. intros rel s2. cbv beta.
  apply bind_ext; [reflexivity|]. intros ns s3.
  destruct (mem_string _ _); [reflexivity|]. apply _add_file_same.
Qed.

Lemma _build_same (s : State) : _build w2 s = _build w s.
Proof.
  unfold _build. change (build_script w2) with (build_script w).
  destruct (truthy _); [|reflexivity].
  apply bind_ext; [reflexivity|]. intros s0 s1.
  apply bind_ext; [reflexivity|]. intros ? s2.
  change (glob w2) with (glob w). change (_path w2) with (_path w).
  destruct (glob w _ _); [reflexivity|].
  apply for_each_ext. intros. apply build_file_same.
Qed.

Lemma _write_metadata_same (s : State) : _write_metadata w2 s = _write_metadata w s.
Proof.
  unfold _write_metadata.
  apply bind_ext; [reflexivity|]. intros ? s1.
  apply bind_ext; [|reflexivity].
  apply for_each_ext. intros b s2.
  apply (for_each_ext (sorted (fun x => x) path_ltb (glob w (_path w) (b ++ "*")))).
  intros. apply _add_file_same.
Qed.

Lemma assemble_same (s : State) : assemble w2 s = assemble w s.
Proof.
  unfold assemble.
  apply bind_ext; [apply _copy_module_same|]. intros ? s1.
  apply bind_ext; [apply _build_same|]. intros ? s2.
  apply bind_ext; [apply _write_metadata_same|]. intros ? s3.
  reflexivity.
Qed.

Lemma run_build_same : run_build w2 = run_build w.
Proof.
  unfold run_build. rewrite !build_unfold.
  change (prepared w2 (new_builder w2)) with (prepared w (new_builder w)).
  rewrite assemble_same. reflexivity.
Qed.

End SameInput.


(* ================================================================== *)
(** * The archive does not depend on the destination side              *)
(* ================================================================== *)

Lemma respects_ret {A} (R : A -> A -> Prop) (a a' : A) :
  R a a' -> respects R (ret a) (ret a').
Proof. intros H s s' Hs. simpl. auto. Qed.

Lemma respects_raise {A} (R : A -> A -> Prop) (e : Error) :
  respects R (raise e) (raise e).
Proof. intros s s' Hs. simpl. auto. Qed.

Lemma respects_bind {A B} (R : A -> A -> Prop) (Q : B -> B -> Prop)
      (m m' : M A) (k k' : A -> M B) :
  respects R m m' ->
  (forall a a', R a a' -> respects Q (k a) (k' a')) ->
  respects Q (bind m k) (bind m' k').
Proof.
  intros Hm Hk s s' Hs. unfold bind. specialize (Hm s s' Hs).
  destruct (m s) as [a s1|e s1], (m' s') as [a' s1'|e' s1']; simpl in Hm;
    try contradiction.
  - destruct Hm as [Ha Hs1]. now apply Hk.
  - exact Hm.
Qed.

Lemma respects_for_each {A} (l : list A) (f : A -> M unit) :
  (forall x, respects eq (f x) (f x)) -> respects eq (for_each l f) (for_each l f).
Proof.
  intros H. induction l as [|x l IH]; simpl.
  - now apply respects_ret.
  - eapply respects_bind; [apply H|]. intros ? ? _. exact IH.
Qed.

Lemma respects_for_fold {A B} (l : list A) (f : B -> A -> M B) :
  (forall b x, respects eq (f b x) (f b x)) ->
  forall b, respects eq (for_fold l f b) (for_fold l f b).
Proof.
  intros H. induction l as [|x l IH]; intros b; simpl.
  - now apply respects_ret.
  - eapply respects_bind; [apply H|]. intros b1 ? <-. apply IH.
Qed.

Ltac same_core_tac :=
  simpl; unfold same_core; simpl; repeat split; congruence.

Section Frame.
Variable w : World.

Lemma respects_is_dir (p : Path) : respects eq (is_dir w p) (is_dir w p).
Proof.
  intros s s' (Hc & Hw & Hr). unfold is_dir. rewrite <- Hc.
  destruct (fs w (clock s) (path_str p)); same_core_tac.
Qed.

Lemma respects__add_file (full rel : string) :
  respects eq (_add_file w full rel) (_add_file w full rel).
Proof.
  intros s s' (Hc & Hw & Hr). rewrite !_add_file_unfold. rewrite <- Hc.
  destruct (fs w (clock s) full); [|same_core_tac].
  destruct (fs w (S (clock s)) full) as [f1|]; [|same_core_tac].
  destruct (S_ISDIR (st_mode f1)); [same_core_tac|].
  cbv zeta.
  destruct (fs w (S (S (S (clock s)))) full); same_core_tac.
Qed.

Lemma respects__write_to_zip (rel : string) (body : M string) :
  respects eq body body ->
  respects eq (_write_to_zip rel body) (_write_to_zip rel body).
Proof.
  intros Hb s s' Hs. rewrite !_write_to_zip_unfold. specialize (Hb s s' Hs).
  destruct (body s) as [a s1|e s1], (body s') as [a' s1'|e' s1']; simpl in Hb;
    try contradiction; [|exact Hb].
  destruct Hb as (<- & Hc & Hw & Hr). same_core_tac.
Qed.

Lemma respects_relative_to_M (p b : Path) :
  respects eq (relative_to_M p b) (relative_to_M p b).
Proof.
  unfold relative_to_M. destruct (relative_to p b);
    [now apply respects_ret | apply respects_raise].
Qed.

Lemma respects__copy_module : respects eq (_copy_module w) (_copy_module w).
Proof.
  unfold _copy_module. eapply respects_bind.
  - apply respects_for_fold. intros b include. unfold collect_include.
    destruct (_ && _); [now apply respects_ret|].
    apply respects_for_fold. intros c file. unfold collect_file.
    destruct (contains _ _); [now apply respects_ret|].
    eapply respects_bind; [apply respects_is_dir|]. intros d ? <-.
    destruct d; [now apply respects_ret|].
    eapply respects_bind.
    { destruct (_ && _); apply respects_relative_to_M. }
    intros r ? <-.
    destruct (_ && _); [now apply respects_ret|].
    destruct (String.eqb _ _); [now apply respects_ret|].
    destruct (existsb _ _); now apply respects_ret.
  - intros to_add ? <-. apply respects_for_each. intros.
    apply respects__add_file.
Qed.

Lemma respects__build : respects eq (_build w) (_build w).
Proof.
  unfold _build. destruct (truthy _); [|now apply respects_ret].
  eapply respects_bind with (R := fun _ _ => True).
  { intros s s' Hs. simpl. auto. }
  intros s0 s0' _.
  eapply respects_bind with (R := eq).
  - intros s s' (Hc & Hw & Hr).
    unfold try_finally, bind, chdir, modify, _run_build_command.
    destruct (build_exit w =? 0); same_core_tac.
  - intros ? ? _. destruct (glob w _ _) as [|lib libs]; [now apply respects_ret|].
    apply respects_for_each. intros pkg. unfold build_file.
    eapply respects_bind; [apply respects_is_dir|]. intros d ? <-.
    destruct (_ || _); [now apply respects_ret|].
    eapply respects_bind; [apply respects_relative_to_M|]. intros rel ? <-.
    cbv beta. eapply respects_bind with (R := eq).
    { intros s s' (Hc & Hw & Hr). unfold namelist. same_core_tac. }
    intros ns ? <-. destruct (mem_string _ _); [now apply respects_ret|].
    apply respects__add_file.
Qed.

Lemma respects__write_metadata : respects eq (_write_metadata w) (_write_metadata w).
Proof.
  unfold _write_metadata.
  eapply respects_bind with (R := eq).
  { destruct (declares_entry_points w); [|now apply respects_ret].
    apply respects__write_to_zip. now apply respects_ret. }
  intros ? ? _. eapply respects_bind with (R := eq).
  { apply respects_for_each. intros b. apply respects_for_each. intros.
    apply respects__add_file. }
  intros ? ? _. eapply respects_bind with (R := eq).
  { apply respects__write_to_zip. unfold _write_wheel_file.
    eapply respects_bind with (R := eq).
    - unfold of_sum. destruct (tag w); [apply respects_raise | now apply respects_ret].
    - intros t ? <-. now apply respects_ret. }
  intros ? ? _. apply respects__write_to_zip. now apply respects_ret.
Qed.

Lemma respects__write_record : respects eq (_write_record w) (_write_record w).
Proof.
  intros s s' (Hc & Hw & Hr). rewrite !_write_record_unfold. same_core_tac.
Qed.

Lemma respects_assemble : respects eq (assemble w) (assemble w).
Proof.
  unfold assemble.
  eapply respects_bind; [apply respects__copy_module|]. intros ? ? _.
  eapply respects_bind; [apply respects__build|]. intros ? ? _.
  eapply respects_bind; [apply respects__write_metadata|]. intros ? ? _.
  apply respects__write_record.
Qed.

(** Another run of the same project ends the same way with the same
    archive and rows. *)
Lemma run_build_elsewhere tmpdir tmpname cwd1 dirs1 disk1 :
  same_outcome eq
    (run_build (on_another_run tmpdir tmpname cwd1 dirs1 disk1 w))
    (run_build w).
Proof.
  unfold run_build. rewrite !build_unfold.
  set (w' := on_another_run tmpdir tmpname cwd1 dirs1 disk1 w).
  change (assemble w') with (assemble w).
  change (wheel_filename w') with (wheel_filename w).
  pose proof (respects_assemble (prepared w' (new_builder w'))
                                (prepared w (new_builder w))) as H.
  assert (Hcore : same_core (prepared w' (new_builder w'))
                            (prepared w (new_builder w)))
    by (repeat split).
  specialize (H Hcore).
  destruct (assemble w (prepared w' (new_builder w'))) as [[] s2|e s2],
           (assemble w (prepared w (new_builder w))) as [[] s2'|e' s2'];
    simpl in H; try contradiction.
  - destruct H as (_ & Hc & Hw & Hr).
    destruct (wheel_filename w) as [e|name].
    + same_core_tac.
    + unfold moved.
      destruct (disk_get (temp_path w') _), (disk_get (temp_path w) _);
        same_core_tac.
  - destruct H as (<- & Hc & Hw & Hr). same_core_tac.
Qed.

End Frame.

(* ================================================================== *)
(** * Two builds of the same input                                     *)
(* ================================================================== *)

Lemma same_outcome_eq {A} (r r' : Result A) :
  same_outcome eq r r' ->
  is_ok r = is_ok r' /\
  wheel (state_of r) = wheel (state_of r') /\
  _records (state_of r) = _records (state_of r').
Proof.
  destruct r, r'; simpl; try contradiction;
    intros (_ & _ & Hw & Hr); auto.
Qed.

(** C5.  The outcome of a build, archive included, is the same at any
    time of day and whatever the modification times of the source files,
    as long as their modes and bytes are the same; nor does the archive
    depend on the temporary file, the working directory or what the
    destination already holds, so a second build gives the archive of the
    first.  Every member carries one of two fixed dates: the one
    [_write_to_zip] sets for a generated member, which also gets mode
    644, or the default of [ZipInfo] for a copied one. *)
Theorem reproducible (w : World) (now2 : Z) (fs2 : nat -> string -> option File) :
  (forall t p, same_file (fs w t p) (fs2 t p)) ->
  run_build (at_another_time now2 fs2 w) = run_build w /\
  (forall tmpdir tmpname cwd1 dirs1 disk1,
      let again := on_another_run tmpdir tmpname cwd1 dirs1 disk1
                                  (at_another_time now2 fs2 w) in
      is_ok (run_build again) = is_ok (run_build w) /\
      wheel (state_of (run_build again)) = wheel (state_of (run_build w)) /\
      _records (state_of (run_build again)) = _records (state_of (run_build w))) /\
  Forall (fun e =>
            (date_time (fst e) = generated_date /\ perm_bits e = mode_644) \/
            date_time (fst e) = default_date_time)
         (wheel (state_of (run_build w))) /\
  (forall rel_path body s s',
      _write_to_zip rel_path body s = Ok tt s' ->
      exists e,
        wheel s' = wheel (state_of (body s)) ++ [e] /\
        date_time (fst e) = (2016, 1, 1, 0, 0, 0) /\
        perm_bits e = mode_644).
Proof.
  intros Hsame. split; [|split; [|split]].
  - now apply run_build_same.
  - intros tmpdir tmpname cwd1 dirs1 disk1 again.
    rewrite <- (run_build_same w now2 fs2 Hsame).
    apply same_outcome_eq. apply run_build_elsewhere.
  - unfold run_build. apply archive_forall.
    + intros. right. reflexivity.
    + intros. left. split; reflexivity.
  - intros rel body s s'. rewrite _write_to_zip_unfold.
    destruct (body s) as [sio s1|]; [|discriminate].
    intros [= <-]. cbn [wheel state_of].
    eexists. split; [reflexivity|]. split; reflexivity.
Qed.

Lemma reproducible_witness :
  run_build (at_another_time 1700000000 Samples.touched Samples.demo)
  = run_build Samples.demo /\
  wheel (state_of (run_build Samples.second_build)) = wheel Samples.demo_built /\
  now (at_another_time 1700000000 Samples.touched Samples.demo) <> now Samples.demo /\
  Samples.touched 0 "/proj/pkg/main.py" <> fs Samples.demo 0 "/proj/pkg/main.py".
Proof.
  assert (H : forall t p, same_file (fs Samples.demo t p) (Samples.touched t p)).
  { intros t p. unfold Samples.touched, same_file.
    destruct (fs Samples.demo t p); auto. }
  destruct (reproducible Samples.demo 1700000000 Samples.touched H)
    as (Hsame & Hagain & _).
  split; [exact Hsame|]. split; [|split].
  - exact (proj1 (proj2 (Hagain ["/"; "var"; "tmp"]%string "tmp0q7d.whl"%string
                                "/proj"%string (dirs Samples.demo_built)
                                (disk Samples.demo_built)))).
  - vm_compute. discriminate.
  - vm_compute. discriminate.
Defined.

(* ================================================================== *)
(** * Further properties: the two writers                              *)
(* ================================================================== *)

(** The read loop with chunks of [c] bytes: [n + 1] reads end it on a
    file of at most [n * c] bytes and on no longer one. *)
Lemma hash_loop_exact (c : nat) (n : nat) :
  (0 < c)%nat ->
  forall src hashsum,
    (fix loop (steps : nat) (src hashsum : bytes) : option bytes :=
       match steps with
       | O => None
       | S steps' =>
           match firstn c src with
           | [] => Some hashsum
           | buf => loop steps' (skipn c src) (hashsum ++ buf)
           end
       end) (S n) src hashsum
    = if (List.length src <=? n * c)%nat then Some (hashsum ++ src) else None.
Proof.
  intros Hc. induction n as [|n IH]; intros src hashsum.
  - destruct src as [|x src].
    + destruct c; cbn; now rewrite app_nil_r.
    + destruct c as [|c]; [lia|]. reflexivity.
  - destruct (firstn c src) as [|b bs] eqn:Hf.
    + destruct src as [|x src]; [|destruct c; [lia|discriminate]].
      cbn [List.length Nat.leb]. now rewrite app_nil_r.
    + rewrite IH. rewrite length_skipn.
      assert (Hcat : (hashsum ++ b :: bs) ++ skipn c src = hashsum ++ src)
        by (rewrite <- app_assoc, <- Hf, firstn_skipn; reflexivity).
      rewrite Hcat.
      destruct (List.length src - c <=? n * c)%nat eqn:E1;
        destruct (List.length src <=? S n * c)%nat eqn:E2; try reflexivity.
      * apply Nat.leb_le in E1. apply Nat.leb_gt in E2. cbn [Nat.mul] in E2. lia.
      * apply Nat.leb_gt in E1. apply Nat.leb_le in E2. cbn [Nat.mul] in E2. lia.
Qed.

(** X1.  The read loop of [_add_file] reads 8192 bytes at a time and
    stops at the first empty read: [n + 1] reads end it exactly when the
    file has at most [n * 8192] bytes, and it has then fed the hash the
    bytes of the file, each once and in order, after whatever had been
    fed before; on a longer file [n + 1] reads do not end it, and no read
    at all ends nothing.  One read more than the file has bytes, which
    is what [_add_file] is given here, is always enough. *)
Theorem read_loop_feeds_file (src hashsum : bytes) (n : nat) :
  ((List.length src <= n * chunk_size)%nat ->
   hash_loop (S n) src hashsum = Some (hashsum ++ src)) /\
  ((n * chunk_size < List.length src)%nat ->
   hash_loop (S n) src hashsum = None) /\
  hash_loop 0 src hashsum = None /\
  hash_loop (S (List.length src)) src hashsum = Some (hashsum ++ src).
Proof.
  assert (Hx : forall m,
             hash_loop (S m) src hashsum
             = if (List.length src <=? m * chunk_size)%nat
               then Some (hashsum ++ src) else None).
  { intros m. unfold hash_loop. apply (@hash_loop_exact chunk_size m chunk_size_pos src hashsum). }
  split; [|split; [|split]].
  - intros H. rewrite Hx. apply Nat.leb_le in H. now rewrite H.
  - intros H. rewrite Hx. apply Nat.leb_gt in H. now rewrite H.
  - reflexivity.
  - rewrite Hx.
    assert (H : (List.length src <=? List.length src * chunk_size)%nat = true).
    { apply Nat.leb_le. pose proof chunk_size_pos. nia. }
    now rewrite H.
Qed.

Lemma read_loop_feeds_file_witness :
  hash_loop 1 (encode_utf8 "print(1)") (encode_utf8 "# ") = None /\
  hash_loop 2 (encode_utf8 "print(1)") (encode_utf8 "# ")
  = Some (encode_utf8 "# print(1)") /\
  hash_loop 2 MoreSamples.long_file [] = None /\
  hash_loop 3 MoreSamples.long_file [] = Some MoreSamples.long_file.
Proof.
  split; [|split; [|split]].
  - apply (proj1 (proj2 (read_loop_feeds_file (encode_utf8 "print(1)")
                           (encode_utf8 "# ") 0))).
    apply Nat.ltb_lt. vm_compute. reflexivity.
  - apply (proj1 (read_loop_feeds_file (encode_utf8 "print(1)")
                    (encode_utf8 "# ") 1)).
    apply Nat.leb_le. vm_compute. reflexivity.
  - apply (proj1 (proj2 (read_loop_feeds_file MoreSamples.long_file [] 1))).
    apply Nat.ltb_lt. vm_compute. reflexivity.
  - apply (proj1 (read_loop_feeds_file MoreSamples.long_file [] 2)).
    apply Nat.leb_le. vm_compute. reflexivity.
Defined.

(** X2.  [_add_file] either appends one member and one row, both under
    the given archive path, or raises and appends no row.  It raises
    [FileNotFoundError] with nothing written when the file is missing at
    the first [os.stat], [IsADirectoryError] with nothing written when the
    path is a directory at [open]; the only other failure is a file gone
    at the last [os.stat], which leaves the member written without its
    row. *)
Theorem add_file_outcomes (w : World) (full_path rel_path : string) (s : State) :
  match _add_file w full_path rel_path s with
  | Ok _ s' =>
      exists e r,
        wheel s' = wheel s ++ [e] /\ _records s' = _records s ++ [r] /\
        filename (fst e) = rel_path /\ row_path r = rel_path
  | Raise err s' =>
      _records s' = _records s /\
      ((wheel s' = wheel s /\
        (err = FileNotFoundError full_path \/ err = IsADirectoryError full_path)) \/
       (exists e,
           wheel s' = wheel s ++ [e] /\ filename (fst e) = rel_path /\
           err = FileNotFoundError full_path /\
           fs w (3 + clock s) full_path = None))
  end /\
  (fs w (clock s) full_path = None ->
   exists s', _add_file w full_path rel_path s = Raise (FileNotFoundError full_path) s' /\
              wheel s' = wheel s) /\
  (forall st d,
      fs w (clock s) full_path = Some st ->
      fs w (1 + clock s) full_path = Some d -> S_ISDIR (st_mode d) = true ->
      exists s', _add_file w full_path rel_path s = Raise (IsADirectoryError full_path) s' /\
                 wheel s' = wheel s).
Proof.
  rewrite _add_file_unfold. cbn [Nat.add]. split; [|split].
  - destruct (fs w (clock s) full_path) as [st|]; [|split; auto].
    destruct (fs w (S (clock s)) full_path) as [f1|]; [|split; auto].
    destruct (S_ISDIR (st_mode f1)); [split; auto|].
    cbv zeta.
    destruct (fs w (S (S (S (clock s)))) full_path) as [f3|] eqn:E3.
    + eexists _, _. repeat split.
    + split; [reflexivity|]. right. eexists. repeat split.
  - intros ->. eexists. split; reflexivity.
  - intros st d -> -> ->. eexists. split; reflexivity.
Qed.

Lemma add_file_outcomes_witness :
  (exists s',
      _add_file Samples.demo "/proj/missing.py" "missing.py" (new_builder Samples.demo)
      = Raise (FileNotFoundError "/proj/missing.py") s' /\
      wheel s' = wheel (new_builder Samples.demo)) /\
  (exists s',
      _add_file Samples.demo "/proj/pkg" "pkg" (new_builder Samples.demo)
      = Raise (IsADirectoryError "/proj/pkg") s' /\
      wheel s' = wheel (new_builder Samples.demo)).
Proof.
  split.
  - apply (proj1 (proj2 (add_file_outcomes Samples.demo "/proj/missing.py"
                           "missing.py" (new_builder Samples.demo)))).
    reflexivity.
  - apply (proj2 (proj2 (add_file_outcomes Samples.demo "/proj/pkg" "pkg"
                           (new_builder Samples.demo)))
             Samples.directory Samples.directory); reflexivity.
Defined.

Lemma rows_behind_synced (s : State) :
  map row_path (_records s) = names (wheel s) -> rows_behind s.
Proof.
  intros H. exists []. rewrite app_nil_r. split; [now rewrite H | simpl; lia].
Qed.

Lemma synced_add_file (w : World) (full rel : string) :
  hoare (fun s => map row_path (_records s) = names (wheel s))
        (_add_file w full rel)
        (fun _ s => map row_path (_records s) = names (wheel s))
        (fun _ s => rows_behind s).
Proof.
  intros s Hs. rewrite _add_file_unfold.
  destruct (fs w (clock s) full) as [st|]; [|now apply rows_behind_synced].
  destruct (fs w (S (clock s)) full) as [f1|]; [|now apply rows_behind_synced].
  destruct (S_ISDIR (st_mode f1)); [now apply rows_behind_synced|].
  cbv zeta.
  destruct (fs w (S (S (S (clock s)))) full) as [f3|].
  - cbn [wheel _records]. unfold names in *. rewrite !map_app, Hs. reflexivity.
  - unfold rows_behind. cbn [wheel _records]. eexists.
    unfold names in *. rewrite map_app, Hs. split; [reflexivity|]. simpl. lia.
Qed.

Lemma synced_write_to_zip (rel : string) (body : M string) :
  hoare (fun s => map row_path (_records s) = names (wheel s)) body
        (fun _ s => map row_path (_records s) = names (wheel s))
        (fun _ s => rows_behind s) ->
  hoare (fun s => map row_path (_records s) = names (wheel s))
        (_write_to_zip rel body)
        (fun _ s => map row_path (_records s) = names (wheel s))
        (fun _ s => rows_behind s).
Proof.
  intros Hb s Hs. rewrite _write_to_zip_unfold.
  specialize (Hb s Hs). destruct (body s) as [sio s'|]; [|exact Hb].
  cbn [wheel _records]. unfold names in *. rewrite !map_app, Hb. reflexivity.
Qed.

(** X3.  However the build ends, the rows name the members of the
    archive in the order they were written, except that the last member
    may have no row: this happens only when the build fails, and a build
    that succeeds has one row for each member. *)
Theorem rows_follow_members (w : World) :
  rows_behind (state_of (run_build w)) /\
  (is_ok (run_build w) = true ->
   map row_path (_records (state_of (run_build w)))
   = names (wheel (state_of (run_build w)))).
Proof.
  unfold run_build.
  destruct (build_archive w (new_builder w)) as (Hw & Hr & Hok).
  unfold rows_behind. rewrite Hw, Hr.
  pose proof (assemble_keeps w
                (fun s => map row_path (_records s) = names (wheel s))
                (fun _ s => rows_behind s)) as H.
  assert (Hrun : match assemble w (prepared w (new_builder w)) with
                 | Ok _ s => map row_path (_records s) = names (wheel s)
                 | Raise _ s => rows_behind s
                 end).
  { apply H; auto.
    - intros e s. apply rows_behind_synced.
    - apply synced_add_file.
    - apply synced_write_to_zip. }
  split.
  - destruct (assemble w (prepared w (new_builder w))); cbn [state_of].
    + apply rows_behind_synced in Hrun. exact Hrun.
    + exact Hrun.
  - intros Hbuilt. apply Hok in Hbuilt.
    destruct (assemble w (prepared w (new_builder w))); [exact Hrun|discriminate].
Qed.

Lemma rows_follow_members_witness :
  map row_path (_records Samples.demo_built) = names (wheel Samples.demo_built) /\
  rows_behind MoreSamples.vanishing_failed /\
  names (wheel MoreSamples.vanishing_failed) = ["pkg/__init__.py"%string] /\
  _records MoreSamples.vanishing_failed = [].
Proof.
  split; [|split; [|split]].
  - apply (proj2 (rows_follow_members Samples.demo)). vm_compute. reflexivity.
  - exact (proj1 (rows_follow_members MoreSamples.vanishing)).
  - vm_compute. reflexivity.
  - vm_compute. reflexivity.
Defined.

(* ================================================================== *)
(** * Further properties: what the build leaves around it              *)
(* ================================================================== *)

Lemma cwd_add_file (w : World) (c : string) (full rel : string) :
  hoare (fun s => cwd s = c) (_add_file w full rel)
        (fun _ s => cwd s = c) (fun _ s => cwd s = c).
Proof.
  intros s Hs. rewrite _add_file_unfold.
  destruct (fs w (clock s) full); [|exact Hs].
  destruct (fs w (S (clock s)) full) as [f1|]; [|exact Hs].
  destruct (S_ISDIR (st_mode f1)); [exact Hs|].
  cbv zeta. destruct (fs w (S (S (S (clock s)))) full); exact Hs.
Qed.

Lemma cwd_write_to_zip (c : string) (rel : string) (body : M string) :
  hoare (fun s => cwd s = c) body (fun _ s => cwd s = c) (fun _ s => cwd s = c) ->
  hoare (fun s => cwd s = c) (_write_to_zip rel body)
        (fun _ s => cwd s = c) (fun _ s => cwd s = c).
Proof.
  intros Hb s Hs. rewrite _write_to_zip_unfold.
  specialize (Hb s Hs). destruct (body s); exact Hb.
Qed.

Lemma cwd__build (w : World) (c : string) :
  hoare (fun s => cwd s = c) (_build w)
        (fun _ s => cwd s = c) (fun _ s => cwd s = c).
Proof.
  unfold _build. destruct (truthy _); [|now apply hoare_ret].
  intros s Hs. unfold bind at 1. unfold get_state.
  unfold bind at 1.
  assert (Htf : match try_finally
                        (chdir (path_str (_path w)) ;;;
                         _run_build_command w (path_join (_path w) "setup.py"))%builder
                        (chdir (cwd s)) s with
                | Ok _ s1 => cwd s1 = c
                | Raise _ s1 => cwd s1 = c
                end).
  { unfold try_finally, bind, chdir, modify, _run_build_command.
    destruct (build_exit w =? 0); exact Hs. }
  destruct (try_finally _ _ s) as [[] s1|e s1]; [|exact Htf].
  destruct (glob w _ _) as [|lib libs]; [exact Htf|].
  revert s1 Htf.
  apply (hoare_for_each (fun s1 => cwd s1 = c) _ _ (fun _ s1 => cwd s1 = c)).
  intros pkg _. apply build_file_keeps; auto. apply cwd_add_file.
Qed.

Lemma dirs_assemble (w : World) (s : State) :
  dirs (state_of (assemble w s)) = dirs s.
Proof.
  pose proof (assemble_keeps w (fun s1 => dirs s1 = dirs s)
                             (fun _ s1 => dirs s1 = dirs s)) as H.
  match type of H with
  | ?a -> ?b -> ?c -> ?d -> ?e -> ?f -> _ =>
      assert (H1 : a) by auto; assert (H2 : b) by auto;
      assert (H3 : c) by auto; assert (H4 : d) by auto;
      assert (H5 : e); [|assert (H6 : f)]
  end.
  - intros full rel s0 Hs0. rewrite _add_file_unfold.
    destruct (fs w (clock s0) full); [|exact Hs0].
    destruct (fs w (S (clock s0)) full) as [f1|]; [|exact Hs0].
    destruct (S_ISDIR (st_mode f1)); [exact Hs0|].
    cbv zeta. destruct (fs w (S (S (S (clock s0)))) full); exact Hs0.
  - intros rel body Hb s0 Hs0. rewrite _write_to_zip_unfold.
    specialize (Hb s0 Hs0). destruct (body s0) as [sio s'|e s']; exact Hb.
  - specialize (H H1 H2 H3 H4 H5 H6 s eq_refl). unfold assemble.
    match type of H with match ?r with _ => _ end => destruct r end; exact H.
Qed.

Lemma cwd_assemble (w : World) (s : State) :
  cwd (state_of (assemble w s)) = cwd s.
Proof.
  assert (H : hoare (fun s1 => cwd s1 = cwd s) (assemble w)
                    (fun _ s1 => cwd s1 = cwd s) (fun _ s1 => cwd s1 = cwd s)).
  { unfold assemble.
    eapply hoare_bind.
    { apply _copy_module_keeps; auto. apply cwd_add_file. }
    intros ?. eapply hoare_bind; [apply cwd__build|].
    intros ?. eapply hoare_bind.
    { unfold _write_metadata.
      eapply hoare_bind with (R := fun _ s1 => cwd s1 = cwd s).
      { destruct (declares_entry_points w); [|now apply hoare_ret].
        apply cwd_write_to_zip. now apply hoare_ret. }
      intros ?. eapply hoare_bind with (R := fun _ s1 => cwd s1 = cwd s).
      { apply hoare_for_each. intros b _. apply hoare_for_each. intros.
        apply cwd_add_file. }
      intros ?. eapply hoare_bind with (R := fun _ s1 => cwd s1 = cwd s).
      { apply cwd_write_to_zip. unfold _write_wheel_file.
        eapply hoare_bind; [apply of_sum_keeps; auto|]. intros t.
        now apply hoare_ret. }
      intros ?. apply cwd_write_to_zip. now apply hoare_ret. }
    intros ?. unfold _write_record. apply cwd_write_to_zip. unfold record_body.
    eapply hoare_bind with (R := fun _ s1 => cwd s1 = cwd s);
      [intros s1 Hs1; exact Hs1|].
    intros s1. now apply hoare_ret. }
  specialize (H s eq_refl). destruct (assemble w s); exact H.
Qed.

(** X4.  [_build] leaves the working directory as it found it, whether
    the build tool succeeds, fails, or a file of its output cannot be
    copied; a whole build leaves the working directory as it was, however
    it ends; when it succeeds the destination directory exists
    afterwards; and no directory that existed before is gone. *)
Theorem build_surroundings (w : World) :
  (forall s, cwd (state_of (_build w s)) = cwd s) /\
  cwd (state_of (run_build w)) = cwd0 w /\
  (is_ok (run_build w) = true ->
   In (path_str (_target_dir w)) (dirs (state_of (run_build w)))) /\
  (forall d, In d (dirs0 w) -> In d (dirs (state_of (run_build w)))).
Proof.
  assert (Hbuilt :
    cwd (state_of (run_build w)) = cwd0 w /\
    dirs (state_of (run_build w)) = dirs (prepared w (new_builder w))).
  { unfold run_build. rewrite build_unfold.
    pose proof (cwd_assemble w (prepared w (new_builder w))) as Hc.
    pose proof (dirs_assemble w (prepared w (new_builder w))) as Hd.
    destruct (assemble w (prepared w (new_builder w))) as [[] s2|e s2];
      cbn [state_of] in *.
    - destruct (wheel_filename w) as [e|name]; cbn [state_of].
      + split; [exact Hc | exact Hd].
      + unfold moved. destruct (disk_get (temp_path w) _);
          split; [exact Hc | exact Hd | exact Hc | exact Hd].
    - split; [exact Hc | exact Hd]. }
  destruct Hbuilt as [Hc Hd].
  split; [|split; [exact Hc|]].
  - intros s. pose proof (cwd__build w (cwd s) s eq_refl) as H.
    destruct (_build w s); exact H.
  - rewrite Hd. unfold prepared, new_builder. cbn [dirs].
    destruct (negb (mem_string (path_str (_target_dir w)) (dirs0 w))) eqn:E.
    + split; [intros _; now left|]. intros d Hin. now right.
    + split; [|auto]. intros _. apply negb_false_iff in E. now apply mem_string_In.
Qed.

Lemma build_surroundings_witness :
  cwd (state_of (_build Samples.native_failing Samples.native_copied))
  = cwd Samples.native_copied /\
  In "/proj/dist"%string (dirs (state_of (run_build Samples.demo))) /\
  In "/proj/dist"%string (dirs (state_of (run_build Samples.rebuild_failing))).
Proof.
  split; [|split].
  - apply (proj1 (build_surroundings Samples.native_failing)).
  - apply (proj1 (proj2 (proj2 (build_surroundings Samples.demo)))).
    vm_compute. reflexivity.
  - apply (proj2 (proj2 (proj2 (build_surroundings Samples.rebuild_failing)))).
    simpl. auto.
Defined.

(* ================================================================== *)
(** * Further properties: collecting the files                         *)
(* ================================================================== *)

Lemma relative_to_app (p b r : Path) : relative_to p b = Some r -> p = b ++ r.
Proof.
  revert p. induction b as [|x b IH]; intros p H.
  - destruct p; simpl in H; now injection H as <-.
  - destruct p as [|a p]; simpl in H; [discriminate|].
    destruct (String.eqb a x) eqn:E; [|discriminate].
    apply String.eqb_eq in E. subst. simpl. f_equal. auto.
Qed.

Lemma relative_to_of_app (b r : Path) : relative_to (b ++ r) b = Some r.
Proof.
  induction b as [|x b IH]; simpl; [now destruct r|].
  now rewrite String.eqb_refl.
Qed.

Lemma for_fold_value_in {A B} (P : B -> Prop) (body : B -> A -> M B) (l : list A) :
  (forall b x s b' s', In x l -> P b -> body b x s = Ok b' s' -> P b') ->
  forall b s b' s', P b -> for_fold l body b s = Ok b' s' -> P b'.
Proof.
  induction l as [|x l IH]; intros Hbody b s b' s' Hb H; simpl in H.
  - unfold ret in H. now injection H as <- _.
  - apply bind_ok in H. destruct H as (b1 & s1 & H1 & H2).
    eapply IH; [| |exact H2].
    + intros. eapply Hbody; eauto. now right.
    + eapply Hbody; eauto. now left.
Qed.

(** What [collect_file] knows of a pair it appends. *)
Lemma collect_file_added (w : World) (include : Include)
      (to_add : list (Path * Path)) (file : Path) (s : State) r s' :
  collect_file w include to_add file s = Ok r s' ->
  r = to_add \/
  exists rel,
    r = to_add ++ [(file, rel)] /\
    contains "__pycache__" (path_str file) = false /\
    rel_file_of w include file = Some rel /\
    is_excluded w (path_str rel) && is_package_include include = false /\
    String.eqb (path_suffix file) ".pyc" = false.
Proof.
  unfold collect_file, rel_file_of.
  destruct (contains _ _) eqn:Hc; [intros [= <- _]; now left|].
  unfold bind. destruct (is_dir w file s) as [d s1|]; [|discriminate].
  destruct d; [intros [= <- _]; now left|].
  destruct (is_package_include include && truthy (source include));
    unfold relative_to_M;
    (match goal with
     | |- context [relative_to ?p ?b] => destruct (relative_to p b) as [rel|]
     end; [|discriminate]);
    cbn [ret];
    (destruct (is_excluded w (path_str rel) && is_package_include include) eqn:Hex;
       [intros [= <- _]; now left|]);
    (destruct (String.eqb (path_suffix file) ".pyc") eqn:Hs;
       [intros [= <- _]; now left|]);
    (destruct (existsb _ _); intros [= <- _]; [now left|]);
    right; exists rel; auto.
Qed.

(** X5.  Every pair the collecting loop of [_copy_module] returns comes
    from a file listed by an include rule that is not scoped to other
    formats; its second component is the path of the file relative to the
    base of the rule, for a package rule with a source directory, and to
    the project root otherwise, so that root and relative path make up
    the file's path again; the file has neither [__pycache__] in its path
    nor the suffix [.pyc], and when the rule is a package rule the
    relative path is not excluded. *)
Theorem collected_files (w : World) (s s1 : State) (to_add : list (Path * Path)) :
  for_fold (includes w) (collect_include w) [] s = Ok to_add s1 ->
  Forall (fun x =>
            exists include,
              In include (includes w) /\ wheel_rule include = true /\
              In (fst x) (elements include) /\
              relative_to (fst x) (rule_root w include) = Some (snd x) /\
              fst x = rule_root w include ++ snd x /\
              contains "__pycache__" (path_str (fst x)) = false /\
              path_suffix (fst x) <> ".pyc"%string /\
              (is_package_include include = true ->
               is_excluded w (path_str (snd x)) = false))
         to_add.
Proof.
  apply (for_fold_value_in
           (fun l : list (Path * Path) => Forall _ l) (collect_include w) (includes w));
    [|constructor].
  intros b include s0 b' s0' Hinc Hb. unfold collect_include.
  destruct (negb _ && negb _) eqn:Hf; [now intros [= <- _]|].
  assert (Hrule : wheel_rule include = true).
  { unfold wheel_rule. destruct (formats include); [reflexivity|].
    simpl in Hf. now apply negb_false_iff in Hf. }
  apply (for_fold_value_in
           (fun l : list (Path * Path) => Forall _ l)
           (collect_file w include) (elements include)); [|exact Hb].
  intros c file s2 c' s2' Hfile Hc Hcf.
  apply collect_file_added in Hcf.
  destruct Hcf as [->|(rel & -> & Hpy & Hrel & Hex & Hsuf)]; [exact Hc|].
  apply Forall_app. split; [exact Hc|]. constructor; [|constructor].
  exists include. cbn [fst snd].
  assert (Hroot : relative_to file (rule_root w include) = Some rel).
  { unfold rel_file_of in Hrel. unfold rule_root.
    destruct (is_package_include include && truthy (source include)); exact Hrel. }
  split; [exact Hinc|]. split; [exact Hrule|]. split; [exact Hfile|].
  split; [exact Hroot|]. split; [now apply relative_to_app|].
  split; [exact Hpy|]. split.
  - intros E. rewrite E in Hsuf. discriminate.
  - intros Hp. rewrite Hp, andb_true_r in Hex. exact Hex.
Qed.

Lemma collected_files_witness :
  exists to_add s1,
    for_fold (includes Samples.demo) (collect_include Samples.demo) []
             (new_builder Samples.demo) = Ok to_add s1 /\
    List.length to_add = 4%nat /\
    Forall (fun x =>
              exists include,
                In include (includes Samples.demo) /\ wheel_rule include = true /\
                In (fst x) (elements include) /\
                relative_to (fst x) (rule_root Samples.demo include) = Some (snd x) /\
                fst x = rule_root Samples.demo include ++ snd x /\
                contains "__pycache__" (path_str (fst x)) = false /\
                path_suffix (fst x) <> ".pyc"%string /\
                (is_package_include include = true ->
                 is_excluded Samples.demo (path_str (snd x)) = false))
           to_add.
Proof.
  eexists _, _. split; [vm_compute; reflexivity|]. split; [reflexivity|].
  eapply (collected_files Samples.demo (new_builder Samples.demo)).
  vm_compute. reflexivity.
Defined.

(** X6.  Collecting can only fail on a file that does not lie under the
    directory its relative path is taken from, with the [ValueError] of
    [relative_to]; [_copy_module] then fails with it and has written
    nothing, since it writes only once every rule has been gone through. *)
Theorem collecting_fails_before_writing (w : World) (s s' : State) (e : Error) :
  for_fold (includes w) (collect_include w) [] s = Raise e s' ->
  (exists p b, e = ValueError p b /\ relative_to p b = None) /\
  _copy_module w s = Raise e s' /\
  wheel s' = wheel s /\ _records s' = _records s.
Proof.
  intros H.
  assert (Hh : hoare (fun s1 => wheel s1 = wheel s /\ _records s1 = _records s)
                     (for_fold (includes w) (collect_include w) [])
                     (fun _ s1 => wheel s1 = wheel s /\ _records s1 = _records s)
                     (fun e s1 => (wheel s1 = wheel s /\ _records s1 = _records s) /\
                                  exists p b, e = ValueError p b /\ relative_to p b = None)).
  { apply hoare_for_fold. intros b include _. unfold collect_include.
    destruct (_ && _); [now apply hoare_ret|].
    apply hoare_for_fold. intros c file _. unfold collect_file.
    destruct (contains _ _); [now apply hoare_ret|].
    eapply hoare_bind with (R := fun _ s1 => wheel s1 = wheel s /\ _records s1 = _records s).
    { intros s0 Hs0. unfold is_dir. destruct (fs w (clock s0) (path_str file)); exact Hs0. }
    intros d. destruct d; [now apply hoare_ret|].
    eapply hoare_bind with (R := fun _ s1 => wheel s1 = wheel s /\ _records s1 = _records s).
    { assert (Hrel : forall p b,
                 hoare (fun s1 => wheel s1 = wheel s /\ _records s1 = _records s)
                       (relative_to_M p b)
                       (fun _ s1 => wheel s1 = wheel s /\ _records s1 = _records s)
                       (fun e s1 => (wheel s1 = wheel s /\ _records s1 = _records s) /\
                                    exists p b, e = ValueError p b /\ relative_to p b = None)).
      { intros p q. unfold relative_to_M. destruct (relative_to p q) eqn:E.
        - now apply hoare_ret.
        - apply hoare_raise. intros s0 Hs0. split; [exact Hs0|]. eauto. }
      destruct (_ && _); apply Hrel. }
    intros rel. cbv beta.
    destruct (_ && _); [now apply hoare_ret|].
    destruct (String.eqb _ _); [now apply hoare_ret|].
    destruct (existsb _ _); now apply hoare_ret. }
  specialize (Hh s (conj eq_refl eq_refl)). rewrite H in Hh.
  destruct Hh as ((Hw & Hr) & Hv).
  split; [exact Hv|]. split; [|split; assumption].
  unfold _copy_module, bind. now rewrite H.
Qed.

Lemma collecting_fails_before_writing_witness :
  (exists p b, ValueError ["/"; "etc"; "motd"]%string Samples.proj = ValueError p b /\
               relative_to p b = None) /\
  _copy_module MoreSamples.stray (new_builder MoreSamples.stray)
  = Raise (ValueError ["/"; "etc"; "motd"]%string Samples.proj) MoreSamples.stray_failed /\
  wheel MoreSamples.stray_failed = wheel (new_builder MoreSamples.stray) /\
  _records MoreSamples.stray_failed = _records (new_builder MoreSamples.stray).
Proof.
  apply (collecting_fails_before_writing MoreSamples.stray
           (new_builder MoreSamples.stray) MoreSamples.stray_failed).
  vm_compute. reflexivity.
Defined.

(** ** Files that share a relative path *)

Lemma path_ltb_irrefl_key (p q : Path) : path_ltb p q = true -> path_eqb p q = false.
Proof.
  unfold path_ltb, path_eqb. destruct (path_compare p q); congruence.
Qed.

Lemma insert_sorted_same_key (k : Path) (x : Path * Path) (l : list (Path * Path)) :
  filter (fun y => path_eqb (snd y) k) (insert_sorted snd path_ltb x l)
  = filter (fun y => path_eqb (snd y) k) (x :: l).
Proof.
  induction l as [|y l IH]; [reflexivity|].
  cbn [insert_sorted]. destruct (path_ltb (snd y) (snd x)) eqn:Hlt; [|reflexivity].
  cbn [filter] in *. rewrite IH.
  destruct (path_eqb (snd y) k) eqn:Hy; [|reflexivity].
  apply path_ltb_irrefl_key in Hlt.
  assert (Hx : path_eqb (snd x) k = false).
  { destruct (path_eqb (snd x) k) eqn:Hx; [|reflexivity].
    apply path_eqb_eq in Hx, Hy. rewrite <- Hx in Hy. rewrite Hy in Hlt.
    rewrite (proj2 (path_eqb_eq (snd x) (snd x)) eq_refl) in Hlt. discriminate. }
  now rewrite Hx.
Qed.

Lemma sorted_same_key (k : Path) (l : list (Path * Path)) :
  filter (fun y => path_eqb (snd y) k) (sorted snd path_ltb l)
  = filter (fun y => path_eqb (snd y) k) l.
Proof.
  induction l as [|x l IH]; [reflexivity|].
  cbn [sorted]. rewrite insert_sorted_same_key. cbn [filter]. now rewrite IH.
Qed.

Lemma add_files_members (w : World) (l : list (Path * Path)) :
  static w ->
  forall s s',
    for_each l (fun x => _add_file w (path_str (fst x)) (path_str (snd x))) s
    = Ok tt s' ->
    exists ms,
      wheel s' = wheel s ++ ms /\
      Forall2 (fun e x =>
                 exists f, fs w 0 (path_str (fst x)) = Some f /\
                           e = copied_entry (path_str (snd x)) (st_mode f) (content f))
              ms l.
Proof.
  intros U. induction l as [|x l IH]; intros s s' H; simpl in H.
  - unfold ret in H. injection H as <-. exists []. rewrite app_nil_r. auto.
  - apply bind_ok in H. destruct H as ([] & s1 & H1 & H2).
    apply IH in H2. destruct H2 as (ms & Hw & Hms).
    rewrite _add_file_unfold in H1.
    rewrite !(U (path_str (fst x)) (clock s)), !(U (path_str (fst x)) (S (clock s))),
      !(U (path_str (fst x)) (S (S (clock s)))),
      !(U (path_str (fst x)) (S (S (S (clock s))))) in H1.
    destruct (fs w 0 (path_str (fst x))) as [f|] eqn:Ef; [|discriminate].
    destruct (S_ISDIR (st_mode f)); [discriminate|].
    cbv zeta in H1. injection H1 as <-. cbn [wheel] in Hw.
    eexists (_ :: ms). rewrite Hw, <- app_assoc. split; [reflexivity|].
    constructor; [|exact Hms]. exists f. split; [exact Ef | reflexivity].
Qed.

(** X7.  [_copy_module] writes every collected pair once, and pairs with
    the same relative path in the order in which they were collected:
    sorting does not reorder them.  When the source files do not change
    during the build, the member written for a pair holds the bytes of
    the pair's file under the pair's relative path, so of two files
    collected under one archive path the one collected last is the last
    member of that name. *)
Theorem same_path_keeps_order (w : World) (s s' : State) :
  static w ->
  _copy_module w s = Ok tt s' ->
  exists to_add s1 written ms,
    for_fold (includes w) (collect_include w) [] s = Ok to_add s1 /\
    Permutation to_add written /\
    (forall rel, filter (fun x => path_eqb (snd x) rel) written
                 = filter (fun x => path_eqb (snd x) rel) to_add) /\
    wheel s' = wheel s ++ ms /\
    Forall2 (fun e x =>
               exists f, fs w 0 (path_str (fst x)) = Some f /\
                         e = copied_entry (path_str (snd x)) (st_mode f) (content f))
            ms written.
Proof.
  intros U H. unfold _copy_module in H.
  apply bind_ok in H. destruct H as (to_add & s1 & Hc & Hadd).
  pose proof (collect_leaves_archive w s) as Hleave. rewrite Hc in Hleave.
  destruct Hleave as [Hw _].
  apply (add_files_members w _ U) in Hadd. destruct Hadd as (ms & Hms & Hall).
  exists to_add, s1, (sorted snd path_ltb to_add), ms.
  split; [exact Hc|]. split; [apply sorted_perm|].
  split; [intros rel; apply sorted_same_key|].
  split; [now rewrite <- Hw | exact Hall].
Qed.

Lemma same_path_keeps_order_witness :
  exists to_add s1 written ms,
    for_fold (includes Samples.dup) (collect_include Samples.dup) []
             (new_builder Samples.dup) = Ok to_add s1 /\
    Permutation to_add written /\
    (forall rel, filter (fun x => path_eqb (snd x) rel) written
                 = filter (fun x => path_eqb (snd x) rel) to_add) /\
    wheel (state_of (_copy_module Samples.dup (new_builder Samples.dup)))
    = wheel (new_builder Samples.dup) ++ ms /\
    Forall2 (fun e x =>
               exists f, fs Samples.dup 0 (path_str (fst x)) = Some f /\
                         e = copied_entry (path_str (snd x)) (st_mode f) (content f))
            ms written.
Proof.
  apply (same_path_keeps_order Samples.dup (new_builder Samples.dup)
           (state_of (_copy_module Samples.dup (new_builder Samples.dup)))).
  - intros p t. reflexivity.
  - vm_compute. reflexivity.
Defined.

(* ================================================================== *)
(** * Further properties: the layout of the archive                    *)
(* ================================================================== *)

Lemma add_each_ok {A} (w : World) (f g : A -> string) (l : list A) :
  forall s s',
    for_each l (fun x => _add_file w (f x) (g x)) s = Ok tt s' ->
    exists ms,
      wheel s' = wheel s ++ ms /\ names ms = map g l /\ Forall is_copied ms.
Proof.
  induction l as [|x l IH]; intros s s' H; simpl in H.
  - unfold ret in H. injection H as <-. exists []. rewrite app_nil_r. auto.
  - apply bind_ok in H. destruct H as ([] & s1 & H1 & H2).
    apply IH in H2. destruct H2 as (ms & Hw & Hn & Hc).
    rewrite _add_file_unfold in H1.
    destruct (fs w (clock s) (f x)); [|discriminate].
    destruct (fs w (S (clock s)) (f x)) as [f1|]; [|discriminate].
    destruct (S_ISDIR (st_mode f1)); [discriminate|].
    cbv zeta in H1.
    destruct (fs w (S (S (S (clock s)))) (f x)); [|discriminate].
    injection H1 as <-. cbn [wheel] in Hw.
    eexists (_ :: ms). rewrite Hw, <- app_assoc. split; [reflexivity|].
    split; [simpl; now rewrite Hn|]. constructor; [reflexivity | exact Hc].
Qed.

Lemma fill_archive_ok_inv (w : World) (s s3 : State) :
  fill_archive w s = Ok tt s3 ->
  exists s1 s2,
    _copy_module w s = Ok tt s1 /\ _build w s1 = Ok tt s2 /\
    _write_metadata w s2 = Ok tt s3.
Proof.
  unfold fill_archive. intros H.
  apply bind_ok in H. destruct H as ([] & s1 & H1 & H).
  apply bind_ok in H. destruct H as ([] & s2 & H2 & H3).
  eauto.
Qed.

Lemma copied_add_file (w : World) (full rel : string) :
  hoare (fun s => Forall is_copied (wheel s)) (_add_file w full rel)
        (fun _ s => Forall is_copied (wheel s)) (fun _ _ => True).
Proof.
  intros s Hs. rewrite _add_file_unfold.
  destruct (fs w (clock s) full); [|exact I].
  destruct (fs w (S (clock s)) full) as [f1|]; [|exact I].
  destruct (S_ISDIR (st_mode f1)); [exact I|].
  cbv zeta. destruct (fs w (S (S (S (clock s)))) full); [|exact I].
  cbn [wheel]. apply Forall_app. split; [exact Hs|]. repeat constructor.
Qed.

(** The members [_write_metadata] adds, with their names and texts. *)
Lemma _write_metadata_members (w : World) (s s' : State) :
  _write_metadata w s = Ok tt s' ->
  exists licenses t,
    tag w = inr t /\
    wheel s' =
      wheel s
      ++ (if declares_entry_points w
          then [generated_entry (entry_points_path w)
                                (encode_utf8 (entry_points_text w))]
          else [])
      ++ licenses
      ++ [generated_entry (dist_info w ++ "/WHEEL") (encode_utf8 (wheel_text w t));
          generated_entry (dist_info w ++ "/METADATA")
                          (encode_utf8 (metadata_content w))] /\
    names licenses
    = map (fun p => (dist_info w ++ "/" ++ path_name p)%string) (license_files w) /\
    Forall is_copied licenses.
Proof.
  unfold _write_metadata. intros H.
  apply bind_ok in H. destruct H as ([] & s1 & H1 & H).
  apply bind_ok in H. destruct H as ([] & s2 & H2 & H).
  apply bind_ok in H. destruct H as ([] & s3 & H3 & H4).
  cbn [for_each] in H2.
  apply bind_ok in H2. destruct H2 as ([] & sa & Ha & H2).
  apply bind_ok in H2. destruct H2 as ([] & sb & Hb & H2).
  unfold ret in H2. injection H2 as <-.
  apply add_each_ok in Ha. destruct Ha as (ma & Hwa & Hna & Hca).
  apply add_each_ok in Hb. destruct Hb as (mb & Hwb & Hnb & Hcb).
  rewrite _write_to_zip_unfold in H3, H4.
  unfold _write_wheel_file, bind, of_sum in H3.
  destruct (tag w) as [e|t] eqn:Ht; [discriminate|].
  cbn [ret] in H3. cbv zeta in H3. apply ok_inv in H3. destruct H3 as [_ <-].
  unfold _write_metadata_file, ret in H4. cbv zeta in H4.
  apply ok_inv in H4. destruct H4 as [_ <-].
  cbn [wheel]. exists (ma ++ mb), t.
  split; [reflexivity|]. split; [|split].
  - rewrite Hwb, Hwa.
    destruct (declares_entry_points w).
    + rewrite _write_to_zip_unfold in H1. unfold _write_entry_points, ret in H1.
      cbv zeta in H1. apply ok_inv in H1. destruct H1 as [_ <-]. cbn [wheel].
      rewrite <- !app_assoc. reflexivity.
    + unfold ret in H1. apply ok_inv in H1. destruct H1 as [_ <-].
      rewrite <- !app_assoc. reflexivity.
  - unfold names in *. unfold license_files. rewrite !map_app.
    exact (f_equal2 (@app string) Hna Hnb).
  - apply Forall_app. split; assumption.
Qed.

(** X8.  A successful build leaves this archive: the project files and
    the files of the native build, all copied; then entry_points.txt when
    entry points are declared; then the license files found at the
    project root, those named COPYING* before those named LICENSE*, each
    group in ascending order, under the dist-info directory; then WHEEL,
    whose tag is the one [tag] computes, METADATA and RECORD, in this
    order. *)
Theorem archive_layout (w : World) (s : State) :
  run_build w = Ok tt s ->
  exists files licenses t,
    tag w = inr t /\
    wheel s =
      files
      ++ (if declares_entry_points w
          then [generated_entry (entry_points_path w)
                                (encode_utf8 (entry_points_text w))]
          else [])
      ++ licenses
      ++ [generated_entry (dist_info w ++ "/WHEEL") (encode_utf8 (wheel_text w t));
          generated_entry (dist_info w ++ "/METADATA")
                          (encode_utf8 (metadata_content w));
          generated_entry (record_path w)
                          (encode_utf8 (manifest_text w (removelast (_records s))))] /\
    Forall is_copied files /\
    Forall is_copied licenses /\
    names licenses
    = map (fun p => (dist_info w ++ "/" ++ path_name p)%string) (license_files w).
Proof.
  unfold run_build. intros H. apply build_ok_inv in H.
  destruct H as (s3 & Hfill & Hw & Hr).
  rewrite Hr, removelast_last.
  apply fill_archive_ok_inv in Hfill. destruct Hfill as (s1 & s2 & H1 & H2 & H3).
  assert (Hfiles : Forall is_copied (wheel s2)).
  { pose proof (_copy_module_keeps w (fun s => Forall is_copied (wheel s))
                  (fun _ _ => True)) as Hc.
    specialize (Hc (fun s H => H) (fun _ _ _ => I) (copied_add_file w)
                   (prepared w (new_builder w)) (Forall_nil _)).
    rewrite H1 in Hc.
    pose proof (_build_keeps w (fun s => Forall is_copied (wheel s))
                  (fun _ _ => True)) as Hb.
    specialize (Hb (fun s H => H) (fun _ s H => H) (fun _ _ _ => I)
                   (fun _ _ _ _ => I) (copied_add_file w) s1 Hc).
    now rewrite H2 in Hb. }
  apply _write_metadata_members in H3.
  destruct H3 as (licenses & t & Ht & Hw3 & Hn & Hc).
  exists (wheel s2), licenses, t.
  split; [exact Ht|]. split; [|auto].
  rewrite Hw, Hw3, <- !app_assoc. reflexivity.
Qed.

Lemma archive_layout_witness :
  exists files licenses t,
    tag Samples.demo = inr t /\
    wheel Samples.demo_built =
      files
      ++ (if declares_entry_points Samples.demo
          then [generated_entry (entry_points_path Samples.demo)
                                (encode_utf8 (entry_points_text Samples.demo))]
          else [])
      ++ licenses
      ++ [generated_entry (dist_info Samples.demo ++ "/WHEEL")
                          (encode_utf8 (wheel_text Samples.demo t));
          generated_entry (dist_info Samples.demo ++ "/METADATA")
                          (encode_utf8 (metadata_content Samples.demo));
          generated_entry (record_path Samples.demo)
                          (encode_utf8 (manifest_text Samples.demo
                                          (removelast (_records Samples.demo_built))))] /\
    Forall is_copied files /\
    Forall is_copied licenses /\
    names licenses
    = map (fun p => (dist_info Samples.demo ++ "/" ++ path_name p)%string)
          (license_files Samples.demo).
Proof.
  apply (@archive_layout Samples.demo Samples.demo_built).
  vm_compute. reflexivity.
Defined.

(* ================================================================== *)
(** * Further properties: the file name and the tag                    *)
(* ================================================================== *)

Lemma moved_final (w : World) (name : string) (s2 : State) :
  final_path w name <> temp_path w ->
  disk_get (final_path w name) (disk (moved w name (closed w s2)))
  = Some (temp_mode, wheel s2) /\
  wheel (moved w name (closed w s2)) = wheel s2.
Proof.
  intros Hne. unfold moved, closed. cbn [disk set_disk].
  set (d := disk_put (temp_path w) (temp_mode, wheel s2) (disk s2)).
  set (d' := match disk_get (final_path w name) d with
             | Some _ => disk_del (final_path w name) d
             | None => d
             end).
  assert (Htemp : disk_get (temp_path w) d' = Some (temp_mode, wheel s2)).
  { unfold d'. destruct (disk_get (final_path w name) d).
    - rewrite disk_get_del_other by congruence. apply disk_get_put_same.
    - apply disk_get_put_same. }
  rewrite Htemp. cbn [disk set_disk wheel]. split; [apply disk_get_put_same|reflexivity].
Qed.

(** X9.  [make_in] succeeds exactly when [build] does and leaves what
    [build] leaves; the name it returns is the escaped name and version
    of the package and the tag, with the extension [.whl], and the file of
    that name in the target directory holds the archive just built. *)
Theorem make_in_returns_the_file (w : World) :
  is_ok (make_in w) = is_ok (run_build w) /\
  state_of (make_in w) = state_of (run_build w) /\
  (forall name s,
      make_in w = Ok name s ->
      exists t,
        tag w = inr t /\
        name = (escape_name (pretty_name w) ++ "-" ++ escape_version (version w)
                ++ "-" ++ t ++ ".whl")%string /\
        run_build w = Ok tt s /\
        (final_path w name <> temp_path w ->
         disk_get (final_path w name) (disk s) = Some (temp_mode, wheel s))).
Proof.
  unfold make_in, run_build, bind. rewrite build_unfold.
  destruct (assemble w (prepared w (new_builder w))) as [[] s2|e s2].
  - destruct (wheel_filename w) as [e|name0] eqn:Hn.
    + cbn [of_sum raise is_ok state_of].
      split; [reflexivity|]. split; [reflexivity|]. intros name s [=].
    + cbn [of_sum ret is_ok state_of].
      split; [reflexivity|]. split; [reflexivity|].
      intros name s H. apply ok_inv in H. destruct H as [<- <-].
      unfold wheel_filename in Hn. destruct (tag w) as [e|t]; [discriminate|].
      injection Hn as <-.
      exists t. split; [reflexivity|]. split; [reflexivity|]. split; [reflexivity|].
      intros Hne. destruct (moved_final w _ s2 Hne) as [Hd Hw].
      rewrite Hd, Hw. reflexivity.
  - cbn [is_ok state_of].
    split; [reflexivity|]. split; [reflexivity|]. intros name s [=].
Qed.

Lemma make_in_returns_the_file_witness :
  exists t,
    tag Samples.rebuild = inr t /\
    "My_Pkg-1.0-py3-none-any.whl"%string
    = (escape_name (pretty_name Samples.rebuild) ++ "-"
       ++ escape_version (version Samples.rebuild) ++ "-" ++ t ++ ".whl")%string /\
    run_build Samples.rebuild = Ok tt Samples.rebuild_built /\
    disk_get (final_path Samples.rebuild "My_Pkg-1.0-py3-none-any.whl")
             (disk Samples.rebuild_built)
    = Some (temp_mode, wheel Samples.rebuild_built).
Proof.
  destruct (proj2 (proj2 (make_in_returns_the_file Samples.rebuild))
                  "My_Pkg-1.0-py3-none-any.whl"%string Samples.rebuild_built)
    as (t & Ht & Hn & Hb & Hd).
  - vm_compute. reflexivity.
  - exists t. repeat (split; [assumption|]).
    apply Hd. vm_compute. discriminate.
Defined.

(** X10.  With a build script and no tag for the host, [tag] raises
    [StopIteration]: writing WHEEL raises it and writes nothing, and
    neither [build] nor [make_in] can succeed, whatever the rest of the
    project is. *)
Theorem no_host_tag_no_wheel (w : World) :
  truthy (build_script w) = true ->
  sys_tags w = [] ->
  tag w = inl StopIteration /\
  (forall s, _write_to_zip (dist_info w ++ "/WHEEL") (_write_wheel_file w) s
             = Raise StopIteration s) /\
  is_ok (run_build w) = false /\
  is_ok (make_in w) = false.
Proof.
  intros Hb Ht.
  assert (Htag : tag w = inl StopIteration) by (unfold tag; now rewrite Hb, Ht).
  split; [exact Htag|]. split; [|split].
  - intros s. rewrite _write_to_zip_unfold.
    unfold _write_wheel_file, bind, of_sum. rewrite Htag. reflexivity.
  - unfold run_build. rewrite build_unfold.
    destruct (assemble w _) as [[] s2|]; [|reflexivity].
    unfold wheel_filename. rewrite Htag. reflexivity.
  - unfold make_in, bind. rewrite build_unfold.
    destruct (assemble w _) as [[] s2|]; [|reflexivity].
    unfold wheel_filename. rewrite Htag. reflexivity.
Qed.

Lemma no_host_tag_no_wheel_witness :
  tag MoreSamples.untagged = inl StopIteration /\
  (forall s, _write_to_zip (dist_info MoreSamples.untagged ++ "/WHEEL")
                           (_write_wheel_file MoreSamples.untagged) s
             = Raise StopIteration s) /\
  is_ok (run_build MoreSamples.untagged) = false /\
  is_ok (make_in MoreSamples.untagged) = false.
Proof.
  apply (no_host_tag_no_wheel MoreSamples.untagged); reflexivity.
Defined.

(* ================================================================== *)
(** * Further properties: license files and the native build           *)
(* ================================================================== *)

Lemma is_ok_bind_l {A B} (m : M A) (k : A -> M B) (s : State) :
  is_ok (m s) = false -> is_ok (bind m k s) = false.
Proof. unfold bind. destruct (m s); [discriminate|reflexivity]. Qed.

Lemma is_ok_bind_r {A B} (m : M A) (k : A -> M B) (s : State) :
  (forall a s', is_ok (k a s') = false) -> is_ok (bind m k s) = false.
Proof. intros H. unfold bind. destruct (m s); [apply H|reflexivity]. Qed.

Lemma for_each_fails {A} (l : list A) (body : A -> M unit) (x : A) :
  In x l -> (forall s, is_ok (body x s) = false) ->
  forall s, is_ok (for_each l body s) = false.
Proof.
  intros Hin Hx. induction l as [|y l IH]; [contradiction|].
  intros s. simpl. destruct Hin as [->|Hin].
  - apply is_ok_bind_l. apply Hx.
  - apply is_ok_bind_r. intros ? s'. now apply IH.
Qed.

Lemma add_file_directory (w : World) (full rel : string) :
  (forall t, exists f, fs w t full = Some f /\ S_ISDIR (st_mode f) = true) ->
  forall s, exists s',
    _add_file w full rel s = Raise (IsADirectoryError full) s' /\
    wheel s' = wheel s /\ _records s' = _records s.
Proof.
  intros Hd s. rewrite _add_file_unfold.
  destruct (Hd (clock s)) as (f0 & -> & _).
  destruct (Hd (S (clock s))) as (f1 & -> & ->).
  eexists. repeat split.
Qed.

(** X11.  A directory whose name matches COPYING* or LICENSE* at the
    project root makes the build fail: [_write_metadata] hands every match
    to [_add_file], which raises [IsADirectoryError] on a directory
    without writing anything, so neither [_write_metadata] nor [build] can
    succeed. *)
Theorem license_directory_fails (w : World) (p : Path) :
  In p (glob w (_path w) "COPYING*") \/ In p (glob w (_path w) "LICENSE*") ->
  (forall t, exists f, fs w t (path_str p) = Some f /\ S_ISDIR (st_mode f) = true) ->
  (forall rel s, exists s',
      _add_file w (path_str p) rel s = Raise (IsADirectoryError (path_str p)) s' /\
      wheel s' = wheel s /\ _records s' = _records s) /\
  (forall s, is_ok (_write_metadata w s) = false) /\
  is_ok (run_build w) = false.
Proof.
  intros Hin Hd.
  assert (Hadd : forall rel s, is_ok (_add_file w (path_str p) rel s) = false).
  { intros rel s. destruct (add_file_directory w (path_str p) rel Hd s) as (s' & -> & _).
    reflexivity. }
  assert (Hmeta : forall s, is_ok (_write_metadata w s) = false).
  { intros s. unfold _write_metadata.
    apply is_ok_bind_r. intros ? s1. apply is_ok_bind_l.
    destruct Hin as [Hin|Hin].
    - apply (for_each_fails _ _ "COPYING"%string); [simpl; auto|].
      intros s2. apply (for_each_fails _ _ p).
      + apply (Permutation_in _ (sorted_perm _ _ (fun x : Path => x) path_ltb _)).
        exact Hin.
      + intros s3. apply Hadd.
    - apply (for_each_fails _ _ "LICENSE"%string); [simpl; auto|].
      intros s2. apply (for_each_fails _ _ p).
      + apply (Permutation_in _ (sorted_perm _ _ (fun x : Path => x) path_ltb _)).
        exact Hin.
      + intros s3. apply Hadd. }
  split; [intros rel s; now apply add_file_directory|]. split; [exact Hmeta|].
  unfold run_build. rewrite build_unfold.
  assert (Hass : is_ok (assemble w (prepared w (new_builder w))) = false).
  { unfold assemble. apply is_ok_bind_r. intros ? s1.
    apply is_ok_bind_r. intros ? s2. apply is_ok_bind_l. apply Hmeta. }
  destruct (assemble w _); [discriminate|reflexivity].
Qed.

Lemma license_directory_fails_witness :
  (forall s, is_ok (_write_metadata MoreSamples.license_dir s) = false) /\
  is_ok (run_build MoreSamples.license_dir) = false /\
  exists s, run_build MoreSamples.license_dir
            = Raise (IsADirectoryError "/proj/LICENSES") s.
Proof.
  destruct (license_directory_fails MoreSamples.license_dir
              (Samples.under ["LICENSES"%string])) as (_ & Hm & Hb).
  - right. simpl. auto.
  - intros t. eexists. split; reflexivity.
  - split; [exact Hm|]. split; [exact Hb|].
    eexists. vm_compute. reflexivity.
Defined.

Lemma build_file_unfold (w : World) (lib pkg : Path) (s : State) :
  build_file w lib pkg s =
  if match fs w (clock s) (path_str pkg) with
     | Some f => S_ISDIR (st_mode f)
     | None => false
     end || is_excluded w (path_str pkg)
  then Ok tt (tick s)
  else match relative_to pkg lib with
       | None => Raise (ValueError pkg lib) (tick s)
       | Some rel =>
           if mem_string (path_str rel) (names (wheel s))
           then Ok tt (tick s)
           else _add_file w (path_str pkg) (path_str rel) (tick s)
       end.
Proof.
  unfold build_file, bind, is_dir, relative_to_M, namelist, names.
  destruct (fs w (clock s) (path_str pkg)) as [f|].
  - destruct (S_ISDIR (st_mode f) || is_excluded w (path_str pkg)); [reflexivity|].
    destruct (relative_to pkg lib) as [rel|]; [|reflexivity].
    unfold ret. cbn [wheel tick]. destruct (mem_string _ _); reflexivity.
  - destruct (false || is_excluded w (path_str pkg)); [reflexivity|].
    destruct (relative_to pkg lib) as [rel|]; [|reflexivity].
    unfold ret. cbn [wheel tick]. destruct (mem_string _ _); reflexivity.
Qed.

Lemma native_so_far_snoc (w : World) (s s1 : State) (e : ZipEntry) (a : Archive) :
  native_so_far w s s1 -> a = wheel s1 ++ [e] -> native_member w (wheel s) e ->
  exists ms, a = wheel s ++ ms /\ Forall (native_member w (wheel s)) ms.
Proof.
  intros (ms & Hw & Hall) -> He. exists (ms ++ [e]). split.
  - rewrite Hw. now rewrite app_assoc.
  - apply Forall_app. split; [exact Hall|]. now constructor.
Qed.

Lemma native_step (w : World) (s : State) (lib : Path) (rest : list Path) (pkg : Path) :
  glob w (path_join (_path w) "build") "lib.*" = lib :: rest ->
  In pkg (glob w lib "**/*") ->
  hoare (native_so_far w s) (build_file w lib pkg)
        (fun _ => native_so_far w s) (fun _ => native_so_far w s).
Proof.
  intros Hlib Hin s1 Hs1. rewrite build_file_unfold.
  destruct (_ || is_excluded w (path_str pkg)) eqn:Hde; [exact Hs1|].
  apply orb_false_elim in Hde. destruct Hde as [_ Hex].
  destruct (relative_to pkg lib) as [rel|] eqn:Hrel; [|exact Hs1].
  destruct (mem_string (path_str rel) (names (wheel s1))) eqn:Hmem; [exact Hs1|].
  assert (Hnew : ~ In (path_str rel) (names (wheel s))).
  { intros Hold. destruct Hs1 as (ms & Hw & _).
    assert (Hm : mem_string (path_str rel) (names (wheel s1)) = true).
    { apply mem_string_In. rewrite Hw. unfold names. rewrite map_app.
      apply in_or_app. now left. }
    congruence. }
  rewrite _add_file_unfold. cbn [clock tick].
  destruct (fs w (S (clock s1)) (path_str pkg)) as [st|] eqn:E0; [|exact Hs1].
  destruct (fs w (S (S (clock s1))) (path_str pkg)) as [f1|] eqn:E1; [|exact Hs1].
  destruct (S_ISDIR (st_mode f1)) eqn:Ed; [exact Hs1|].
  cbv zeta.
  assert (Hmember :
    native_member w (wheel s)
      (copied_entry (path_str rel) (st_mode st)
         (match fs w (S (S (S (clock s1)))) (path_str pkg) with
          | Some f2 => content f2
          | None => content f1
          end))).
  { exists lib, rest, pkg, rel, (S (clock s1)).
    split; [exact Hlib|]. split; [exact Hin|]. split; [exact Hrel|].
    split; [exact Hex|]. split; [exact Hnew|].
    exists st, f1. split; [exact E0|]. split; [exact E1|]. split; [exact Ed|].
    reflexivity. }
  destruct (fs w (S (S (S (S (clock s1))))) (path_str pkg));
    cbv beta iota; unfold native_so_far;
    (eapply (@native_so_far_snoc w s s1 _ _ Hs1); [reflexivity | exact Hmember]).
Qed.

Lemma native_member_static (w : World) (before : Archive) (e : ZipEntry) :
  static w -> native_member w before e -> native_copy w before e.
Proof.
  intros U (lib & rest & pkg & rel & t & Hlib & Hin & Hrel & Hex & Hnew & Hc).
  destruct Hc as (st & opened & H0 & H1 & Hd & ->).
  rewrite (U (path_str pkg) t) in H0.
  rewrite (U (path_str pkg) (S t)) in H1.
  rewrite (U (path_str pkg) (S (S t))).
  rewrite H0 in H1. injection H1 as <-. rewrite H0.
  exists lib, rest, pkg, rel, st. repeat (split; [assumption|]). reflexivity.
Qed.

(** X12.  Whatever [_build] does to the archive, however it ends, is to
    append members, and the members that were there stay as they were.
    Each member it adds is the copy of a file that the first [lib.*]
    directory of the build lists, a file that is not excluded: its name
    is the path of the file relative to that directory, a name the
    archive did not have when [_build] started, its mode is the one
    [os.stat] returns for the file and its bytes are those read from the
    file; when the files do not change during the build these are the
    mode and the bytes of the file.  Without a build script nothing is
    added. *)
Theorem native_members (w : World) (s : State) :
  exists ms,
    wheel (state_of (_build w s)) = wheel s ++ ms /\
    Forall (native_member w (wheel s)) ms /\
    (static w -> Forall (native_copy w (wheel s)) ms) /\
    (truthy (build_script w) = false -> ms = []).
Proof.
  destruct (truthy (build_script w)) eqn:Hbs.
  2: { exists []. unfold _build. rewrite Hbs. cbn [ret state_of].
       rewrite app_nil_r. repeat split; constructor. }
  assert (H : native_so_far w s (state_of (_build w s))).
  { unfold _build. rewrite Hbs. unfold bind at 1. unfold get_state.
    unfold bind at 1.
    assert (Htf : native_so_far w s
                    (state_of (try_finally
                        (chdir (path_str (_path w)) ;;;
                         _run_build_command w (path_join (_path w) "setup.py"))%builder
                        (chdir (cwd s)) s))).
    { unfold try_finally, bind, chdir, modify, _run_build_command.
      destruct (build_exit w =? 0); cbn; exists []; rewrite app_nil_r;
        split; constructor. }
    destruct (try_finally _ _ s) as [[] s1|e s1]; [|exact Htf].
    cbn [state_of] in Htf.
    destruct (glob w (path_join (_path w) "build") "lib.*") as [|lib libs] eqn:Hlib;
      [exact Htf|].
    pose proof (hoare_for_each (native_so_far w s) (glob w lib "**/*")
                  (build_file w lib) (fun _ => native_so_far w s)
                  (fun pkg Hin => @native_step w s lib libs pkg Hlib Hin) s1 Htf)
      as Hloop.
    destruct (for_each _ _ s1); exact Hloop. }
  destruct H as (ms & H1 & H2). exists ms. split; [exact H1|].
  split; [exact H2|]. split; [|discriminate].
  intros U. eapply Forall_impl; [|exact H2].
  intros e He. now apply native_member_static.
Qed.

Lemma native_members_witness :
  static Samples.native /\
  wheel Samples.native_extended
  = wheel Samples.native_copied
    ++ [copied_entry "pkg/_speedups.so" (Z.lor S_IFREG mode_755) (encode_utf8 "ELF")] /\
  native_copy Samples.native (wheel Samples.native_copied)
    (copied_entry "pkg/_speedups.so" (Z.lor S_IFREG mode_755) (encode_utf8 "ELF")).
Proof.
  assert (U : static Samples.native) by (intros p t; reflexivity).
  destruct (native_members Samples.native Samples.native_copied)
    as (ms & Hw & _ & Hall & _).
  specialize (Hall U).
  assert (Hms : wheel Samples.native_copied ++ ms
                = wheel Samples.native_copied
                  ++ [copied_entry "pkg/_speedups.so" (Z.lor S_IFREG mode_755)
                                   (encode_utf8 "ELF")]).
  { transitivity (wheel (state_of (_build Samples.native Samples.native_copied))).
    - symmetry. exact Hw.
    - vm_compute. reflexivity. }
  apply app_inv_head in Hms. subst ms.
  split; [exact U|]. split; [vm_compute; reflexivity|].
  inversion Hall as [|x l Hx Hl]. exact Hx.
Defined.

(* ================================================================== *)
(** * Further properties: no file is lost                              *)
(* ================================================================== *)

Lemma Forall2_pick {A B} (R : A -> B -> Prop) (l1 : list A) (l2 : list B) (y : B) :
  Forall2 R l1 l2 -> In y l2 -> exists x, In x l1 /\ R x y.
Proof.
  induction 1 as [|x0 y0 l1 l2 HR _ IH]; intros Hin; [contradiction|].
  destruct Hin as [->|Hin].
  - exists x0. split; [now left|exact HR].
  - destruct (IH Hin) as (x1 & H1 & H2). exists x1. split; [now right|exact H2].
Qed.

(** X13.  When the source files do not change during the build, no file
    that gets through the filters is lost: a file listed by an include
    rule that is not scoped to other formats, with no [__pycache__] in
    its path, not a directory, lying under the root its relative path is
    taken from, not excluded when the rule is a package rule, and not
    ending in [.pyc], is among the pairs the collecting loop returns
    whenever that loop returns, wherever the rule and the file stand in
    their lists; and when [_copy_module] returns the file exists and the
    archive holds a member named by the relative path with the file's
    bytes. *)
Theorem passing_files_are_written (w : World) (include : Include) (file rel : Path) :
  static w ->
  In include (includes w) -> In file (elements include) ->
  passes_filters w include file rel ->
  (forall s to_add s1,
      for_fold (includes w) (collect_include w) [] s = Ok to_add s1 ->
      In (file, rel) to_add) /\
  (forall s s',
      _copy_module w s = Ok tt s' ->
      exists f, fs w 0 (path_str file) = Some f /\
                In (copied_entry (path_str rel) (st_mode f) (content f)) (wheel s')).
Proof.
  intros U Hinc Hfile (Hrule & Hpy & Hdir & Hroot & Hex & Hsuf).
  assert (Hrel : rel_file_of w include file = Some rel).
  { unfold rel_file_of. unfold rule_root in Hroot.
    destruct (is_package_include include && truthy (source include)); exact Hroot. }
  assert (Hfold : forall s to_add s1,
             for_fold (includes w) (collect_include w) [] s = Ok to_add s1 ->
             In (file, rel) to_add).
  { apply (@passing_file_collected w include file rel Hinc Hrule Hfile).
    intros s. unfold collectable. rewrite (U (path_str file) (clock s)).
    split; [exact Hpy|]. split; [exact Hdir|]. split; [exact Hrel|].
    split; [exact Hex|]. now apply String.eqb_neq. }
  split; [exact Hfold|].
  intros s s' H. unfold _copy_module in H. apply bind_ok in H.
  destruct H as (to_add & s1 & Hc & Hadd).
  pose proof (collect_leaves_archive w s) as Hleave. rewrite Hc in Hleave.
  apply (add_files_members w _ U) in Hadd. destruct Hadd as (ms & Hms & Hall).
  assert (Hin : In (file, rel) (sorted snd path_ltb to_add)).
  { apply (Permutation_in _ (sorted_perm _ _ snd path_ltb to_add)).
    eapply Hfold; exact Hc. }
  destruct (@Forall2_pick _ _ _ _ _ _ Hall Hin) as (e & He & f & Hf & ->).
  cbn [fst snd] in *. exists f. split; [exact Hf|].
  rewrite Hms. apply in_or_app. now right.
Qed.

Lemma passing_files_are_written_witness :
  exists f, fs Samples.demo 0 "/proj/pkg/main.py" = Some f /\
            In (copied_entry "pkg/main.py" (st_mode f) (content f))
               (wheel Samples.demo_copied).
Proof.
  destruct (@passing_files_are_written Samples.demo Samples.demo_include
              (Samples.under ["pkg"; "main.py"]%string) ["pkg"; "main.py"]%string)
    as [_ H].
  - intros p t. reflexivity.
  - simpl. auto.
  - simpl. auto 10.
  - repeat split; try (vm_compute; reflexivity).
    intros E. vm_compute in E. discriminate E.
  - exact (H (new_builder Samples.demo) Samples.demo_copied eq_refl).
Defined.

(* ================================================================== *)
(** * Further properties: when the build goes through                  *)
(* ================================================================== *)

















